(** * Wallpaper visualizer: calibration, wall polygon and roll estimation

    A shallow embedding of the estimation engine of [src/App.tsx]
    ([pixelsPerCm], [estimateProject], [handleFileUpload]), of the pointer
    handler of the workspace component ([handleMouseDown]) and of the result
    handling of the rendering service ([renderWallpaper]); then of the other
    handlers of the application ([handleRender], the inputs and buttons), of
    the drawing of the workspace ([render]) and of the image parts of the
    request.

    JavaScript numbers are IEEE 754 binary64 values, and they are modelled
    twice.  [number] is the exact model: real arithmetic on the finite
    values, extended with the three non-finite values of IEEE 754 and their
    propagation rules.  Rounding, overflow to infinity and the sign of zero
    are outside of it (a division of a nonzero finite value by zero gives the
    infinity with the sign of the numerator); it carries the statements on
    guards, formulas, cases and frames.  [Double] is the binary64 model: the
    primitive floats of the prover, with the operations of the machine.  The
    estimator is read a second time with them, for what depends on rounding,
    on overflow or on the sign of zero: the order of the points in the
    shoelace loop, the bounding box of the polygon, the two scale factors
    and the signs of the estimate.  Where no operation of the shoelace loop
    rounds, it computes the signed sum of the exact model
    ([exactLoop_signedArea]). *)

From Stdlib Require Import Reals Lra Lia ZArith Bool Ascii String List Permutation.
From Stdlib Require Import Floats.
From Stdlib Require DecimalString Uint63.
Import ListNotations.

Set Warnings "-inexact-float".

Local Open Scope R_scope.

(** ** JavaScript values *)

Inductive number : Type :=
| Fin (r : R)
| PInf
| NInf
| NaN.

(** What a [throw] carries.  [Error] and [TypeError] objects have a string
    [message]; [Thrown] stands for any other thrown value that has no
    [message] property, and [Nullish] for a thrown [null] or [undefined],
    on which reading a property throws. *)
Inductive thrown : Type :=
| Error (message : string)
| TypeError (message : string)
| Thrown (tag : nat)
| Nullish.

(** A computation either returns or throws. *)
Inductive outcome (A : Type) : Type :=
| Return (a : A)
| Throw (e : thrown).

Arguments Return {A} a.
Arguments Throw {A} e.

Definition bind {A B : Type} (c : outcome A) (k : A -> outcome B) : outcome B :=
  match c with
  | Return a => k a
  | Throw e => Throw e
  end.

Notation "v <- c ;; k" := (bind c (fun v => k))
  (at level 61, c at next level, right associativity).

(** Reading a property of [null] or [undefined]. *)
Definition nullAccess : thrown :=
  TypeError "Cannot read properties of undefined".

(** [o!.f] and [a[i].f]: the access throws when the object is absent. *)
Definition deref {A : Type} (o : option A) : outcome A :=
  match o with
  | Some a => Return a
  | None => Throw nullAccess
  end.

Module Num.

(** Selects by the sign of a real. *)
Definition by_sign {A : Type} (r : R) (neg zero pos : A) : A :=
  match total_order_T r 0 with
  | inleft (left _) => neg
  | inleft (right _) => zero
  | inright _ => pos
  end.

Definition opp (a : number) : number :=
  match a with
  | Fin r => Fin (- r)
  | PInf => NInf
  | NInf => PInf
  | NaN => NaN
  end.

Definition add (a b : number) : number :=
  match a, b with
  | NaN, _ | _, NaN => NaN
  | Fin r, Fin s => Fin (r + s)
  | PInf, NInf | NInf, PInf => NaN
  | PInf, _ | _, PInf => PInf
  | NInf, _ | _, NInf => NInf
  end.

Definition sub (a b : number) : number := add a (opp b).

Definition mul (a b : number) : number :=
  match a, b with
  | NaN, _ | _, NaN => NaN
  | Fin r, Fin s => Fin (r * s)
  | Fin r, PInf | PInf, Fin r => by_sign r NInf NaN PInf
  | Fin r, NInf | NInf, Fin r => by_sign r PInf NaN NInf
  | PInf, PInf | NInf, NInf => PInf
  | PInf, NInf | NInf, PInf => NInf
  end.

Definition div (a b : number) : number :=
  match a, b with
  | NaN, _ | _, NaN => NaN
  | Fin r, Fin s =>
      if Req_dec_T s 0 then by_sign r NInf NaN PInf else Fin (r / s)
  | Fin _, _ => Fin 0
  | PInf, Fin s => by_sign s NInf PInf PInf
  | NInf, Fin s => by_sign s PInf NInf NInf
  | _, _ => NaN
  end.

(** [Math.abs] *)
Definition abs (a : number) : number :=
  match a with
  | Fin r => Fin (Rabs r)
  | PInf | NInf => PInf
  | NaN => NaN
  end.

(** [Math.sqrt] *)
Definition sqrt (a : number) : number :=
  match a with
  | Fin r => if Rlt_dec r 0 then NaN else Fin (R_sqrt.sqrt r)
  | PInf => PInf
  | NInf | NaN => NaN
  end.

(** [Math.ceil] *)
Definition ceil (a : number) : number :=
  match a with
  | Fin r => Fin (IZR (Zceil r))
  | other => other
  end.

(** [Math.min] and [Math.max] of two arguments. *)
Definition min2 (a b : number) : number :=
  match a, b with
  | NaN, _ | _, NaN => NaN
  | NInf, _ | _, NInf => NInf
  | PInf, c | c, PInf => c
  | Fin r, Fin s => Fin (Rmin r s)
  end.

Definition max2 (a b : number) : number :=
  match a, b with
  | NaN, _ | _, NaN => NaN
  | PInf, _ | _, PInf => PInf
  | NInf, c | c, NInf => c
  | Fin r, Fin s => Fin (Rmax r s)
  end.

(** [Math.min(...xs)] and [Math.max(...xs)]: with no argument they are
    [Infinity] and [-Infinity]. *)
Definition min (xs : list number) : number := fold_left min2 xs PInf.
Definition max (xs : list number) : number := fold_left max2 xs NInf.

(** Truthiness of a number: [0] and [NaN] are falsy. *)
Definition truthy (a : number) : bool :=
  match a with
  | Fin r => if Req_dec_T r 0 then false else true
  | PInf | NInf => true
  | NaN => false
  end.

(** [a <= b] as JavaScript compares: false as soon as one side is [NaN]. *)
Definition le (a b : number) : Prop :=
  match a, b with
  | NaN, _ | _, NaN => False
  | NInf, _ | _, PInf => True
  | Fin r, Fin s => r <= s
  | _, _ => False
  end.

Definition finite (a : number) : Prop := exists r, a = Fin r.

End Num.

Declare Scope num_scope.
Delimit Scope num_scope with num.
Bind Scope num_scope with number.
Infix "+" := Num.add : num_scope.
Infix "-" := Num.sub : num_scope.
Infix "*" := Num.mul : num_scope.
Infix "/" := Num.div : num_scope.

Local Open Scope num_scope.

(** ** Data model ([types.ts]) *)

Record Point : Type := { x : number; y : number }.

Record CalibrationData : Type := {
  p1 : option Point;
  p2 : option Point;
  realWorldValueCm : number
}.

Inductive SwatchType : Type := INDIVIDUAL | PANORAMA.

Inductive ToolMode : Type := IDLE | CALIBRATE | SELECT_WALL.

Record PanoramaSpecs : Type := {
  rollWidthCm : number;
  totalRolls : number;
  designHeightCm : number
}.

Record IndividualRollSpecs : Type := {
  widthCm : number;
  lengthM : number
}.

Record AppState : Type := {
  roomImage : option string;
  swatchImage : option string;
  swatchType : SwatchType;
  panoramaSpecs : PanoramaSpecs;
  individualRollSpecs : IndividualRollSpecs;
  calibration : CalibrationData;
  wallMask : list Point;
  isRendering : bool;
  renderedResult : option string;
  errorMessage : option string
}.

(** ** The estimator ([App.tsx], [pixelsPerCm] and [estimateProject]) *)

(** [n.toFixed(d)]: the decimal rendering is kept symbolic, so that the number
    that is rendered stays visible in the result. *)
Inductive fixedString : Type :=
| toFixed (n : number) (fractionDigits : nat).

Record Estimate : Type := {
  area : fixedString;
  width : fixedString;
  height : fixedString;
  rolls : number
}.

(** [pixelsPerCm]; [None] is [null]. *)
Definition pixelsPerCm (c : CalibrationData) : option number :=
  match p1 c, p2 c with
  | Some a, Some b =>
      if Num.truthy (realWorldValueCm c) then
        let dx := x a - x b in
        let dy := y a - y b in
        let pixelDist := Num.sqrt (dx * dx + dy * dy) in
        Some (pixelDist / realWorldValueCm c)
      else None
  | _, _ => None
  end.

(** [!pixelsPerCm] *)
Definition falsy (o : option number) : bool :=
  match o with
  | None => true
  | Some n => negb (Num.truthy n)
  end.

(** One turn of the loop of [estimateProject] over the wall mask. *)
Definition shoelaceStep (mask : list Point) (acc : outcome number) (i : nat)
  : outcome number :=
  areaNormalized <- acc ;;
  let j := ((i + 1) mod length mask)%nat in
  mi <- deref (nth_error mask i) ;;
  mj <- deref (nth_error mask j) ;;
  let areaNormalized := areaNormalized + x mi * y mj in
  Return (areaNormalized - x mj * y mi).

(** [areaNormalized] after the loop and the halving of its absolute value. *)
Definition areaNormalized (mask : list Point) : outcome number :=
  signed <- fold_left (shoelaceStep mask) (seq 0 (length mask)) (Return (Fin 0)) ;;
  Return (Num.abs signed / Fin 2).

Definition distCalNormalized (a b : Point) : number :=
  let dxCal := Num.abs (x a - x b) in
  let dyCal := Num.abs (y a - y b) in
  Num.sqrt (dxCal * dxCal + dyCal * dyCal).

(** [cmPerNormalizedUnit], with the non-null assertions on [p1] and [p2]. *)
Definition cmPerNormalizedUnit (c : CalibrationData) : outcome number :=
  a <- deref (p1 c) ;;
  b <- deref (p2 c) ;;
  Return (realWorldValueCm c / distCalNormalized a b).

(** The X and Y extents of the bounding box of the mask. *)
Definition extentX (mask : list Point) : number :=
  let minX := Num.min (map x mask) in
  let maxX := Num.max (map x mask) in
  maxX - minX.

Definition extentY (mask : list Point) : number :=
  let minY := Num.min (map y mask) in
  let maxY := Num.max (map y mask) in
  maxY - minY.

(** [rollAreaM2] of the individual branch. *)
Definition rollAreaM2 (spec : IndividualRollSpecs) : number :=
  (widthCm spec / Fin 100) * lengthM spec.

(** [requiredRolls], from the wall width and area. *)
Definition requiredRolls (s : AppState) (wallWidthCm areaM2 : number) : number :=
  match swatchType s with
  | PANORAMA => Num.ceil (wallWidthCm / rollWidthCm (panoramaSpecs s))
  | INDIVIDUAL =>
      Num.ceil ((areaM2 * Fin (11 / 10)) / rollAreaM2 (individualRollSpecs s))
  end.

(** [estimateProject]: [Return None] is the [null] result.  [wallWidthCm] is
    the local [widthCm] of the source, named apart from the field of the roll
    specification. *)
Definition estimateProject (s : AppState) : outcome (option Estimate) :=
  if falsy (pixelsPerCm (calibration s)) || (length (wallMask s) <? 3)%nat
  then Return None
  else
    areaNormalized <- areaNormalized (wallMask s) ;;
    cmPerNormalizedUnit <- cmPerNormalizedUnit (calibration s) ;;
    let areaCm2 := areaNormalized * (cmPerNormalizedUnit * cmPerNormalizedUnit) in
    let areaM2 := areaCm2 / Fin 10000 in
    let wallWidthCm := extentX (wallMask s) * cmPerNormalizedUnit in
    let heightCm := extentY (wallMask s) * cmPerNormalizedUnit in
    Return (Some {| area := toFixed areaM2 2;
                    width := toFixed wallWidthCm 1;
                    height := toFixed heightCm 1;
                    rolls := requiredRolls s wallWidthCm areaM2 |}).

(** [setCalibrationPreset] *)
Definition setCalibrationPreset (val : number) (prev : AppState) : AppState :=
  {| roomImage := roomImage prev;
     swatchImage := swatchImage prev;
     swatchType := swatchType prev;
     panoramaSpecs := panoramaSpecs prev;
     individualRollSpecs := individualRollSpecs prev;
     calibration := {| p1 := p1 (calibration prev);
                       p2 := p2 (calibration prev);
                       realWorldValueCm := val |};
     wallMask := wallMask prev;
     isRendering := isRendering prev;
     renderedResult := renderedResult prev;
     errorMessage := errorMessage prev |}.

(** ** The workspace component ([components/Workspace.tsx]) *)

Module Workspace.

Record DOMRect : Type := {
  left : number;
  top : number;
  width : number;
  height : number
}.

Record MouseEvent : Type := { clientX : number; clientY : number }.

Record Props : Type := {
  image : option string;
  mode : ToolMode;
  calibration : CalibrationData;
  wallMask : list Point
}.

(** The callback of the parent that the handler invokes. *)
Inductive call : Type :=
| onCalibrationUpdate (data : CalibrationData)
| onMaskUpdate (points : list Point).

Definition isSet {A : Type} (o : option A) : bool :=
  match o with Some _ => true | None => false end.

(** The normalized point under the pointer. *)
Definition pointer (rect : DOMRect) (e : MouseEvent) : Point :=
  {| x := (clientX e - left rect) / width rect;
     y := (clientY e - top rect) / height rect |}.

(** [handleMouseDown]: [canvas] is [canvasRef.current], given by its
    bounding rectangle, and [imgObj] the loaded image; [None] is a return
    without any call. *)
Definition handleMouseDown (canvas : option DOMRect) (imgObj : option string)
    (props : Props) (e : MouseEvent) : option call :=
  match canvas, imgObj with
  | Some rect, Some _ =>
      let q := pointer rect e in
      let cal := calibration props in
      match mode props with
      | CALIBRATE =>
          if negb (isSet (p1 cal)) || (isSet (p1 cal) && isSet (p2 cal))
          then Some (onCalibrationUpdate
                       {| p1 := Some q; p2 := None;
                          realWorldValueCm := realWorldValueCm cal |})
          else Some (onCalibrationUpdate
                       {| p1 := p1 cal; p2 := Some q;
                          realWorldValueCm := realWorldValueCm cal |})
      | SELECT_WALL => Some (onMaskUpdate (wallMask props ++ [q]))
      | IDLE => None
      end
  | _, _ => None
  end.

End Workspace.

(** ** The application component ([App.tsx]) *)

Record App : Type := {
  state : AppState;
  mode : ToolMode
}.

(** The props the application hands to the workspace. *)
Definition workspaceProps (a : App) : Workspace.Props :=
  {| Workspace.image := roomImage (state a);
     Workspace.mode := mode a;
     Workspace.calibration := calibration (state a);
     Workspace.wallMask := wallMask (state a) |}.

(** The two callbacks given to the workspace: each replaces one field. *)
Definition onWorkspaceCall (c : Workspace.call) (prev : AppState) : AppState :=
  match c with
  | Workspace.onCalibrationUpdate data =>
      {| roomImage := roomImage prev;
         swatchImage := swatchImage prev;
         swatchType := swatchType prev;
         panoramaSpecs := panoramaSpecs prev;
         individualRollSpecs := individualRollSpecs prev;
         calibration := data;
         wallMask := wallMask prev;
         isRendering := isRendering prev;
         renderedResult := renderedResult prev;
         errorMessage := errorMessage prev |}
  | Workspace.onMaskUpdate pts =>
      {| roomImage := roomImage prev;
         swatchImage := swatchImage prev;
         swatchType := swatchType prev;
         panoramaSpecs := panoramaSpecs prev;
         individualRollSpecs := individualRollSpecs prev;
         calibration := calibration prev;
         wallMask := pts;
         isRendering := isRendering prev;
         renderedResult := renderedResult prev;
         errorMessage := errorMessage prev |}
  end.

(** The user's actions on the spatial tools. *)
Inductive action : Type :=
| ClickCalibrate
| ClickSelectWall
| MouseDown (canvas : option Workspace.DOMRect) (imgObj : option string)
            (e : Workspace.MouseEvent)
| Preset (val : number).

Definition toggle (target current : ToolMode) : ToolMode :=
  match target, current with
  | CALIBRATE, CALIBRATE => IDLE
  | SELECT_WALL, SELECT_WALL => IDLE
  | _, _ => target
  end.

Definition step (a : App) (act : action) : App :=
  match act with
  | ClickCalibrate => {| state := state a; mode := toggle CALIBRATE (mode a) |}
  | ClickSelectWall => {| state := state a; mode := toggle SELECT_WALL (mode a) |}
  | MouseDown canvas imgObj e =>
      match Workspace.handleMouseDown canvas imgObj (workspaceProps a) e with
      | Some c => {| state := onWorkspaceCall c (state a); mode := mode a |}
      | None => a
      end
  | Preset val => {| state := setCalibrationPreset val (state a); mode := mode a |}
  end.

Definition run (a : App) (acts : list action) : App := fold_left step acts a.

(** The initial state of the component. *)
Definition initialState : AppState :=
  {| roomImage := None;
     swatchImage := None;
     swatchType := INDIVIDUAL;
     panoramaSpecs := {| rollWidthCm := Fin 70; totalRolls := Fin 7;
                         designHeightCm := Fin 325 |};
     individualRollSpecs := {| widthCm := Fin 53; lengthM := Fin 10 |};
     calibration := {| p1 := None; p2 := None; realWorldValueCm := Fin 0 |};
     wallMask := [];
     isRendering := false;
     renderedResult := None;
     errorMessage := None |}.

Definition initialApp : App := {| state := initialState; mode := IDLE |}.

(** The [type] argument of [handleFileUpload]. *)
Inductive uploadType : Type := room | swatch.

(** [handleFileUpload].  [files] is [e.target.files], each file given by its
    name.  Without a first file the handler returns; with one it starts a
    reader, whose load event applies the returned update to the state of that
    moment, [base64] being what the reader produced. *)
Definition handleFileUpload (files : option (list string)) (type : uploadType)
  : option (option string -> AppState -> AppState) :=
  match files with
  | Some (file :: _) =>
      Some (fun base64 prev =>
        {| roomImage := match type with room => base64 | swatch => roomImage prev end;
           swatchImage := match type with room => swatchImage prev | swatch => base64 end;
           swatchType := swatchType prev;
           panoramaSpecs := panoramaSpecs prev;
           individualRollSpecs := individualRollSpecs prev;
           calibration := calibration prev;
           wallMask := wallMask prev;
           isRendering := isRendering prev;
           renderedResult := None;
           errorMessage := errorMessage prev |})
  | _ => None
  end.

(** ** The rendering service ([services/geminiService.ts]) *)

Module GeminiService.

Record InlineData : Type := { data : string; mimeType : string }.

Record Part : Type := {
  text : option string;
  inlineData : option InlineData
}.

Record Content : Type := { parts : list Part }.
Record Candidate : Type := { content : Content }.
Record Response : Type := { candidates : list Candidate }.

(** [hay.includes(needle)] on strings. *)
Definition includes (hay needle : string) : bool :=
  match String.index 0 needle hay with
  | Some _ => true
  | None => false
  end.

(** [error?.message?.includes(needle)], as a condition. *)
Definition messageIncludes (error : thrown) (needle : string) : bool :=
  match error with
  | Error message | TypeError message => includes message needle
  | Thrown _ | Nullish => false
  end.

(** [try body catch (error) handler] *)
Definition tryCatch {A : Type} (body : outcome A) (handler : thrown -> outcome A)
  : outcome A :=
  match body with
  | Return a => Return a
  | Throw error => handler error
  end.

(** The loop over the parts of the first candidate: the first part with
    inline data ends the function. *)
Fixpoint firstImage (ps : list Part) : option string :=
  match ps with
  | [] => None
  | part :: rest =>
      match inlineData part with
      | Some inline => Some ("data:image/png;base64," ++ data inline)%string
      | None => firstImage rest
      end
  end.

Definition isEmpty (s : string) : bool :=
  match s with EmptyString => true | _ => false end.

(** [renderWallpaper].  [apiKey] is [process.env.API_KEY]; [generateContent]
    is what awaiting the call to the service gives, a response or a
    rejection.  The prompt and the two images only feed that call. *)
Definition renderWallpaper (apiKey : option string)
    (generateContent : outcome Response) : outcome string :=
  match apiKey with
  | None => Throw (Error "API Key is missing.")
  | Some key =>
      if isEmpty key then Throw (Error "API Key is missing.")
      else
        tryCatch
          (response <- generateContent ;;
           first <- deref (nth_error (candidates response) 0) ;;
           match firstImage (parts (content first)) with
           | Some image => Return image
           | None => Throw (Error "No image data returned from AI.")
           end)
          (fun error =>
             if messageIncludes error "Requested entity was not found"
             then Throw (Error "KEY_RESET_REQUIRED")
             else Throw error)
  end.

(** How [handleRender] tells the credential case from the others:
    [error.message === "KEY_RESET_REQUIRED"].  On [null] and [undefined] the
    test does not succeed: reading [message] throws, see [handleRender]. *)
Definition keyResetRequired (error : thrown) : bool :=
  match error with
  | Error message | TypeError message =>
      String.eqb message "KEY_RESET_REQUIRED"
  | Thrown _ | Nullish => false
  end.

End GeminiService.

(** ** Definitions used to state the properties *)

(** A point with finite coordinates. *)
Definition point (a b : R) : Point := {| x := Fin a; y := Fin b |}.

Definition origin : Point := point 0 0.

(** The Euclidean distance of the specification, on finite coordinates: the
    square root of the sum of the squared coordinate differences. *)
Definition euclideanDistance (ax ay bx by' : R) : R :=
  R_sqrt.sqrt ((ax - bx) * (ax - bx) + (ay - by') * (ay - by'))%R.

(** The sum of a list of numbers. *)
Definition total (l : list number) : number := fold_right Num.add (Fin 0) l.

(** The contribution of the edge from [fst e] to [snd e] to the signed
    shoelace sum. *)
Definition cross (e : Point * Point) : number :=
  x (fst e) * y (snd e) - x (snd e) * y (fst e).

(** The edges of an open path. *)
Fixpoint edges (l : list Point) : list (Point * Point) :=
  match l with
  | [] => []
  | a :: t =>
      match t with
      | [] => []
      | b :: _ => (a, b) :: edges t
      end
  end.

(** The path closed by a return to its first vertex. *)
Definition closed (l : list Point) : list Point := l ++ firstn 1 l.

(** The cyclic rotation that starts the sequence at its vertex of index [k]. *)
Definition rotate (k : nat) (l : list Point) : list Point :=
  skipn k l ++ firstn k l.

Definition swap (e : Point * Point) : Point * Point := (snd e, fst e).

(** The signed shoelace sum over the edges of the closed polygon. *)
Definition signedArea (mask : list Point) : number :=
  total (map cross (edges (closed mask))).

(** The estimate as a function of the scale factor [cm], once the loop is
    replaced by the signed sum. *)
Definition estimateWith (s : AppState) (cm : number) : Estimate :=
  let areaM2 :=
    ((Num.abs (signedArea (wallMask s)) / Fin 2) * (cm * cm)) / Fin 10000 in
  let wallWidthCm := extentX (wallMask s) * cm in
  {| area := toFixed areaM2 2;
     width := toFixed wallWidthCm 1;
     height := toFixed (extentY (wallMask s) * cm) 1;
     rolls := requiredRolls s wallWidthCm areaM2 |}.

Definition finitePoint (a : Point) : Prop :=
  Num.finite (x a) /\ Num.finite (y a).

(** A calibration whose coordinates and length are finite numbers. *)
Definition finiteCalibration (c : CalibrationData) : Prop :=
  (forall a, p1 c = Some a -> finitePoint a) /\
  (forall b, p2 c = Some b -> finitePoint b) /\
  Num.finite (realWorldValueCm c).

(** ** Sample states *)

(** A calibration segment of normalized length 1/10 standing for 100 cm, and a
    triangular wall of normalized area 2/1000, with the initial roll
    specifications (an individual roll of 53 cm by 10 m). *)
Definition sampleState : AppState :=
  {| roomImage := None;
     swatchImage := None;
     swatchType := INDIVIDUAL;
     panoramaSpecs := panoramaSpecs initialState;
     individualRollSpecs := individualRollSpecs initialState;
     calibration := {| p1 := Some (point 0 0);
                       p2 := Some (point (1 / 10) 0);
                       realWorldValueCm := Fin 100 |};
     wallMask := [point 0 0; point (1 / 10) 0; point (1 / 10) (1 / 25)];
     isRendering := false;
     renderedResult := None;
     errorMessage := None |}.

(** The same calibration and the same wall as a panorama mural. *)
Definition samplePanorama : AppState :=
  {| roomImage := None;
     swatchImage := None;
     swatchType := PANORAMA;
     panoramaSpecs := panoramaSpecs initialState;
     individualRollSpecs := individualRollSpecs initialState;
     calibration := calibration sampleState;
     wallMask := wallMask sampleState;
     isRendering := false;
     renderedResult := None;
     errorMessage := None |}.

(** A panorama with the same calibration, roll width and X coordinates, on a
    taller wall and with another design height. *)
Definition tallPanorama : AppState :=
  {| roomImage := None;
     swatchImage := None;
     swatchType := PANORAMA;
     panoramaSpecs := {| rollWidthCm := Fin 70; totalRolls := Fin 7;
                         designHeightCm := Fin 250 |};
     individualRollSpecs := individualRollSpecs initialState;
     calibration := calibration sampleState;
     wallMask := [point 0 0; point (1 / 10) 0; point (1 / 10) 1];
     isRendering := false;
     renderedResult := None;
     errorMessage := None |}.

(** A unit calibration segment entered with the length -1 cm. *)
Definition negativeLength : AppState :=
  {| roomImage := None;
     swatchImage := None;
     swatchType := INDIVIDUAL;
     panoramaSpecs := panoramaSpecs initialState;
     individualRollSpecs := individualRollSpecs initialState;
     calibration := {| p1 := Some (point 0 0);
                       p2 := Some (point 1 0);
                       realWorldValueCm := Fin (-1) |};
     wallMask := [point 0 0; point 1 0; point 0 1];
     isRendering := false;
     renderedResult := None;
     errorMessage := None |}.

(** The sample state with a roll width of -53 cm, and the same with the
    calibration segment standing for 10000 cm, which makes the wall larger. *)
Definition negativeRoll : AppState :=
  {| roomImage := None;
     swatchImage := None;
     swatchType := INDIVIDUAL;
     panoramaSpecs := panoramaSpecs initialState;
     individualRollSpecs := {| widthCm := Fin (-53); lengthM := Fin 10 |};
     calibration := calibration sampleState;
     wallMask := wallMask sampleState;
     isRendering := false;
     renderedResult := None;
     errorMessage := None |}.

Definition negativeRollLarge : AppState :=
  {| roomImage := None;
     swatchImage := None;
     swatchType := INDIVIDUAL;
     panoramaSpecs := panoramaSpecs initialState;
     individualRollSpecs := {| widthCm := Fin (-53); lengthM := Fin 10 |};
     calibration := {| p1 := Some (point 0 0);
                       p2 := Some (point (1 / 10) 0);
                       realWorldValueCm := Fin 10000 |};
     wallMask := wallMask sampleState;
     isRendering := false;
     renderedResult := None;
     errorMessage := None |}.

(** ** The other handlers of the application ([App.tsx]) *)

(** The buttons of the wallpaper type. *)
Definition setSwatchType (t : SwatchType) (prev : AppState) : AppState :=
  {| roomImage := roomImage prev;
     swatchImage := swatchImage prev;
     swatchType := t;
     panoramaSpecs := panoramaSpecs prev;
     individualRollSpecs := individualRollSpecs prev;
     calibration := calibration prev;
     wallMask := wallMask prev;
     isRendering := isRendering prev;
     renderedResult := renderedResult prev;
     errorMessage := errorMessage prev |}.

(** The two inputs of the panorama specification; [val] is
    [Number(e.target.value)].  There is no input for [totalRolls]. *)
Definition setPanoramaSpecs (specs : PanoramaSpecs) (prev : AppState) : AppState :=
  {| roomImage := roomImage prev;
     swatchImage := swatchImage prev;
     swatchType := swatchType prev;
     panoramaSpecs := specs;
     individualRollSpecs := individualRollSpecs prev;
     calibration := calibration prev;
     wallMask := wallMask prev;
     isRendering := isRendering prev;
     renderedResult := renderedResult prev;
     errorMessage := errorMessage prev |}.

Definition onRollWidthCm (val : number) (prev : AppState) : AppState :=
  setPanoramaSpecs
    {| rollWidthCm := val;
       totalRolls := totalRolls (panoramaSpecs prev);
       designHeightCm := designHeightCm (panoramaSpecs prev) |} prev.

Definition onDesignHeightCm (val : number) (prev : AppState) : AppState :=
  setPanoramaSpecs
    {| rollWidthCm := rollWidthCm (panoramaSpecs prev);
       totalRolls := totalRolls (panoramaSpecs prev);
       designHeightCm := val |} prev.

(** The two inputs of the individual roll specification. *)
Definition setIndividualRollSpecs (specs : IndividualRollSpecs) (prev : AppState)
  : AppState :=
  {| roomImage := roomImage prev;
     swatchImage := swatchImage prev;
     swatchType := swatchType prev;
     panoramaSpecs := panoramaSpecs prev;
     individualRollSpecs := specs;
     calibration := calibration prev;
     wallMask := wallMask prev;
     isRendering := isRendering prev;
     renderedResult := renderedResult prev;
     errorMessage := errorMessage prev |}.

Definition onWidthCm (val : number) (prev : AppState) : AppState :=
  setIndividualRollSpecs
    {| widthCm := val; lengthM := lengthM (individualRollSpecs prev) |} prev.

Definition onLengthM (val : number) (prev : AppState) : AppState :=
  setIndividualRollSpecs
    {| widthCm := widthCm (individualRollSpecs prev); lengthM := val |} prev.

(** The button over a rendered result. *)
Definition adjustSettings (prev : AppState) : AppState :=
  {| roomImage := roomImage prev;
     swatchImage := swatchImage prev;
     swatchType := swatchType prev;
     panoramaSpecs := panoramaSpecs prev;
     individualRollSpecs := individualRollSpecs prev;
     calibration := calibration prev;
     wallMask := wallMask prev;
     isRendering := isRendering prev;
     renderedResult := None;
     errorMessage := errorMessage prev |}.

(** The application with the flag of the selected key. *)
Record Session : Type := {
  app : App;
  hasApiKey : bool
}.

(** [!image] for an image of the state: null and the empty string are
    falsy. *)
Definition noImage (image : option string) : bool :=
  match image with
  | None => true
  | Some s => GeminiService.isEmpty s
  end.

(** [error.message] *)
Definition messageOf (error : thrown) : option string :=
  match error with
  | Error message | TypeError message => Some message
  | Thrown _ | Nullish => None
  end.

(** The three updates of [handleRender]. *)
Definition renderStarted (prev : AppState) : AppState :=
  {| roomImage := roomImage prev;
     swatchImage := swatchImage prev;
     swatchType := swatchType prev;
     panoramaSpecs := panoramaSpecs prev;
     individualRollSpecs := individualRollSpecs prev;
     calibration := calibration prev;
     wallMask := wallMask prev;
     isRendering := true;
     renderedResult := renderedResult prev;
     errorMessage := None |}.

Definition renderSucceeded (result : string) (prev : AppState) : AppState :=
  {| roomImage := roomImage prev;
     swatchImage := swatchImage prev;
     swatchType := swatchType prev;
     panoramaSpecs := panoramaSpecs prev;
     individualRollSpecs := individualRollSpecs prev;
     calibration := calibration prev;
     wallMask := wallMask prev;
     isRendering := false;
     renderedResult := Some result;
     errorMessage := errorMessage prev |}.

Definition renderFailed (message : option string) (prev : AppState) : AppState :=
  {| roomImage := roomImage prev;
     swatchImage := swatchImage prev;
     swatchType := swatchType prev;
     panoramaSpecs := panoramaSpecs prev;
     individualRollSpecs := individualRollSpecs prev;
     calibration := calibration prev;
     wallMask := wallMask prev;
     isRendering := false;
     renderedResult := renderedResult prev;
     errorMessage := message |}.

Definition withState (s : Session) (next : AppState) : Session :=
  {| app := {| state := next; mode := mode (app s) |};
     hasApiKey := hasApiKey s |}.

(** [handleRender], from the click to the end of the awaited call, no other
    event coming in between.  [apiKey] and [generateContent] are what
    [renderWallpaper] finds.  When the call is rejected with [null] or
    [undefined], reading [error.message] throws inside the catch block:
    neither update follows, and the rendering flag stays up. *)
Definition handleRender (apiKey : option string)
    (generateContent : outcome GeminiService.Response) (s : Session) : Session :=
  let current := state (app s) in
  if noImage (roomImage current) || noImage (swatchImage current) then s
  else
    let started := renderStarted current in
    match GeminiService.renderWallpaper apiKey generateContent with
    | Return result => withState s (renderSucceeded result started)
    | Throw Nullish => withState s started
    | Throw error =>
        if GeminiService.keyResetRequired error
        then {| app := {| state :=
                            renderFailed
                              (Some "API Key reset required. Please select your key again."%string)
                              started;
                          mode := mode (app s) |};
                hasApiKey := false |}
        else withState s (renderFailed (messageOf error) started)
    end.

(** What the user and the environment can make happen. *)
Inductive event : Type :=
| Tool (act : action)
| FileLoaded (files : option (list string)) (type : uploadType)
             (base64 : option string)
| SwatchTypeButton (t : SwatchType)
| RollWidthInput (val : number)
| DesignHeightInput (val : number)
| WidthInput (val : number)
| LengthInput (val : number)
| ScaleInput (val : number)
| AdjustSettings
| ApplyVisualization (apiKey : option string)
                     (generateContent : outcome GeminiService.Response)
| KeyChecked (hasKey : bool)
| KeyDialogClosed.

Definition handle (s : Session) (ev : event) : Session :=
  match ev with
  | Tool act => {| app := step (app s) act; hasApiKey := hasApiKey s |}
  | FileLoaded files type base64 =>
      match handleFileUpload files type with
      | Some update => withState s (update base64 (state (app s)))
      | None => s
      end
  | SwatchTypeButton t => withState s (setSwatchType t (state (app s)))
  | RollWidthInput val => withState s (onRollWidthCm val (state (app s)))
  | DesignHeightInput val => withState s (onDesignHeightCm val (state (app s)))
  | WidthInput val => withState s (onWidthCm val (state (app s)))
  | LengthInput val => withState s (onLengthM val (state (app s)))
  | ScaleInput val => withState s (setCalibrationPreset val (state (app s)))
  | AdjustSettings => withState s (adjustSettings (state (app s)))
  | ApplyVisualization apiKey generateContent =>
      handleRender apiKey generateContent s
  | KeyChecked hasKey => {| app := app s; hasApiKey := hasKey |}
  | KeyDialogClosed => {| app := app s; hasApiKey := true |}
  end.

Definition initialSession : Session :=
  {| app := initialApp; hasApiKey := false |}.

Definition play (s : Session) (events : list event) : Session :=
  fold_left handle events s.

(** The states the application can be in. *)
Definition reachable (s : Session) : Prop :=
  exists events, s = play initialSession events.

(** ** Definitions used to state further properties *)

(** A session with both images loaded, on the sample state. *)
Definition readySession : Session :=
  {| app := {| state :=
                 {| roomImage := Some "data:image/png;base64,AAAA"%string;
                    swatchImage := Some "data:image/jpeg;base64,BBBB"%string;
                    swatchType := swatchType sampleState;
                    panoramaSpecs := panoramaSpecs sampleState;
                    individualRollSpecs := individualRollSpecs sampleState;
                    calibration := calibration sampleState;
                    wallMask := wallMask sampleState;
                    isRendering := false;
                    renderedResult := None;
                    errorMessage := Some "old message"%string |};
               mode := IDLE |};
     hasApiKey := true |}.

(** A response with a text part followed by an image part. *)
Definition imageCandidate : GeminiService.Candidate :=
  {| GeminiService.content :=
       {| GeminiService.parts :=
            [ {| GeminiService.text := Some "done"%string;
                 GeminiService.inlineData := None |};
              {| GeminiService.text := None;
                 GeminiService.inlineData :=
                   Some {| GeminiService.data := "CCCC"%string;
                           GeminiService.mimeType := "image/png"%string |} |} ]
       |} |}.

Definition imageResponse : GeminiService.Response :=
  {| GeminiService.candidates := [imageCandidate] |}.

(** A response with text only. *)
Definition textResponse : GeminiService.Response :=
  {| GeminiService.candidates :=
       [ {| GeminiService.content :=
              {| GeminiService.parts :=
                   [ {| GeminiService.text := Some "sorry"%string;
                        GeminiService.inlineData := None |} ] |} |} ] |}.

(** The calibration with its two points exchanged. *)
Definition exchanged (c : CalibrationData) : CalibrationData :=
  {| p1 := p2 c; p2 := p1 c; realWorldValueCm := realWorldValueCm c |}.

(** The finite value of a number, 0 for the others. *)
Definition re (n : number) : R :=
  match n with
  | Fin r => r
  | _ => 0%R
  end.

Definition crossR (e : Point * Point) : R :=
  (re (x (fst e)) * re (y (snd e)) - re (x (snd e)) * re (y (fst e)))%R.

Definition sumR (l : list R) : R := fold_right Rplus 0%R l.

(** The signed shoelace sum of a mask of finite points, as a real. *)
Definition signedAreaR (mask : list Point) : R :=
  sumR (map crossR (edges (closed mask))).

(** The least and the greatest of a list of reals, 0 for the empty list. *)
Definition lowest (rs : list R) : R :=
  match rs with
  | [] => 0%R
  | r :: t => fold_left Rmin t r
  end.

Definition highest (rs : list R) : R :=
  match rs with
  | [] => 0%R
  | r :: t => fold_left Rmax t r
  end.

Definition spanX (mask : list Point) : R :=
  (highest (map (fun p => re (x p)) mask) - lowest (map (fun p => re (x p)) mask))%R.

Definition spanY (mask : list Point) : R :=
  (highest (map (fun p => re (y p)) mask) - lowest (map (fun p => re (y p)) mask))%R.

(** The state with another wall mask, as the mask callback sets it. *)
Definition withMask (mask : list Point) (s : AppState) : AppState :=
  onWorkspaceCall (Workspace.onMaskUpdate mask) s.

(** The state with another calibration, as the calibration callback sets
    it. *)
Definition withCalibration (c : CalibrationData) (s : AppState) : AppState :=
  onWorkspaceCall (Workspace.onCalibrationUpdate c) s.

(** The area in square metres of a mask of finite points under the finite
    scale factor [k]. *)
Definition areaM2R (mask : list Point) (k : R) : R :=
  (Rabs (signedAreaR mask) / 2 * (k * k) / 10000)%R.

(** ** The request of the rendering ([App.tsx] and [geminiService.ts]) *)

(** [maskPrompt] of [handleRender]. *)
Definition maskPrompt (s : AppState) : string :=
  if (0 <? length (wallMask s))%nat
  then "The wallpaper must be applied strictly within the polygon guide provided by the user (rough guide). This might be a partial wall, for example stopping at a duo rail or skirting."%string
  else "Wallpaper the primary wall surface accurately."%string.

Module GeminiRequest.

(** [s.split(sep)] for a separator of one character. *)
Fixpoint split (sep : Ascii.ascii) (s : string) : list string :=
  match s with
  | EmptyString => [EmptyString]
  | String c rest =>
      if Ascii.eqb c sep then EmptyString :: split sep rest
      else
        match split sep rest with
        | first :: others => String c first :: others
        | [] => [String c EmptyString]
        end
  end.

(** [dataUrl.split(',')[1]]; [None] is [undefined]. *)
Definition payload (dataUrl : string) : option string :=
  nth_error (split ","%char dataUrl) 1.

(** An image part of the request. *)
Record ImagePart : Type := {
  data : option string;
  mimeType : string
}.

(** The two image parts that [renderWallpaper] sends after the prompt. *)
Definition imageParts (roomBase64 swatchBase64 : string) : list ImagePart :=
  [ {| data := payload roomBase64; mimeType := "image/png" |};
    {| data := payload swatchBase64; mimeType := "image/png" |} ].

(** Whether the character occurs in the string. *)
Fixpoint occurs (c : Ascii.ascii) (s : string) : bool :=
  match s with
  | EmptyString => false
  | String d rest => Ascii.eqb d c || occurs c rest
  end.

End GeminiRequest.

(** ** The drawing of the workspace ([components/Workspace.tsx], [render]) *)

Module Canvas.

(** The calls and assignments on the drawing context, in their order. *)
Inductive command : Type :=
| clearRect (cx cy w h : number)
| drawImage (dx dy dw dh : number)
| strokeStyle (style : string)
| fillStyle (style : string)
| lineWidth (w : number)
| setLineDash (segments : list number)
| beginPath
| closePath
| moveTo (cx cy : number)
| lineTo (cx cy : number)
| arc (cx cy radius startAngle endAngle : number)
| stroke
| fill.

(** The loaded image, by its dimensions. *)
Record Image : Type := { imageWidth : number; imageHeight : number }.

Definition fullTurn : number := Fin PI * Fin 2.

(** The block that draws the calibration line and its endpoints. *)
Definition drawCalibration (w h : number) (cal : CalibrationData)
  : list command :=
  match p1 cal with
  | None => []
  | Some a =>
      let b := match p2 cal with Some b => b | None => a end in
      [ strokeStyle "#967b4f"; lineWidth (Fin 2); setLineDash [Fin 5; Fin 5];
        beginPath;
        moveTo (x a * w) (y a * h);
        lineTo (x b * w) (y b * h);
        stroke; setLineDash [];
        fillStyle "#967b4f";
        beginPath; arc (x a * w) (y a * h) (Fin 4) (Fin 0) fullTurn; fill ]
      ++ match p2 cal with
         | Some _ => [ beginPath; arc (x b * w) (y b * h) (Fin 4) (Fin 0) fullTurn;
                       fill ]
         | None => []
         end
  end.

(** The dot of one point of the mask. *)
Definition dot (w h : number) (p : Point) : list command :=
  [ beginPath; arc (x p * w) (y p * h) (Fin 3) (Fin 0) fullTurn; fill ].

(** The block that draws the polygon of the mask and its points. *)
Definition drawMask (w h : number) (mask : list Point) : list command :=
  match mask with
  | [] => []
  | first :: others =>
      [ fillStyle "rgba(26, 26, 26, 0.2)"; strokeStyle "#1a1a1a";
        lineWidth (Fin 1); beginPath;
        moveTo (x first * w) (y first * h) ]
      ++ map (fun p => lineTo (x p * w) (y p * h)) others
      ++ (if (2 <? length mask)%nat then [closePath] else [])
      ++ [ fill; stroke; fillStyle "#1a1a1a" ]
      ++ flat_map (dot w h) mask
  end.

(** [maxWidth]: the width of the container, or 800 when there is no
    container or its width is falsy. *)
Definition maxWidth (clientWidth : option number) : number :=
  match clientWidth with
  | Some cw => if Num.truthy cw then cw else Fin 800
  | None => Fin 800
  end.

(** What [canvas.width] and [canvas.height] hold after their assignment;
    [unsignedLong] is the conversion the browser applies to a number assigned
    to them. *)
Definition canvasWidth (unsignedLong : number -> number) (img : Image)
    (clientWidth : option number) : number :=
  let scale := maxWidth clientWidth / imageWidth img in
  unsignedLong (imageWidth img * scale).

Definition canvasHeight (unsignedLong : number -> number) (img : Image)
    (clientWidth : option number) : number :=
  let scale := maxWidth clientWidth / imageWidth img in
  unsignedLong (imageHeight img * scale).

(** [render].  [canvas] and [context] tell whether [canvasRef.current] and
    its 2d context exist, and [clientWidth] is that of the container when
    there is one. *)
Definition render (unsignedLong : number -> number) (canvas context : bool)
    (imgObj : option Image) (clientWidth : option number)
    (cal : CalibrationData) (mask : list Point) : list command :=
  match canvas, imgObj, context with
  | true, Some img, true =>
      let w := canvasWidth unsignedLong img clientWidth in
      let h := canvasHeight unsignedLong img clientWidth in
      [ clearRect (Fin 0) (Fin 0) w h; drawImage (Fin 0) (Fin 0) w h ]
      ++ drawCalibration w h cal
      ++ drawMask w h mask
  | _, _, _ => []
  end.

End Canvas.

(** ** The estimator in binary64 arithmetic

    A JavaScript number is an IEEE 754 binary64 value.  [float] is that
    format with the operations of the machine (rounding to nearest, ties to
    even).  This part reads [pixelsPerCm] and [estimateProject] once more,
    with these operations in place of exact ones, for the statements that
    depend on rounding. *)

Module Double.

Local Open Scope float_scope.

(** The number a double stands for, in the exact model. *)
Definition signed (s : bool) (r : R) : R := if s then (- r)%R else r.

Definition valueSF (f : spec_float) : number :=
  match f with
  | S754_zero _ => Fin 0
  | S754_infinity s => if s then NInf else PInf
  | S754_nan => NaN
  | S754_finite s m e => Fin (signed s (IZR (Z.pos m) * powerRZ 2 e))
  end.

Definition value (a : float) : number := valueSF (Prim2SF a).

(** Truthiness of a number: [0], [-0] and [NaN] are falsy. *)
Definition truthy (a : float) : bool := negb (a =? 0) && negb (is_nan a).

(** The integer [z] as a double, for [z] from 0 to [2^63 - 1]; exact below
    [2^53]. *)
Definition ofZ (z : Z) : float := of_uint63 (Uint63Axioms.of_Z z).

(** [Math.ceil]: a double with a non-negative exponent is an integer; below,
    the mantissa is cut at the binary point. *)
Definition ceil (a : float) : float :=
  match Prim2SF a with
  | S754_finite s m e =>
      if (0 <=? e)%Z then a
      else
        let unit := (2 ^ (- e))%Z in
        let q := (Z.pos m / unit)%Z in
        if s then (if (q =? 0)%Z then neg_zero else - ofZ q)
        else if (Z.pos m mod unit =? 0)%Z then ofZ q else ofZ (q + 1)
  | _ => a
  end.

Definition isNegZero (a : float) : bool :=
  match Prim2SF a with
  | S754_zero true => true
  | _ => false
  end.

Definition isPosZero (a : float) : bool :=
  match Prim2SF a with
  | S754_zero false => true
  | _ => false
  end.

(** One step of [Math.min] and of [Math.max]: [NaN] wins, and [-0] is below
    [+0]. *)
Definition min2 (lowest n : float) : float :=
  if is_nan lowest || is_nan n then nan
  else if (n <? lowest) || (isNegZero n && isPosZero lowest) then n
  else lowest.

Definition max2 (highest n : float) : float :=
  if is_nan highest || is_nan n then nan
  else if (highest <? n) || (isPosZero n && isNegZero highest) then n
  else highest.

(** [Math.min(...xs)] and [Math.max(...xs)] *)
Definition min (xs : list float) : float := fold_left min2 xs infinity.
Definition max (xs : list float) : float := fold_left max2 xs neg_infinity.

(** What [n.toFixed(d)] returns: decimal digits below [1e21], the exponent
    notation of the number from there on, which is not rendered here. *)
Inductive fixedString : Type :=
| Text (s : string)
| Exponential (a : float).

Definition zeros (n : nat) : string := string_of_list_ascii (repeat "0"%char n).

(** The decimal digits of the integer [n], the last [d] of them after the
    point. *)
Definition decimal (n : Z) (d : nat) : string :=
  let m := DecimalString.NilZero.string_of_uint (N.to_uint (Z.to_N n)) in
  let k := String.length m in
  let m := if (k <=? d)%nat then (zeros (d + 1 - k) ++ m)%string else m in
  let k := String.length m in
  if (d =? 0)%nat then m
  else (substring 0 (k - d) m ++ "." ++ substring (k - d) d m)%string.

(** The integer nearest to [m * 2^e * 10^d], the larger one on a tie. *)
Definition scaled (m : positive) (e : Z) (d : nat) : Z :=
  let t := (Z.pos m * 10 ^ Z.of_nat d)%Z in
  if (0 <=? e)%Z then (t * 2 ^ e)%Z
  else ((2 * t + 2 ^ (- e)) / 2 ^ (- e + 1))%Z.

(** [a.toFixed(d)], for [d] up to 100. *)
Definition toFixed (a : float) (d : nat) : fixedString :=
  match Prim2SF a with
  | S754_nan => Text "NaN"
  | S754_infinity s => Text (if s then "-Infinity" else "Infinity")
  | S754_zero _ => Text (decimal 0 d)
  | S754_finite s m e =>
      if abs a <? 1e21 then
        Text ((if s then "-" else EmptyString) ++ decimal (scaled m e d) d)
      else Exponential a
  end.

(** The data model of [types.ts] with doubles. *)
Record Point : Type := { x : float; y : float }.

Record CalibrationData : Type := {
  p1 : option Point;
  p2 : option Point;
  realWorldValueCm : float
}.

Record PanoramaSpecs : Type := {
  rollWidthCm : float;
  totalRolls : float;
  designHeightCm : float
}.

Record IndividualRollSpecs : Type := {
  widthCm : float;
  lengthM : float
}.

Record AppState : Type := {
  roomImage : option string;
  swatchImage : option string;
  swatchType : SwatchType;
  panoramaSpecs : PanoramaSpecs;
  individualRollSpecs : IndividualRollSpecs;
  calibration : CalibrationData;
  wallMask : list Point;
  isRendering : bool;
  renderedResult : option string;
  errorMessage : option string
}.

Record Estimate : Type := {
  area : fixedString;
  width : fixedString;
  height : fixedString;
  rolls : float
}.

(** [pixelsPerCm]; [None] is [null]. *)
Definition pixelsPerCm (c : CalibrationData) : option float :=
  match p1 c, p2 c with
  | Some a, Some b =>
      if truthy (realWorldValueCm c) then
        let dx := x a - x b in
        let dy := y a - y b in
        let pixelDist := sqrt (dx * dx + dy * dy) in
        Some (pixelDist / realWorldValueCm c)
      else None
  | _, _ => None
  end.

(** [!pixelsPerCm] *)
Definition falsy (o : option float) : bool :=
  match o with
  | None => true
  | Some n => negb (truthy n)
  end.

(** One turn of the loop of [estimateProject] over the wall mask. *)
Definition shoelaceStep (mask : list Point) (acc : outcome float) (i : nat)
  : outcome float :=
  areaNormalized <- acc ;;
  let j := ((i + 1) mod length mask)%nat in
  mi <- deref (nth_error mask i) ;;
  mj <- deref (nth_error mask j) ;;
  let areaNormalized := areaNormalized + x mi * y mj in
  Return (areaNormalized - x mj * y mi).

(** [areaNormalized] when the loop ends. *)
Definition signedSum (mask : list Point) : outcome float :=
  fold_left (shoelaceStep mask) (seq 0 (length mask)) (Return 0).

(** [areaNormalized] after the halving of its absolute value. *)
Definition areaNormalized (mask : list Point) : outcome float :=
  signed <- signedSum mask ;;
  Return (abs signed / 2).

Definition distCalNormalized (a b : Point) : float :=
  let dxCal := abs (x a - x b) in
  let dyCal := abs (y a - y b) in
  sqrt (dxCal * dxCal + dyCal * dyCal).

Definition cmPerNormalizedUnit (c : CalibrationData) : outcome float :=
  a <- deref (p1 c) ;;
  b <- deref (p2 c) ;;
  Return (realWorldValueCm c / distCalNormalized a b).

Definition extentX (mask : list Point) : float :=
  let minX := min (map x mask) in
  let maxX := max (map x mask) in
  maxX - minX.

Definition extentY (mask : list Point) : float :=
  let minY := min (map y mask) in
  let maxY := max (map y mask) in
  maxY - minY.

Definition rollAreaM2 (spec : IndividualRollSpecs) : float :=
  (widthCm spec / 100) * lengthM spec.

Definition requiredRolls (s : AppState) (wallWidthCm areaM2 : float) : float :=
  match swatchType s with
  | PANORAMA => ceil (wallWidthCm / rollWidthCm (panoramaSpecs s))
  | INDIVIDUAL => ceil ((areaM2 * 1.1) / rollAreaM2 (individualRollSpecs s))
  end.

(** [estimateProject]: [Return None] is the [null] result. *)
Definition estimateProject (s : AppState) : outcome (option Estimate) :=
  if falsy (pixelsPerCm (calibration s)) || (length (wallMask s) <? 3)%nat
  then Return None
  else
    areaNormalized <- areaNormalized (wallMask s) ;;
    cmPerNormalizedUnit <- cmPerNormalizedUnit (calibration s) ;;
    let areaCm2 := areaNormalized * (cmPerNormalizedUnit * cmPerNormalizedUnit) in
    let areaM2 := areaCm2 / 10000 in
    let wallWidthCm := extentX (wallMask s) * cmPerNormalizedUnit in
    let heightCm := extentY (wallMask s) * cmPerNormalizedUnit in
    Return (Some {| area := toFixed areaM2 2;
                    width := toFixed wallWidthCm 1;
                    height := toFixed heightCm 1;
                    rolls := requiredRolls s wallWidthCm areaM2 |}).

(** The cyclic rotation that starts the sequence at its vertex of index [k]. *)
Definition rotate (k : nat) (l : list Point) : list Point :=
  skipn k l ++ firstn k l.

(** The state with another wall mask, as the mask callback sets it. *)
Definition withMask (mask : list Point) (s : AppState) : AppState :=
  {| roomImage := roomImage s;
     swatchImage := swatchImage s;
     swatchType := swatchType s;
     panoramaSpecs := panoramaSpecs s;
     individualRollSpecs := individualRollSpecs s;
     calibration := calibration s;
     wallMask := mask;
     isRendering := isRendering s;
     renderedResult := renderedResult s;
     errorMessage := errorMessage s |}.

(** [Number.isFinite] *)
Definition isFinite (a : float) : bool :=
  match Prim2SF a with
  | S754_zero _ | S754_finite _ _ _ => true
  | S754_infinity _ | S754_nan => false
  end.

Definition point (a b : float) : Point := {| x := a; y := b |}.

(** A wall with corners on the grid of eighths. *)
Definition gridMask : list Point :=
  [point 0.25 0.25; point 0.75 0.25; point 0.75 0.5; point 0.5 0.875].

(** A triangular wall with corners on the grid of twentieths. *)
Definition roundedMask : list Point :=
  [point 0.25 0.1; point 0.1 0.45; point 0.9 0.35].

(** Another one, and three points on the line [y = 0.025]. *)
Definition tallMask : list Point :=
  [point 0.7 0.45; point 0.8 0.8; point 0.1 1].

Definition flatMask : list Point :=
  [point 0.1 0.025; point 0.2 0.025; point 0.9 0.025].

(** A calibration segment of normalized length 0.1 standing for 200 cm, the
    initial roll specifications (an individual roll of 53 cm by 10 m) and the
    wall [mask]. *)
Definition wall (mask : list Point) : AppState :=
  {| roomImage := None;
     swatchImage := None;
     swatchType := INDIVIDUAL;
     panoramaSpecs := {| rollWidthCm := 70; totalRolls := 7;
                         designHeightCm := 300 |};
     individualRollSpecs := {| widthCm := 53; lengthM := 10 |};
     calibration := {| p1 := Some (point 0 0);
                       p2 := Some (point 0.1 0);
                       realWorldValueCm := 200 |};
     wallMask := mask;
     isRendering := false;
     renderedResult := None;
     errorMessage := None |}.

(** The same as a panorama mural, with rolls of 70 cm. *)
Definition mural (mask : list Point) : AppState :=
  {| roomImage := None;
     swatchImage := None;
     swatchType := PANORAMA;
     panoramaSpecs := {| rollWidthCm := 70; totalRolls := 7;
                         designHeightCm := 300 |};
     individualRollSpecs := {| widthCm := 53; lengthM := 10 |};
     calibration := {| p1 := Some (point 0 0);
                       p2 := Some (point 0.1 0);
                       realWorldValueCm := 200 |};
     wallMask := mask;
     isRendering := false;
     renderedResult := None;
     errorMessage := None |}.

End Double.

(** ** Loops that run without rounding *)

(** A point of doubles in the exact model. *)
Definition exactPoint (p : Double.Point) : Point :=
  {| x := Double.value (Double.x p); y := Double.value (Double.y p) |}.

(** One turn of the loop without rounding: the two products, the sum and the
    difference stand for the results of the exact operations. *)
Definition exactTurn (acc : float) (mi mj : Double.Point) : Prop :=
  let a := (Double.x mi * Double.y mj)%float in
  let b := (Double.x mj * Double.y mi)%float in
  Double.value a = Double.value (Double.x mi) * Double.value (Double.y mj) /\
  Double.value (acc + a)%float = Double.value acc + Double.value a /\
  Double.value b = Double.value (Double.x mj) * Double.value (Double.y mi) /\
  Double.value (acc + a - b)%float =
    Double.value (acc + a)%float - Double.value b.

(** The turns of the loop for [indices], from the accumulator [acc] on. *)
Fixpoint exactRun (mask : list Double.Point) (indices : list nat) (acc : float)
  : Prop :=
  match indices with
  | [] => True
  | i :: rest =>
      match nth_error mask i, nth_error mask ((i + 1) mod length mask) with
      | Some mi, Some mj =>
          exactTurn acc mi mj /\
          exactRun mask rest
            (acc + Double.x mi * Double.y mj - Double.x mj * Double.y mi)%float
      | _, _ => True
      end
  end.

(** No operation of the loop of [estimateProject] over [mask] rounds. *)
Definition exactLoop (mask : list Double.Point) : Prop :=
  exactRun mask (seq 0 (length mask)) 0%float.

(** *** A test for the absence of rounding *)

(** A finite double as a dyadic number: the pair [(m, e)] stands for
    [m * 2^e]. *)
Definition dyadic (a : float) : option (Z * Z) :=
  match Prim2SF a with
  | S754_zero _ => Some (0, 0)%Z
  | S754_finite s m e => Some (if s then Z.neg m else Z.pos m, e)
  | S754_infinity _ | S754_nan => None
  end.

Definition dyadicR (p : Z * Z) : R := (IZR (fst p) * powerRZ 2 (snd p))%R.

Definition sameDyadic (p q : Z * Z) : bool :=
  let e := Z.min (snd p) (snd q) in
  (fst p * 2 ^ (snd p - e) =? fst q * 2 ^ (snd q - e))%Z.

Definition mulDyadic (p q : Z * Z) : Z * Z :=
  (fst p * fst q, snd p + snd q)%Z.

Definition addDyadic (p q : Z * Z) : Z * Z :=
  let e := Z.min (snd p) (snd q) in
  (fst p * 2 ^ (snd p - e) + fst q * 2 ^ (snd q - e), e)%Z.

Definition subDyadic (p q : Z * Z) : Z * Z :=
  let e := Z.min (snd p) (snd q) in
  (fst p * 2 ^ (snd p - e) - fst q * 2 ^ (snd q - e), e)%Z.

(** The double [r], computed from [a] and [b], is the exact result of the
    operation [op] on dyadic numbers. *)
Definition exactResult (op : Z * Z -> Z * Z -> Z * Z) (r a b : float) : bool :=
  match dyadic r, dyadic a, dyadic b with
  | Some dr, Some da, Some db => sameDyadic dr (op da db)
  | _, _, _ => false
  end.

Definition exactTurnb (acc : float) (mi mj : Double.Point) : bool :=
  let a := (Double.x mi * Double.y mj)%float in
  let b := (Double.x mj * Double.y mi)%float in
  exactResult mulDyadic a (Double.x mi) (Double.y mj) &&
  exactResult addDyadic (acc + a)%float acc a &&
  exactResult mulDyadic b (Double.x mj) (Double.y mi) &&
  exactResult subDyadic (acc + a - b)%float (acc + a)%float b.

Fixpoint exactRunb (mask : list Double.Point) (indices : list nat) (acc : float)
  : bool :=
  match indices with
  | [] => true
  | i :: rest =>
      match nth_error mask i, nth_error mask ((i + 1) mod length mask) with
      | Some mi, Some mj =>
          exactTurnb acc mi mj &&
          exactRunb mask rest
            (acc + Double.x mi * Double.y mj - Double.x mj * Double.y mi)%float
      | _, _ => true
      end
  end.

Definition exactLoopb (mask : list Double.Point) : bool :=
  exactRunb mask (seq 0 (length mask)) 0%float.

(** *** The order of [Math.min] and [Math.max] *)

(** The rank of a double: its place in the order in which [Math.min] and
    [Math.max] compare, where [-0] comes before [+0]. *)
Definition magnitude (f : spec_float) : Z :=
  match f with
  | S754_zero _ => 0
  | S754_finite _ m e => (e - emin) * 2 ^ prec + Z.pos m
  | S754_infinity _ | S754_nan => (emax - emin) * 2 ^ prec
  end.

(** The sign bit, taken as clear for [NaN]. *)
Definition negative (f : spec_float) : bool :=
  match f with
  | S754_zero s | S754_infinity s | S754_finite s _ _ => s
  | S754_nan => false
  end.

Definition rankSF (f : spec_float) : Z :=
  if negative f then (- (magnitude f + 1))%Z else (magnitude f + 1)%Z.

Definition rank (a : float) : Z := rankSF (Prim2SF a).

Definition isNegZeroSF (f : spec_float) : bool :=
  match f with
  | S754_zero true => true
  | _ => false
  end.

Definition isPosZeroSF (f : spec_float) : bool :=
  match f with
  | S754_zero false => true
  | _ => false
  end.

(** The test of [Math.min] for taking [f] in place of [g]. *)
Definition belowSF (f g : spec_float) : bool :=
  SFltb f g || (isNegZeroSF f && isPosZeroSF g).

(** The parameters of the format as literals. *)
Ltac literals :=
  unfold SpecFloat.emin, emax, prec in *;
  change (2 ^ 53)%Z with 9007199254740992%Z in *.

(** ** Arithmetic of [number] *)

Module NumFacts.

Lemma add_comm (a b : number) : a + b = b + a.
Proof. destruct a, b; simpl; try reflexivity; f_equal; ring. Qed.

Lemma add_assoc (a b c : number) : a + (b + c) = (a + b) + c.
Proof. destruct a, b, c; simpl; try reflexivity; f_equal; ring. Qed.

Lemma add_0_l (a : number) : Fin 0 + a = a.
Proof. destruct a; simpl; try reflexivity; f_equal; ring. Qed.

Lemma add_0_r (a : number) : a + Fin 0 = a.
Proof. rewrite add_comm. apply add_0_l. Qed.

Lemma opp_add (a b : number) : Num.opp (a + b) = Num.opp a + Num.opp b.
Proof. destruct a, b; simpl; try reflexivity; f_equal; ring. Qed.

Lemma opp_involutive (a : number) : Num.opp (Num.opp a) = a.
Proof. destruct a; simpl; try reflexivity; f_equal; ring. Qed.

Lemma opp_0 : Num.opp (Fin 0) = Fin 0.
Proof. simpl. f_equal. ring. Qed.

Lemma sub_add (a b c : number) : (a + b) - c = a + (b - c).
Proof. unfold Num.sub. symmetry. apply add_assoc. Qed.

Lemma abs_sqr (a : number) : Num.abs a * Num.abs a = a * a.
Proof.
  destruct a; simpl; try reflexivity.
  f_equal. unfold Rabs. destruct (Rcase_abs r); ring.
Qed.

Lemma truthy_Fin (r : R) : Num.truthy (Fin r) = true <-> r <> 0%R.
Proof.
  simpl. destruct (Req_dec_T r 0); split; intro H; congruence.
Qed.

Lemma truthy_0 : Num.truthy (Fin 0) = false.
Proof. simpl. destruct (Req_dec_T 0 0); congruence. Qed.

Lemma by_sign_pos {A : Type} (r : R) (n z p : A) :
  (0 < r)%R -> Num.by_sign r n z p = p.
Proof.
  intro H. unfold Num.by_sign.
  destruct (total_order_T r 0) as [[Hlt | Heq] | Hgt]; try reflexivity; lra.
Qed.

Lemma by_sign_neg {A : Type} (r : R) (n z p : A) :
  (r < 0)%R -> Num.by_sign r n z p = n.
Proof.
  intro H. unfold Num.by_sign.
  destruct (total_order_T r 0) as [[Hlt | Heq] | Hgt]; try reflexivity; lra.
Qed.

Lemma by_sign_zero {A : Type} (n z p : A) : Num.by_sign 0 n z p = z.
Proof.
  unfold Num.by_sign.
  destruct (total_order_T 0 0) as [[Hlt | Heq] | Hgt]; try reflexivity; lra.
Qed.

Lemma div_Fin (r s : R) : s <> 0%R -> Fin r / Fin s = Fin (r / s).
Proof.
  intro H. simpl. destruct (Req_dec_T s 0); [contradiction | reflexivity].
Qed.

Lemma sqrt_Fin (r : R) : (0 <= r)%R -> Num.sqrt (Fin r) = Fin (R_sqrt.sqrt r).
Proof.
  intro H. simpl. destruct (Rlt_dec r 0); [lra | reflexivity].
Qed.

Lemma total_nil : total [] = Fin 0.
Proof. reflexivity. Qed.

Lemma total_cons (a : number) (l : list number) : total (a :: l) = a + total l.
Proof. reflexivity. Qed.

Lemma total_perm (l1 l2 : list number) :
  Permutation l1 l2 -> total l1 = total l2.
Proof.
  induction 1 as [| a l1 l2 _ IH | a b l | l1 l2 l3 _ IH1 _ IH2]; simpl.
  - reflexivity.
  - now rewrite IH.
  - rewrite !add_assoc. f_equal. apply add_comm.
  - now rewrite IH1.
Qed.

Lemma total_opp (l : list number) :
  total (map Num.opp l) = Num.opp (total l).
Proof.
  induction l as [|a l IH]; simpl.
  - symmetry. apply opp_0.
  - rewrite IH. symmetry. apply opp_add.
Qed.

End NumFacts.

(** ** The shoelace loop *)

Section Shoelace.

Lemma edges_app (l r : list Point) (a : Point) :
  edges (l ++ a :: r) = edges (l ++ [a]) ++ edges (a :: r).
Proof.
  induction l as [|b l IH]; [reflexivity|].
  destruct l as [|c l]; [reflexivity|].
  change (edges ((b :: c :: l) ++ a :: r))
    with ((b, c) :: edges ((c :: l) ++ a :: r)).
  rewrite IH. reflexivity.
Qed.

Lemma edges_rev (l : list Point) : edges (rev l) = map swap (rev (edges l)).
Proof.
  induction l as [|a l IH]; [reflexivity|].
  destruct l as [|b l]; [reflexivity|].
  change (rev (a :: b :: l)) with (rev (b :: l) ++ [a]).
  change (rev (b :: l)) with (rev l ++ [b]) at 1.
  rewrite <- app_assoc. change ([b] ++ [a]) with (b :: [a]).
  rewrite edges_app.
  change (rev l ++ [b]) with (rev (b :: l)).
  rewrite IH.
  change (edges (a :: b :: l)) with ((a, b) :: edges (b :: l)).
  simpl rev at 2. rewrite map_app. reflexivity.
Qed.

Lemma edges_by_index (l : list Point) :
  edges l =
  map (fun i => (nth i l origin, nth (S i) l origin)) (seq 0 (length l - 1)).
Proof.
  induction l as [|a l IH]; [reflexivity|].
  destruct l as [|b l]; [reflexivity|].
  change (edges (a :: b :: l)) with ((a, b) :: edges (b :: l)).
  rewrite IH.
  replace (length (a :: b :: l) - 1)%nat with (S (length (b :: l) - 1))
    by (simpl; lia).
  rewrite <- cons_seq, <- seq_shift. cbn [map]. rewrite map_map. reflexivity.
Qed.

Lemma closed_next (m : list Point) (i : nat) :
  (i < length m)%nat ->
  nth (S i) (closed m) origin = nth ((i + 1) mod length m) m origin.
Proof.
  intro Hi. unfold closed.
  destruct m as [|a m]; [simpl in Hi; lia|].
  destruct (Nat.eq_dec (S i) (length (a :: m))) as [E | E].
  - rewrite app_nth2 by lia.
    replace (i + 1)%nat with (length (a :: m)) by lia.
    rewrite Nat.Div0.mod_same, E, Nat.sub_diag. reflexivity.
  - rewrite app_nth1 by lia.
    rewrite Nat.mod_small by lia.
    f_equal. lia.
Qed.

Lemma closed_edges_by_index (m : list Point) :
  edges (closed m) =
  map (fun i => (nth i m origin, nth ((i + 1) mod length m) m origin))
      (seq 0 (length m)).
Proof.
  destruct m as [|a m]; [reflexivity|].
  rewrite edges_by_index.
  replace (length (closed (a :: m)) - 1)%nat with (length (a :: m))
    by (unfold closed; rewrite length_app; simpl; lia).
  apply map_ext_in. intros i Hi. apply in_seq in Hi.
  rewrite closed_next by lia.
  unfold closed. rewrite app_nth1 by lia. reflexivity.
Qed.

Lemma shoelaceStep_in_range (m : list Point) (acc : number) (i : nat) :
  (i < length m)%nat ->
  shoelaceStep m (Return acc) i =
  Return (acc + cross (nth i m origin, nth ((i + 1) mod length m) m origin)).
Proof.
  intro Hi. unfold shoelaceStep. cbn [bind].
  assert (Hj : ((i + 1) mod length m < length m)%nat)
    by (apply Nat.mod_upper_bound; lia).
  rewrite (nth_error_nth' m origin Hi), (nth_error_nth' m origin Hj).
  simpl. rewrite NumFacts.sub_add. reflexivity.
Qed.

Lemma shoelace_fold (m : list Point) (indices : list nat) (acc : number) :
  Forall (fun i => (i < length m)%nat) indices ->
  fold_left (shoelaceStep m) indices (Return acc) =
  Return (acc + total (map (fun i => cross (nth i m origin,
                                            nth ((i + 1) mod length m) m origin))
                           indices)).
Proof.
  intro H. revert acc.
  induction H as [|i indices Hi _ IH]; intro acc; cbn [fold_left map].
  - now rewrite NumFacts.total_nil, NumFacts.add_0_r.
  - rewrite shoelaceStep_in_range by assumption.
    rewrite IH, NumFacts.total_cons. f_equal. symmetry. apply NumFacts.add_assoc.
Qed.

(** The loop never reads outside the mask, and computes the signed sum. *)
Lemma areaNormalized_returns (m : list Point) :
  areaNormalized m = Return (Num.abs (signedArea m) / Fin 2).
Proof.
  unfold areaNormalized, signedArea.
  rewrite shoelace_fold.
  - cbn [bind]. rewrite NumFacts.add_0_l.
    rewrite closed_edges_by_index, map_map. reflexivity.
  - apply Forall_forall. intros i Hi. apply in_seq in Hi. lia.
Qed.

(** The unit square has the normalized area 1, in either orientation. *)
Example unit_square_area :
  areaNormalized [point 0 0; point 1 0; point 1 1; point 0 1] = Return (Fin 1) /\
  areaNormalized [point 0 1; point 1 1; point 1 0; point 0 0] = Return (Fin 1).
Proof.
  assert (S1 : signedArea [point 0 0; point 1 0; point 1 1; point 0 1] = Fin 2)
    by (unfold signedArea, total, cross; simpl; f_equal; lra).
  assert (S2 : signedArea [point 0 1; point 1 1; point 1 0; point 0 0] = Fin (-2))
    by (unfold signedArea, total, cross; simpl; f_equal; lra).
  rewrite !areaNormalized_returns, S1, S2. cbn [Num.abs].
  rewrite !NumFacts.div_Fin by lra.
  split; do 2 f_equal; unfold Rabs; destruct (Rcase_abs _); lra.
Qed.

Lemma cross_swap (e : Point * Point) : cross (swap e) = Num.opp (cross e).
Proof.
  unfold cross, swap, Num.sub. simpl.
  rewrite NumFacts.opp_add, NumFacts.opp_involutive.
  apply NumFacts.add_comm.
Qed.

Lemma closed_edges_app (l1 l2 : list Point) :
  Permutation (edges (closed (l1 ++ l2))) (edges (closed (l2 ++ l1))).
Proof.
  destruct l1 as [|a l1]; [rewrite app_nil_r; apply Permutation_refl|].
  destruct l2 as [|b l2]; [rewrite app_nil_r; apply Permutation_refl|].
  unfold closed. simpl firstn.
  rewrite <- !app_assoc.
  change ((b :: l2) ++ [a]) with (b :: l2 ++ [a]).
  change ((a :: l1) ++ [b]) with (a :: l1 ++ [b]).
  rewrite (edges_app (a :: l1) (l2 ++ [a]) b).
  rewrite (edges_app (b :: l2) (l1 ++ [b]) a).
  apply Permutation_app_comm.
Qed.

Lemma signedArea_app (l1 l2 : list Point) :
  signedArea (l1 ++ l2) = signedArea (l2 ++ l1).
Proof.
  unfold signedArea. apply NumFacts.total_perm, Permutation_map.
  apply closed_edges_app.
Qed.

Lemma signedArea_rotate (k : nat) (m : list Point) :
  signedArea (rotate k m) = signedArea m.
Proof.
  unfold rotate. rewrite signedArea_app, firstn_skipn. reflexivity.
Qed.

Lemma signedArea_rev (m : list Point) :
  signedArea (rev m) = Num.opp (signedArea m).
Proof.
  destruct m as [|a m]; [symmetry; apply NumFacts.opp_0|].
  change (rev (a :: m)) with (rev m ++ [a]).
  rewrite signedArea_app. unfold signedArea.
  assert (E : closed ([a] ++ rev m) = rev (closed (a :: m))).
  { unfold closed. simpl. rewrite rev_app_distr. reflexivity. }
  rewrite E, edges_rev, map_map.
  rewrite (map_ext _ (fun e => Num.opp (cross e)) cross_swap).
  rewrite <- map_map, NumFacts.total_opp. f_equal.
  apply NumFacts.total_perm, Permutation_map, Permutation_sym, Permutation_rev.
Qed.

End Shoelace.

(** ** The guard of the estimator *)

Section Guard.

Lemma distCalNormalized_pixelDist (a b : Point) :
  distCalNormalized a b =
  Num.sqrt ((x a - x b) * (x a - x b) + (y a - y b) * (y a - y b)).
Proof.
  unfold distCalNormalized. cbv zeta. now rewrite !NumFacts.abs_sqr.
Qed.

Lemma distCalNormalized_point (ax ay bx by' : R) :
  distCalNormalized (point ax ay) (point bx by') =
  Fin (euclideanDistance ax ay bx by').
Proof.
  rewrite distCalNormalized_pixelDist. unfold point, euclideanDistance. simpl.
  destruct (Rlt_dec _ 0) as [H | _].
  - exfalso.
    pose proof (Rle_0_sqr (ax + - bx)) as Hx.
    pose proof (Rle_0_sqr (ay + - by')) as Hy.
    unfold Rsqr in Hx, Hy. lra.
  - reflexivity.
Qed.

Lemma euclideanDistance_pos (ax ay bx by' : R) :
  (ax, ay) <> (bx, by') -> (0 < euclideanDistance ax ay bx by')%R.
Proof.
  intro H. unfold euclideanDistance. apply sqrt_lt_R0.
  pose proof (Rle_0_sqr (ax - bx)) as Hx.
  pose proof (Rle_0_sqr (ay - by')) as Hy.
  destruct (Req_dec ax bx) as [E1 | N1].
  - destruct (Req_dec ay by') as [E2 | N2]; [subst; contradiction|].
    assert (P : (0 < Rsqr (ay - by'))%R)
      by (apply Rsqr_pos_lt; intro; apply N2; lra).
    unfold Rsqr in *. lra.
  - assert (P : (0 < Rsqr (ax - bx))%R)
      by (apply Rsqr_pos_lt; intro; apply N1; lra).
    unfold Rsqr in *. lra.
Qed.

Lemma euclideanDistance_same (ax ay : R) : euclideanDistance ax ay ax ay = 0%R.
Proof.
  unfold euclideanDistance.
  replace ((ax - ax) * (ax - ax) + (ay - ay) * (ay - ay))%R with 0%R by ring.
  apply sqrt_0.
Qed.

(** A truthy quotient has a numerator that is neither zero nor [NaN]. *)
Lemma truthy_div (n v : number) :
  Num.truthy (n / v) = true -> n <> Fin 0 /\ n <> NaN.
Proof.
  destruct n as [r| | |], v as [s| | |]; simpl; intro H;
    try discriminate; try (split; discriminate);
    try (destruct (Req_dec_T 0 0); congruence).
  destruct (Req_dec_T s 0) as [Hs | Hs].
  - split; [|discriminate]. intro E. injection E as ->.
    rewrite NumFacts.by_sign_zero in H. discriminate.
  - split; [|discriminate]. intro E. injection E as ->.
    simpl in H. destruct (Req_dec_T (0 / s) 0) as [_ | N]; [discriminate|].
    apply N. unfold Rdiv. ring.
Qed.

(** What the guard [!pixelsPerCm] lets through. *)
Lemma guard_passes (c : CalibrationData) :
  falsy (pixelsPerCm c) = false <->
  exists a b,
    p1 c = Some a /\ p2 c = Some b /\
    Num.truthy (realWorldValueCm c) = true /\
    Num.truthy (distCalNormalized a b / realWorldValueCm c) = true.
Proof.
  unfold pixelsPerCm. split.
  - destruct (p1 c) as [a|]; [|discriminate].
    destruct (p2 c) as [b|]; [|discriminate].
    destruct (Num.truthy (realWorldValueCm c)) eqn:Hv; [|discriminate].
    cbv zeta. unfold falsy. intro H. apply negb_false_iff in H.
    exists a, b. rewrite distCalNormalized_pixelDist. auto.
  - intros (a & b & -> & -> & -> & H).
    rewrite distCalNormalized_pixelDist in H.
    cbv zeta. unfold falsy. now rewrite H.
Qed.

(** Past the guard the estimator returns the estimate for the scale factor
    of the calibration segment. *)
Lemma estimateProject_value (s : AppState) (a b : Point) :
  p1 (calibration s) = Some a ->
  p2 (calibration s) = Some b ->
  falsy (pixelsPerCm (calibration s)) = false ->
  (3 <= length (wallMask s))%nat ->
  estimateProject s =
  Return (Some (estimateWith s
                  (realWorldValueCm (calibration s) / distCalNormalized a b))).
Proof.
  intros Ha Hb Hg Hl. unfold estimateProject.
  rewrite Hg. destruct (Nat.ltb_spec (length (wallMask s)) 3) as [Hlt | _]; [lia|].
  cbn [orb]. rewrite areaNormalized_returns. cbn [bind].
  unfold cmPerNormalizedUnit. rewrite Ha, Hb. reflexivity.
Qed.

Lemma estimateProject_null (s : AppState) :
  estimateProject s = Return None <->
  falsy (pixelsPerCm (calibration s)) = true \/ (length (wallMask s) < 3)%nat.
Proof.
  split.
  - intro H.
    destruct (falsy (pixelsPerCm (calibration s))) eqn:Hg; [now left|].
    destruct (Nat.ltb_spec (length (wallMask s)) 3) as [Hlt | Hge]; [now right|].
    destruct (proj1 (guard_passes _) Hg) as (a & b & Ha & Hb & _).
    rewrite (estimateProject_value s a b Ha Hb Hg Hge) in H. discriminate.
  - intros [Hg | Hl]; unfold estimateProject.
    + now rewrite Hg.
    + apply Nat.ltb_lt in Hl. rewrite Hl, orb_true_r. reflexivity.
Qed.

(** The estimator never throws. *)
Lemma estimateProject_total (s : AppState) :
  exists r, estimateProject s = Return r.
Proof.
  destruct (falsy (pixelsPerCm (calibration s))) eqn:Hg.
  - exists None. apply estimateProject_null. now left.
  - destruct (Nat.ltb_spec (length (wallMask s)) 3) as [Hlt | Hge].
    + exists None. apply estimateProject_null. now right.
    + destruct (proj1 (guard_passes _) Hg) as (a & b & Ha & Hb & _).
      eexists. apply (estimateProject_value s a b Ha Hb Hg Hge).
Qed.

End Guard.

(** ** The sample states pass the guard *)

Section Samples.

Lemma sample_distance : euclideanDistance 0 0 (1 / 10) 0 = (1 / 10)%R.
Proof.
  unfold euclideanDistance. apply sqrt_lem_1; lra.
Qed.

Lemma unit_distance : euclideanDistance 0 0 1 0 = 1%R.
Proof.
  unfold euclideanDistance. apply sqrt_lem_1; lra.
Qed.

Lemma sample_guard : falsy (pixelsPerCm (calibration sampleState)) = false.
Proof.
  apply guard_passes. exists (point 0 0), (point (1 / 10) 0).
  repeat split.
  - apply NumFacts.truthy_Fin. lra.
  - rewrite distCalNormalized_point, sample_distance.
    simpl realWorldValueCm. rewrite NumFacts.div_Fin by lra.
    apply NumFacts.truthy_Fin. lra.
Qed.

Lemma negativeLength_guard :
  falsy (pixelsPerCm (calibration negativeLength)) = false.
Proof.
  apply guard_passes. exists (point 0 0), (point 1 0).
  repeat split.
  - apply NumFacts.truthy_Fin. lra.
  - rewrite distCalNormalized_point, unit_distance.
    simpl realWorldValueCm. rewrite NumFacts.div_Fin by lra.
    apply NumFacts.truthy_Fin. lra.
Qed.

Lemma sample_finite : finiteCalibration (calibration sampleState).
Proof.
  split; [|split].
  - intros a E. injection E as <-. split; eexists; reflexivity.
  - intros b E. injection E as <-. split; eexists; reflexivity.
  - eexists. reflexivity.
Qed.

Lemma sample_signedArea : signedArea (wallMask sampleState) = Fin (4 / 1000).
Proof.
  unfold signedArea, total, cross. simpl. f_equal. lra.
Qed.

End Samples.

(** ** Properties of the estimator *)

(** C9: whenever the guard of [estimateProject] passes ([pixelsPerCm] is
    neither null nor falsy and the wall mask has at least three points), the
    calibration points [p1] and [p2] are non-null and the normalized
    calibration distance is neither zero nor [NaN]; the non-null assertions
    and the division by that distance are therefore safe, and the estimator
    returns an estimate. *)
Theorem guard_makes_estimate_safe (s : AppState) :
  falsy (pixelsPerCm (calibration s)) = false ->
  (3 <= length (wallMask s))%nat ->
  exists a b,
    p1 (calibration s) = Some a /\
    p2 (calibration s) = Some b /\
    distCalNormalized a b <> Fin 0 /\
    distCalNormalized a b <> NaN /\
    cmPerNormalizedUnit (calibration s) =
      Return (realWorldValueCm (calibration s) / distCalNormalized a b) /\
    exists r, estimateProject s = Return (Some r).
Proof.
  intros Hg Hl.
  destruct (proj1 (guard_passes _) Hg) as (a & b & Ha & Hb & _ & Hd).
  destruct (truthy_div _ _ Hd) as [Hz Hn].
  exists a, b. repeat split; try assumption.
  - unfold cmPerNormalizedUnit. now rewrite Ha, Hb.
  - eexists. apply (estimateProject_value s a b Ha Hb Hg Hl).
Qed.

Lemma guard_makes_estimate_safe_sample :
  exists a b,
    p1 (calibration sampleState) = Some a /\
    p2 (calibration sampleState) = Some b /\
    distCalNormalized a b <> Fin 0 /\
    distCalNormalized a b <> NaN /\
    cmPerNormalizedUnit (calibration sampleState) =
      Return (realWorldValueCm (calibration sampleState) / distCalNormalized a b) /\
    exists r, estimateProject sampleState = Return (Some r).
Proof.
  apply (guard_makes_estimate_safe sampleState).
  - exact sample_guard.
  - simpl. lia.
Defined.

Lemma negativeLength_extentX : extentX (wallMask negativeLength) = Fin 1.
Proof.
  unfold extentX, Num.max, Num.min. simpl.
  unfold Rmax, Rmin. repeat destruct (Rle_dec _ _); f_equal; lra.
Qed.




(** The guard passes for distinct finite points and a nonzero length. *)
Lemma guard_distinct (c : CalibrationData) (ax ay bx by' v : R) :
  p1 c = Some (point ax ay) ->
  p2 c = Some (point bx by') ->
  realWorldValueCm c = Fin v ->
  (ax, ay) <> (bx, by') ->
  v <> 0%R ->
  falsy (pixelsPerCm c) = false.
Proof.
  intros Ha Hb Hv Hd Hz.
  pose proof (euclideanDistance_pos ax ay bx by' Hd) as P.
  apply guard_passes. exists (point ax ay), (point bx by').
  rewrite Hv, distCalNormalized_point, NumFacts.div_Fin by assumption.
  repeat split; try assumption; apply NumFacts.truthy_Fin; [assumption|].
  intro Z. apply Rmult_integral in Z. destruct Z as [Z | Z]; [lra|].
  now apply Rinv_neq_0_compat in Z.
Qed.



(** C3: for a panorama the roll count is the ceiling of the wall width over
    the roll width, the wall width being the X extent of the bounding box of
    the mask times the scale factor; two panorama states with the same
    calibration, roll width and X extent get the same roll count, whatever
    their polygons, heights and design heights. *)
Theorem panorama_rolls (s1 s2 : AppState) :
  swatchType s1 = PANORAMA ->
  swatchType s2 = PANORAMA ->
  calibration s1 = calibration s2 ->
  rollWidthCm (panoramaSpecs s1) = rollWidthCm (panoramaSpecs s2) ->
  extentX (wallMask s1) = extentX (wallMask s2) ->
  falsy (pixelsPerCm (calibration s1)) = false ->
  (3 <= length (wallMask s1))%nat ->
  (3 <= length (wallMask s2))%nat ->
  exists cm r1 r2,
    cmPerNormalizedUnit (calibration s1) = Return cm /\
    estimateProject s1 = Return (Some r1) /\
    estimateProject s2 = Return (Some r2) /\
    width r1 = toFixed (extentX (wallMask s1) * cm) 1 /\
    rolls r1 =
      Num.ceil ((extentX (wallMask s1) * cm) / rollWidthCm (panoramaSpecs s1)) /\
    rolls r2 = rolls r1.
Proof.
  intros T1 T2 Ec Ew Ex Hg L1 L2.
  destruct (proj1 (guard_passes _) Hg) as (a & b & Ha & Hb & _).
  exists (realWorldValueCm (calibration s1) / distCalNormalized a b).
  do 2 eexists.
  split; [unfold cmPerNormalizedUnit; now rewrite Ha, Hb|].
  split; [apply (estimateProject_value s1 a b Ha Hb Hg L1)|].
  split.
  - apply (estimateProject_value s2 a b); rewrite <- ?Ec; assumption.
  - unfold estimateWith, requiredRolls. cbn [width rolls].
    rewrite T1, T2, <- Ec, <- Ew, <- Ex. repeat split.
Qed.

Lemma panorama_rolls_sample :
  exists cm r1 r2,
    cmPerNormalizedUnit (calibration samplePanorama) = Return cm /\
    estimateProject samplePanorama = Return (Some r1) /\
    estimateProject tallPanorama = Return (Some r2) /\
    width r1 = toFixed (extentX (wallMask samplePanorama) * cm) 1 /\
    rolls r1 =
      Num.ceil ((extentX (wallMask samplePanorama) * cm) /
                rollWidthCm (panoramaSpecs samplePanorama)) /\
    rolls r2 = rolls r1.
Proof.
  apply (panorama_rolls samplePanorama tallPanorama).
  - reflexivity.
  - reflexivity.
  - reflexivity.
  - reflexivity.
  - reflexivity.
  - exact sample_guard.
  - simpl. lia.
  - simpl. lia.
Defined.

(** ** The individual branch *)

Lemma individual_rolls_nonzero (s : AppState) (w l a : R) (wallWidthCm : number) :
  swatchType s = INDIVIDUAL ->
  individualRollSpecs s = {| widthCm := Fin w; lengthM := Fin l |} ->
  w <> 0%R -> l <> 0%R ->
  rollAreaM2 (individualRollSpecs s) = Fin (w / 100 * l) /\
  requiredRolls s wallWidthCm (Fin a) =
    Fin (IZR (Zceil (a * (11 / 10) / (w / 100 * l)))).
Proof.
  intros Ht Hs Hw Hl.
  assert (E : rollAreaM2 (individualRollSpecs s) = Fin (w / 100 * l)).
  { rewrite Hs. unfold rollAreaM2. cbn [widthCm lengthM].
    rewrite NumFacts.div_Fin by lra. reflexivity. }
  split; [exact E|].
  unfold requiredRolls. rewrite Ht, E. cbn [Num.mul].
  rewrite NumFacts.div_Fin; [reflexivity|].
  intro Z. apply Rmult_integral in Z. destruct Z as [Z | Z]; [|contradiction].
  apply Rmult_integral in Z. destruct Z as [Z | Z]; [contradiction|].
  apply Rinv_neq_0_compat in Z; [assumption|lra].
Qed.

Section Individual.

Variable s : AppState.
Variables w l : R.
Hypothesis Htype : swatchType s = INDIVIDUAL.
Hypothesis Hspec : individualRollSpecs s = {| widthCm := Fin w; lengthM := Fin l |}.
Hypothesis Hw : (0 < w)%R.
Hypothesis Hl : (0 < l)%R.

Lemma rollAreaM2_finite : rollAreaM2 (individualRollSpecs s) = Fin (w / 100 * l).
Proof.
  rewrite Hspec. unfold rollAreaM2. cbn [widthCm lengthM].
  rewrite NumFacts.div_Fin by lra. reflexivity.
Qed.

Lemma rollAreaM2_pos : (0 < w / 100 * l)%R.
Proof.
  apply Rmult_lt_0_compat; [|assumption]. lra.
Qed.

Lemma individual_rolls_Fin (wallWidthCm : number) (a : R) :
  requiredRolls s wallWidthCm (Fin a) =
  Fin (IZR (Zceil (a * (11 / 10) / (w / 100 * l)))).
Proof.
  pose proof rollAreaM2_pos as P.
  unfold requiredRolls. rewrite Htype, rollAreaM2_finite.
  cbn [Num.mul]. rewrite NumFacts.div_Fin by lra. reflexivity.
Qed.

Lemma individual_rolls_PInf (wallWidthCm : number) :
  requiredRolls s wallWidthCm PInf = PInf.
Proof.
  pose proof rollAreaM2_pos as P.
  unfold requiredRolls. rewrite Htype, rollAreaM2_finite.
  cbn [Num.mul]. rewrite NumFacts.by_sign_pos by lra.
  cbn [Num.div]. rewrite NumFacts.by_sign_pos by lra. reflexivity.
Qed.

Lemma individual_rolls_NInf (wallWidthCm : number) :
  requiredRolls s wallWidthCm NInf = NInf.
Proof.
  pose proof rollAreaM2_pos as P.
  unfold requiredRolls. rewrite Htype, rollAreaM2_finite.
  cbn [Num.mul]. rewrite NumFacts.by_sign_pos by lra.
  cbn [Num.div]. rewrite NumFacts.by_sign_pos by lra. reflexivity.
Qed.

Lemma individual_rolls_monotone (width1 width2 a1 a2 : number) :
  Num.le a1 a2 ->
  Num.le (requiredRolls s width1 a1) (requiredRolls s width2 a2).
Proof.
  pose proof rollAreaM2_pos as P.
  destruct a1 as [r1| | |], a2 as [r2| | |]; cbn [Num.le]; intro H;
    try contradiction;
    rewrite ?individual_rolls_Fin, ?individual_rolls_PInf,
      ?individual_rolls_NInf; cbn [Num.le]; try exact I.
  apply IZR_le, Zceil_le.
  apply Rmult_le_compat_r; [left; now apply Rinv_0_lt_compat|]. lra.
Qed.

Lemma individual_rolls_cover (wallWidthCm a : number) :
  Num.le (Fin 0) a ->
  Num.le (Num.ceil (a / rollAreaM2 (individualRollSpecs s)))
         (requiredRolls s wallWidthCm a).
Proof.
  pose proof rollAreaM2_pos as P.
  rewrite rollAreaM2_finite.
  destruct a as [r| | |]; cbn [Num.le]; intro H; try contradiction.
  - rewrite individual_rolls_Fin, NumFacts.div_Fin by lra.
    cbn [Num.ceil Num.le]. apply IZR_le, Zceil_le.
    apply Rmult_le_compat_r; [left; now apply Rinv_0_lt_compat|]. lra.
  - rewrite individual_rolls_PInf. cbn [Num.div].
    rewrite NumFacts.by_sign_pos by lra. exact I.
Qed.

End Individual.

(** The estimate of an individual roll in closed form, for a finite nonzero
    calibration distance [d], a finite nonzero length [v], a finite normalized
    area [areaN] and a roll of finite nonzero width [w] and length [l]. *)
Lemma individual_estimate (s : AppState) (a b : Point) (d v areaN w l : R) :
  p1 (calibration s) = Some a ->
  p2 (calibration s) = Some b ->
  distCalNormalized a b = Fin d ->
  realWorldValueCm (calibration s) = Fin v ->
  d <> 0%R -> v <> 0%R ->
  (3 <= length (wallMask s))%nat ->
  areaNormalized (wallMask s) = Return (Fin areaN) ->
  swatchType s = INDIVIDUAL ->
  individualRollSpecs s = {| widthCm := Fin w; lengthM := Fin l |} ->
  w <> 0%R -> l <> 0%R ->
  cmPerNormalizedUnit (calibration s) = Return (Fin (v / d)) /\
  exists r,
    estimateProject s = Return (Some r) /\
    area r = toFixed (Fin (areaN * (v / d * (v / d)) / 10000)) 2 /\
    rolls r =
      Fin (IZR (Zceil (areaN * (v / d * (v / d)) / 10000 * (11 / 10) /
                       (w / 100 * l)))).
Proof.
  intros Ha Hb Hd Hv Nd Nv Hl Harea Ht Hs Hw Hlen.
  assert (Ecm : realWorldValueCm (calibration s) / distCalNormalized a b =
                Fin (v / d)).
  { rewrite Hv, Hd. now apply NumFacts.div_Fin. }
  assert (Hg : falsy (pixelsPerCm (calibration s)) = false).
  { apply guard_passes. exists a, b. rewrite Hv, Hd, NumFacts.div_Fin by assumption.
    repeat split; try assumption; apply NumFacts.truthy_Fin; [assumption|].
    intro Z. apply Rmult_integral in Z. destruct Z as [Z | Z]; [contradiction|].
    now apply Rinv_neq_0_compat in Z. }
  rewrite areaNormalized_returns in Harea. injection Harea as Harea.
  assert (Em2 : ((Num.abs (signedArea (wallMask s)) / Fin 2) *
                 (Fin (v / d) * Fin (v / d))) / Fin 10000 =
                Fin (areaN * (v / d * (v / d)) / 10000)).
  { rewrite Harea. cbn [Num.mul]. now rewrite NumFacts.div_Fin by lra. }
  split.
  - unfold cmPerNormalizedUnit. rewrite Ha, Hb. cbn [deref bind]. now rewrite Ecm.
  - eexists. split; [|split].
    + rewrite (estimateProject_value s a b Ha Hb Hg Hl), Ecm. reflexivity.
    + unfold estimateWith. cbn [area]. now rewrite Em2.
    + unfold estimateWith. cbn [rolls]. rewrite Em2.
      apply (individual_rolls_nonzero s w l _ _ Ht Hs Hw Hlen).
Qed.

Lemma sample_areaNormalized :
  areaNormalized (wallMask sampleState) = Return (Fin (2 / 1000)).
Proof.
  rewrite areaNormalized_returns, sample_signedArea.
  cbn [Num.abs]. rewrite NumFacts.div_Fin by lra.
  do 2 f_equal. rewrite Rabs_pos_eq; lra.
Qed.

Lemma sample_distCalNormalized :
  distCalNormalized (point 0 0) (point (1 / 10) 0) = Fin (1 / 10).
Proof.
  rewrite distCalNormalized_point. f_equal. exact sample_distance.
Qed.

Lemma negativeRoll_estimates :
  exists r1 r2,
    estimateProject negativeRoll = Return (Some r1) /\
    estimateProject negativeRollLarge = Return (Some r2) /\
    area r1 = toFixed (Fin (2 / 10)) 2 /\
    area r2 = toFixed (Fin 2000) 2 /\
    rolls r1 = Fin (IZR 0) /\
    rolls r2 = Fin (IZR (-415)).
Proof.
  destruct (individual_estimate negativeRoll (point 0 0) (point (1 / 10) 0)
              (1 / 10) 100 (2 / 1000) (-53) 10
              eq_refl eq_refl sample_distCalNormalized eq_refl)
    as (_ & r1 & E1 & A1 & R1);
    [lra | lra | simpl; lia | exact sample_areaNormalized
     | reflexivity | reflexivity | lra | lra |].
  destruct (individual_estimate negativeRollLarge (point 0 0) (point (1 / 10) 0)
              (1 / 10) 10000 (2 / 1000) (-53) 10
              eq_refl eq_refl sample_distCalNormalized eq_refl)
    as (_ & r2 & E2 & A2 & R2);
    [lra | lra | simpl; lia | exact sample_areaNormalized
     | reflexivity | reflexivity | lra | lra |].
  exists r1, r2. repeat split; try assumption.
  - rewrite A1. do 2 f_equal. lra.
  - rewrite A2. do 2 f_equal. lra.
  - rewrite R1. do 2 f_equal. apply Zceil_eq. lra.
  - rewrite R2. do 2 f_equal. apply Zceil_eq. lra.
Qed.




(** ** The shoelace area in binary64 arithmetic *)

Section Dyadic.

Local Open Scope R_scope.

Lemma two_neq_0 : 2 <> 0.
Proof. lra. Qed.

Lemma powerRZ_2_pos (e : Z) : 0 < powerRZ 2 e.
Proof. apply powerRZ_lt. lra. Qed.

Lemma IZR_pow2 (k : Z) : (0 <= k)%Z -> IZR (2 ^ k) = powerRZ 2 k.
Proof.
  intro H. destruct k as [|p|p]; [reflexivity| |lia].
  cbn [powerRZ]. rewrite pow_IZR, positive_nat_Z. reflexivity.
Qed.

Lemma scale_pow2 (m e k : Z) :
  (0 <= k)%Z -> IZR (m * 2 ^ k) * powerRZ 2 e = IZR m * powerRZ 2 (k + e).
Proof.
  intro H. rewrite mult_IZR, IZR_pow2 by assumption.
  rewrite powerRZ_add by apply two_neq_0. ring.
Qed.

End Dyadic.

(** A double has one canonical pair of mantissa and exponent. *)
Section Canonical.

Local Open Scope Z_scope.

Lemma digits2_size (p : positive) : digits2_pos p = Pos.size p.
Proof. induction p as [p IH | p IH |]; simpl; congruence. Qed.

Lemma digits2_bounds (p : positive) :
  2 ^ (Z.pos (digits2_pos p) - 1) <= Z.pos p < 2 ^ Z.pos (digits2_pos p).
Proof.
  rewrite digits2_size. split.
  - pose proof (Pos.size_le p) as H.
    apply Pos2Z.pos_le_pos in H. rewrite Pos2Z.inj_pow in H.
    replace (Z.pos (Pos.size p)) with (Z.succ (Z.pos (Pos.size p) - 1)) in H by lia.
    rewrite Z.pow_succ_r in H by lia. lia.
  - pose proof (Pos.size_gt p) as H.
    apply Pos2Z.pos_lt_pos in H. now rewrite Pos2Z.inj_pow in H.
Qed.

Lemma digits2_shift (m1 m2 : positive) (k : Z) :
  0 <= k -> Z.pos m1 = Z.pos m2 * 2 ^ k ->
  Z.pos (digits2_pos m1) = Z.pos (digits2_pos m2) + k.
Proof.
  intros Hk E.
  pose proof (digits2_bounds m1) as [L1 U1].
  pose proof (digits2_bounds m2) as [L2 U2].
  set (d1 := Z.pos (digits2_pos m1)) in *.
  set (d2 := Z.pos (digits2_pos m2)) in *.
  assert (P : 0 < 2 ^ k) by (apply Z.pow_pos_nonneg; lia).
  assert (L : 2 ^ (d2 - 1 + k) <= Z.pos m1).
  { rewrite Z.pow_add_r by (unfold d2; lia). rewrite E.
    apply Z.mul_le_mono_nonneg_r; lia. }
  assert (U : Z.pos m1 < 2 ^ (d2 + k)).
  { rewrite Z.pow_add_r by (unfold d2; lia). rewrite E.
    apply Z.mul_lt_mono_pos_r; lia. }
  destruct (Z.lt_trichotomy d1 (d2 + k)) as [Hlt | [Heq | Hgt]]; [|exact Heq|].
  - exfalso.
    assert (M : 2 ^ d1 <= 2 ^ (d2 - 1 + k)) by (apply Z.pow_le_mono_r; lia).
    lia.
  - exfalso.
    assert (M : 2 ^ (d2 + k) <= 2 ^ (d1 - 1))
      by (apply Z.pow_le_mono_r; unfold d2; lia).
    lia.
Qed.

Lemma canonical_ordered (m1 m2 : positive) (e1 e2 : Z) :
  e1 <= e2 ->
  canonical_mantissa prec emax m1 e1 = true ->
  canonical_mantissa prec emax m2 e2 = true ->
  (IZR (Z.pos m1) * powerRZ 2 e1 = IZR (Z.pos m2) * powerRZ 2 e2)%R ->
  m1 = m2 /\ e1 = e2.
Proof.
  intros Hle C1 C2 E.
  assert (Hk : 0 <= e2 - e1) by lia.
  replace e2 with ((e2 - e1) + e1) in E at 1 by lia.
  rewrite <- scale_pow2 in E by assumption.
  apply Rmult_eq_reg_r in E; [|apply Rgt_not_eq, powerRZ_2_pos].
  apply eq_IZR in E.
  pose proof (digits2_shift m1 m2 (e2 - e1) Hk E) as D.
  unfold canonical_mantissa, fexp in C1, C2.
  apply Z.eqb_eq in C1, C2.
  assert (Ee : e1 = e2) by lia.
  split; [|exact Ee].
  subst e2. rewrite Z.sub_diag, Z.pow_0_r, Z.mul_1_r in E. now injection E.
Qed.

Lemma canonical_unique (m1 m2 : positive) (e1 e2 : Z) :
  canonical_mantissa prec emax m1 e1 = true ->
  canonical_mantissa prec emax m2 e2 = true ->
  (IZR (Z.pos m1) * powerRZ 2 e1 = IZR (Z.pos m2) * powerRZ 2 e2)%R ->
  m1 = m2 /\ e1 = e2.
Proof.
  intros C1 C2 E. destruct (Z.le_ge_cases e1 e2) as [H | H].
  - now apply canonical_ordered.
  - destruct (canonical_ordered m2 m1 e2 e1 H C2 C1 (eq_sym E)) as [-> ->].
    now split.
Qed.

End Canonical.

Section Values.

Lemma finite_value_pos (m : positive) (e : Z) :
  (0 < IZR (Z.pos m) * powerRZ 2 e)%R.
Proof.
  apply Rmult_lt_0_compat; [apply IZR_lt; lia | apply powerRZ_2_pos].
Qed.

Lemma valid_canonical (s : bool) (m : positive) (e : Z) :
  valid_binary (S754_finite s m e) = true ->
  canonical_mantissa prec emax m e = true.
Proof.
  cbn [SpecFloat.valid_binary]. unfold bounded. intro H.
  now apply andb_true_iff in H.
Qed.

(** Two valid doubles that stand for the same number, or for opposite
    numbers, have the same absolute value. *)
Lemma SFabs_of_value (f g : spec_float) :
  valid_binary f = true ->
  valid_binary g = true ->
  Double.valueSF f = Double.valueSF g \/
  Double.valueSF f = Num.opp (Double.valueSF g) ->
  SFabs f = SFabs g.
Proof.
  intros Vf Vg H.
  destruct f as [s | s | | s m e], g as [s' | s' | | s' m' e'];
    cbn [Double.valueSF Num.opp SFabs] in *;
    try reflexivity;
    try (destruct H as [H | H]; try destruct s; try destruct s'; discriminate).
  - exfalso. pose proof (finite_value_pos m' e') as P.
    destruct H as [H | H]; injection H as H; destruct s';
      unfold Double.signed in H; lra.
  - exfalso. pose proof (finite_value_pos m e) as P.
    destruct H as [H | H]; injection H as H; destruct s;
      unfold Double.signed in H; lra.
  - pose proof (finite_value_pos m e) as P.
    pose proof (finite_value_pos m' e') as P'.
    assert (E : (IZR (Z.pos m) * powerRZ 2 e = IZR (Z.pos m') * powerRZ 2 e')%R).
    { destruct H as [H | H]; injection H as H;
        destruct s, s'; unfold Double.signed in H; lra. }
    destruct (canonical_unique m m' e e'
                (valid_canonical _ _ _ Vf) (valid_canonical _ _ _ Vg) E) as [-> ->].
    reflexivity.
Qed.

Lemma abs_of_value (a b : float) :
  Double.value a = Double.value b \/
  Double.value a = Num.opp (Double.value b) ->
  abs a = abs b.
Proof.
  intro H. apply Prim2SF_inj. rewrite !abs_spec.
  apply SFabs_of_value; [apply Prim2SF_valid | apply Prim2SF_valid | exact H].
Qed.

Lemma value_zero : Double.value 0%float = Fin 0.
Proof. reflexivity. Qed.

End Values.

(** Without rounding the loop on doubles computes the signed sum of the exact
    model. *)
Section Agreement.

Lemma shoelace_loop (m : list Point) :
  fold_left (shoelaceStep m) (seq 0 (length m)) (Return (Fin 0)) =
  Return (signedArea m).
Proof.
  rewrite shoelace_fold.
  - rewrite NumFacts.add_0_l. unfold signedArea.
    rewrite closed_edges_by_index, map_map. reflexivity.
  - apply Forall_forall. intros i Hi. apply in_seq in Hi. lia.
Qed.

Lemma exactRun_agrees (mask : list Double.Point) (indices : list nat)
    (acc : float) :
  Forall (fun i => (i < length mask)%nat) indices ->
  exactRun mask indices acc ->
  exists r,
    fold_left (Double.shoelaceStep mask) indices (Return acc) = Return r /\
    fold_left (shoelaceStep (map exactPoint mask)) indices
              (Return (Double.value acc)) =
    Return (Double.value r).
Proof.
  intro H. revert acc.
  induction H as [|i indices Hi _ IH]; intros acc E.
  - exists acc. split; reflexivity.
  - assert (Hj : ((i + 1) mod length mask < length mask)%nat)
      by (apply Nat.mod_upper_bound; lia).
    destruct (nth_error mask i) as [mi|] eqn:Ei;
      [|apply nth_error_None in Ei; lia].
    destruct (nth_error mask ((i + 1) mod length mask)) as [mj|] eqn:Ej;
      [|apply nth_error_None in Ej; lia].
    cbn [exactRun] in E. rewrite Ei, Ej in E.
    destruct E as [(Ea & Es & Eb & Ed) E].
    destruct (IH _ E) as (r & Hr & Hv).
    exists r. cbn [fold_left]. split.
    + unfold Double.shoelaceStep at 2. cbn [bind].
      rewrite Ei, Ej. cbn [deref bind]. exact Hr.
    + unfold shoelaceStep at 2. cbn [bind].
      rewrite length_map, !nth_error_map, Ei, Ej.
      cbn [option_map deref bind exactPoint x y].
      cbv zeta in Ea, Es, Eb, Ed.
      rewrite <- Ea, <- Es, <- Eb, <- Ed. exact Hv.
Qed.

Lemma exactLoop_signedArea (mask : list Double.Point) :
  exactLoop mask ->
  exists r,
    Double.signedSum mask = Return r /\
    Double.value r = signedArea (map exactPoint mask).
Proof.
  intro E. unfold exactLoop in E.
  destruct (exactRun_agrees mask (seq 0 (length mask)) 0%float) as (r & Hr & Hv).
  - apply Forall_forall. intros i Hi. apply in_seq in Hi. lia.
  - exact E.
  - exists r. split; [exact Hr|].
    rewrite value_zero in Hv.
    rewrite <- (length_map exactPoint) in Hv.
    rewrite shoelace_loop in Hv. now injection Hv.
Qed.

Lemma exactPoint_rotate (k : nat) (mask : list Double.Point) :
  map exactPoint (Double.rotate k mask) = rotate k (map exactPoint mask).
Proof.
  unfold Double.rotate, rotate. now rewrite map_app, skipn_map, firstn_map.
Qed.

(** Two loops without rounding whose exact sums are equal or opposite end in
    the same area. *)
Lemma exact_areas (mask mask' : list Double.Point) :
  exactLoop mask ->
  exactLoop mask' ->
  signedArea (map exactPoint mask') = signedArea (map exactPoint mask) \/
  signedArea (map exactPoint mask') = Num.opp (signedArea (map exactPoint mask)) ->
  exists areaN,
    Double.areaNormalized mask = Return areaN /\
    Double.areaNormalized mask' = Return areaN.
Proof.
  intros E E' H.
  destruct (exactLoop_signedArea mask E) as (r & Hr & Hv).
  destruct (exactLoop_signedArea mask' E') as (r' & Hr' & Hv').
  exists (abs r / 2)%float.
  unfold Double.areaNormalized. rewrite Hr, Hr'. cbn [bind].
  split; [reflexivity|].
  do 2 f_equal. apply abs_of_value. now rewrite Hv, Hv'.
Qed.

End Agreement.

(** The test for the absence of rounding is sound. *)
Section ExactTest.

Local Open Scope R_scope.

Lemma dyadic_value (a : float) (p : Z * Z) :
  dyadic a = Some p -> Double.value a = Fin (dyadicR p).
Proof.
  unfold dyadic, Double.value, dyadicR.
  destruct (Prim2SF a) as [s | s | | s m e]; intro H; try discriminate;
    injection H as <-; cbn [Double.valueSF fst snd]; f_equal.
  - simpl. ring.
  - destruct s; unfold Double.signed; [|reflexivity].
    change (Z.neg m) with (- Z.pos m)%Z. rewrite opp_IZR. ring.
Qed.

Lemma sameDyadic_sound (p q : Z * Z) :
  sameDyadic p q = true -> dyadicR p = dyadicR q.
Proof.
  destruct p as [mp ep], q as [mq eq]. unfold sameDyadic, dyadicR.
  cbn [fst snd]. intro H. apply Z.eqb_eq in H.
  set (e := Z.min ep eq) in *.
  replace ep with ((ep - e) + e)%Z at 1 by lia.
  replace eq with ((eq - e) + e)%Z at 1 by lia.
  rewrite <- !scale_pow2 by (unfold e; lia).
  now rewrite H.
Qed.

Lemma mulDyadic_sound (p q : Z * Z) :
  dyadicR (mulDyadic p q) = dyadicR p * dyadicR q.
Proof.
  unfold mulDyadic, dyadicR. cbn [fst snd].
  rewrite mult_IZR, powerRZ_add by apply two_neq_0. ring.
Qed.

Lemma addDyadic_sound (p q : Z * Z) :
  dyadicR (addDyadic p q) = dyadicR p + dyadicR q.
Proof.
  destruct p as [mp ep], q as [mq eq]. unfold addDyadic, dyadicR.
  cbn [fst snd]. set (e := Z.min ep eq).
  rewrite plus_IZR, Rmult_plus_distr_r.
  rewrite !scale_pow2 by (unfold e; lia).
  now replace (ep - e + e)%Z with ep by lia;
    replace (eq - e + e)%Z with eq by lia.
Qed.

Lemma subDyadic_sound (p q : Z * Z) :
  dyadicR (subDyadic p q) = dyadicR p - dyadicR q.
Proof.
  destruct p as [mp ep], q as [mq eq]. unfold subDyadic, dyadicR.
  cbn [fst snd]. set (e := Z.min ep eq).
  rewrite minus_IZR. unfold Rminus.
  rewrite Rmult_plus_distr_r, Ropp_mult_distr_l.
  rewrite <- opp_IZR, <- Z.mul_opp_l.
  rewrite !scale_pow2 by (unfold e; lia).
  replace (ep - e + e)%Z with ep by lia.
  replace (eq - e + e)%Z with eq by lia.
  rewrite opp_IZR. ring.
Qed.

Lemma exactResult_sound (op : Z * Z -> Z * Z -> Z * Z) (rop : R -> R -> R)
    (nop : number -> number -> number) (r a b : float) :
  (forall p q, dyadicR (op p q) = rop (dyadicR p) (dyadicR q)) ->
  (forall u v, nop (Fin u) (Fin v) = Fin (rop u v)) ->
  exactResult op r a b = true ->
  Double.value r = nop (Double.value a) (Double.value b).
Proof.
  intros Hop Hnop H. unfold exactResult in H.
  destruct (dyadic r) as [dr|] eqn:Er; [|discriminate].
  destruct (dyadic a) as [da|] eqn:Ea; [|discriminate].
  destruct (dyadic b) as [db|] eqn:Eb; [|discriminate].
  apply sameDyadic_sound in H. rewrite Hop in H.
  rewrite (dyadic_value a da Ea), (dyadic_value b db Eb), (dyadic_value r dr Er).
  now rewrite Hnop, H.
Qed.

Lemma exactTurnb_sound (acc : float) (mi mj : Double.Point) :
  exactTurnb acc mi mj = true -> exactTurn acc mi mj.
Proof.
  unfold exactTurnb, exactTurn. cbv zeta. intro H.
  apply andb_true_iff in H as [H Hd].
  apply andb_true_iff in H as [H Hb].
  apply andb_true_iff in H as [Ha Hs].
  repeat split.
  - apply (exactResult_sound mulDyadic Rmult); auto using mulDyadic_sound.
  - apply (exactResult_sound addDyadic Rplus); auto using addDyadic_sound.
  - apply (exactResult_sound mulDyadic Rmult); auto using mulDyadic_sound.
  - apply (exactResult_sound subDyadic Rminus); auto using subDyadic_sound.
Qed.

Lemma exactRunb_sound (mask : list Double.Point) (indices : list nat)
    (acc : float) :
  exactRunb mask indices acc = true -> exactRun mask indices acc.
Proof.
  revert acc. induction indices as [|i rest IH]; intros acc H; [exact I|].
  cbn [exactRunb exactRun] in *.
  destruct (nth_error mask i) as [mi|]; [|exact I].
  destruct (nth_error mask ((i + 1) mod length mask)) as [mj|]; [|exact I].
  apply andb_true_iff in H as [Ht Hr].
  split; [now apply exactTurnb_sound | now apply IH].
Qed.

Lemma exactLoopb_sound (mask : list Double.Point) :
  exactLoopb mask = true -> exactLoop mask.
Proof. apply exactRunb_sound. Qed.

End ExactTest.

(** The loop over the wall on the grid of eighths does not round, in any
    order of its corners; the loop over the triangle on the grid of
    twentieths rounds. *)
Example gridMask_exact :
  exactLoopb Double.gridMask = true /\
  exactLoopb (rev Double.gridMask) = true /\
  (forall k, exactLoopb (Double.rotate k Double.gridMask) = true) /\
  exactLoopb Double.roundedMask = false.
Proof.
  split; [vm_compute; reflexivity|].
  split; [vm_compute; reflexivity|].
  split; [|vm_compute; reflexivity].
  intro k. do 4 (destruct k as [|k]; [vm_compute; reflexivity|]).
  unfold Double.rotate.
  rewrite skipn_all2, firstn_all2 by (cbn [length Double.gridMask]; lia).
  vm_compute. reflexivity.
Qed.

(** C5, as the claim states it, fails: the loop runs on doubles, and the
    rounding of its products and partial sums depends on the order of the
    points.  For the triangle (0.25, 0.1), (0.1, 0.45), (0.9, 0.35) the
    reversed sequence and the sequence started at the second corner give
    another area than the sequence itself; with a calibration segment of
    length 0.1 for 200 cm and the roll of 53 cm by 10 m the estimate goes from
    11 rolls to 12. *)
Lemma rotation_changes_area :
  (3 <= length Double.roundedMask)%nat /\
  Double.areaNormalized Double.roundedMask = Return 0.1325%float /\
  Double.areaNormalized (rev Double.roundedMask) =
    Return 0.13250000000000003%float /\
  Double.areaNormalized (Double.rotate 1 Double.roundedMask) =
    Return 0.13250000000000003%float /\
  0.1325%float <> 0.13250000000000003%float /\
  Double.estimateProject (Double.wall Double.roundedMask) =
    Return (Some {| Double.area := Double.Text "53.00";
                    Double.width := Double.Text "1600.0";
                    Double.height := Double.Text "700.0";
                    Double.rolls := 11%float |}) /\
  Double.estimateProject (Double.wall (Double.rotate 1 Double.roundedMask)) =
    Return (Some {| Double.area := Double.Text "53.00";
                    Double.width := Double.Text "1600.0";
                    Double.height := Double.Text "700.0";
                    Double.rolls := 12%float |}) /\
  Double.estimateProject (Double.wall (rev Double.roundedMask)) =
    Return (Some {| Double.area := Double.Text "53.00";
                    Double.width := Double.Text "1600.0";
                    Double.height := Double.Text "700.0";
                    Double.rolls := 12%float |}).
Proof.
  split; [cbn [length Double.roundedMask]; lia|].
  split; [vm_compute; reflexivity|].
  split; [vm_compute; reflexivity|].
  split; [vm_compute; reflexivity|].
  split; [intro H; discriminate H|].
  split; [vm_compute; reflexivity|].
  split; vm_compute; reflexivity.
Qed.

(** C5, amended: for a sequence of at least three points whose loop runs
    without rounding, the shoelace area the estimator computes is returned,
    and it is the same for the reversed sequence and for every cyclic
    rotation of the sequence whose loop runs without rounding as well. *)
Theorem shoelace_area_without_rounding (mask : list Double.Point) :
  (3 <= length mask)%nat ->
  exactLoop mask ->
  exists areaN,
    Double.areaNormalized mask = Return areaN /\
    (exactLoop (rev mask) ->
     Double.areaNormalized (rev mask) = Return areaN) /\
    (forall k,
       exactLoop (Double.rotate k mask) ->
       Double.areaNormalized (Double.rotate k mask) = Return areaN).
Proof.
  intros _ E.
  destruct (exactLoop_signedArea mask E) as (r & Hr & _).
  exists (abs r / 2)%float.
  assert (A : Double.areaNormalized mask = Return (abs r / 2)%float)
    by (unfold Double.areaNormalized; now rewrite Hr).
  split; [exact A|]. split.
  - intro E'.
    destruct (exact_areas mask (rev mask) E E') as (areaN & H & H').
    + right. rewrite map_rev. apply signedArea_rev.
    + congruence.
  - intros k E'.
    destruct (exact_areas mask (Double.rotate k mask) E E') as (areaN & H & H').
    + left. rewrite exactPoint_rotate. apply signedArea_rotate.
    + congruence.
Qed.

Lemma shoelace_area_without_rounding_sample :
  exists areaN,
    Double.areaNormalized Double.gridMask = Return areaN /\
    Double.areaNormalized (rev Double.gridMask) = Return areaN /\
    forall k,
      Double.areaNormalized (Double.rotate k Double.gridMask) = Return areaN.
Proof.
  destruct (shoelace_area_without_rounding Double.gridMask)
    as (areaN & H & Hrev & Hrot).
  - cbn [length Double.gridMask]. lia.
  - apply exactLoopb_sound. vm_compute. reflexivity.
  - exists areaN. split; [exact H|]. split.
    + apply Hrev, exactLoopb_sound, gridMask_exact.
    + intro k. apply Hrot, exactLoopb_sound, gridMask_exact.
Defined.

(** C6, as the claim states it, fails: the sample state has a calibration
    segment of normalized length 1/10 for 100 cm, a wall of normalized area
    2/1000 and the individual roll of 53 cm by 10 m, and its estimate has
    2/10 of a square metre and 1 roll, not 200 square metres and 42 rolls. *)
Lemma scenario_not_42_rolls :
  distCalNormalized (point 0 0) (point (1 / 10) 0) = Fin (1 / 10) /\
  realWorldValueCm (calibration sampleState) = Fin 100 /\
  areaNormalized (wallMask sampleState) = Return (Fin (2 / 1000)) /\
  swatchType sampleState = INDIVIDUAL /\
  individualRollSpecs sampleState = {| widthCm := Fin 53; lengthM := Fin 10 |} /\
  exists r,
    estimateProject sampleState = Return (Some r) /\
    area r = toFixed (Fin (2 / 10)) 2 /\
    area r <> toFixed (Fin 200) 2 /\
    rolls r = Fin 1 /\
    rolls r <> Fin 42.
Proof.
  split; [exact sample_distCalNormalized|].
  split; [reflexivity|]. split; [exact sample_areaNormalized|].
  split; [reflexivity|]. split; [reflexivity|].
  destruct (individual_estimate sampleState (point 0 0) (point (1 / 10) 0)
              (1 / 10) 100 (2 / 1000) 53 10
              eq_refl eq_refl sample_distCalNormalized eq_refl)
    as (_ & r & Er & Ea & Eroll);
    [lra | lra | simpl; lia | exact sample_areaNormalized
     | reflexivity | reflexivity | lra | lra |].
  assert (A : area r = toFixed (Fin (2 / 10)) 2)
    by (rewrite Ea; do 2 f_equal; lra).
  assert (B : rolls r = Fin 1)
    by (rewrite Eroll; do 2 f_equal; apply Zceil_eq; lra).
  exists r. split; [exact Er|]. split; [exact A|]. split; [|split; [exact B|]].
  - rewrite A. intro E. injection E as E. lra.
  - rewrite B. intro E. injection E as E. lra.
Qed.

(** C6, amended: with a calibration segment of normalized length 1/10
    standing for 100 cm the scale factor is 1000 cm per unit; a wall polygon
    of normalized area 2/1000 then has the area 2000 square centimetres, that
    is 2/10 of a square metre, and with an individual roll 53 cm wide and
    10 m long the estimator returns 1 roll. *)
Theorem end_to_end_scenario (s : AppState) (a b : Point) :
  p1 (calibration s) = Some a ->
  p2 (calibration s) = Some b ->
  distCalNormalized a b = Fin (1 / 10) ->
  realWorldValueCm (calibration s) = Fin 100 ->
  (3 <= length (wallMask s))%nat ->
  areaNormalized (wallMask s) = Return (Fin (2 / 1000)) ->
  swatchType s = INDIVIDUAL ->
  individualRollSpecs s = {| widthCm := Fin 53; lengthM := Fin 10 |} ->
  cmPerNormalizedUnit (calibration s) = Return (Fin 1000) /\
  rollAreaM2 (individualRollSpecs s) = Fin (53 / 10) /\
  exists r,
    estimateProject s = Return (Some r) /\
    area r = toFixed (Fin (2000 / 10000)) 2 /\
    rolls r = Fin 1.
Proof.
  intros Ha Hb Hd Hv Hl Harea Ht Hs.
  destruct (individual_estimate s a b (1 / 10) 100 (2 / 1000) 53 10)
    as (Ecm & r & Er & Ea & Eroll); try assumption; try lra.
  split; [|split].
  - rewrite Ecm. do 2 f_equal. lra.
  - rewrite (rollAreaM2_finite s 53 10 Hs). f_equal. lra.
  - exists r. split; [exact Er|]. split.
    + rewrite Ea. do 2 f_equal. lra.
    + rewrite Eroll. do 2 f_equal. apply Zceil_eq. lra.
Qed.

Lemma end_to_end_scenario_sample :
  cmPerNormalizedUnit (calibration sampleState) = Return (Fin 1000) /\
  rollAreaM2 (individualRollSpecs sampleState) = Fin (53 / 10) /\
  exists r,
    estimateProject sampleState = Return (Some r) /\
    area r = toFixed (Fin (2000 / 10000)) 2 /\
    rolls r = Fin 1.
Proof.
  apply (end_to_end_scenario sampleState (point 0 0) (point (1 / 10) 0)).
  - reflexivity.
  - reflexivity.
  - exact sample_distCalNormalized.
  - reflexivity.
  - simpl. lia.
  - exact sample_areaNormalized.
  - reflexivity.
  - reflexivity.
Defined.

(** ** Pointer input in calibration mode *)

(** Before the canvas is mounted or the image is loaded the handler returns
    at once, in every mode, and the state stays as it is. *)
Lemma mouse_down_before_load (a : App) (canvas : option Workspace.DOMRect)
    (imgObj : option string) (e : Workspace.MouseEvent) :
  canvas = None \/ imgObj = None ->
  Workspace.handleMouseDown canvas imgObj (workspaceProps a) e = None /\
  step a (MouseDown canvas imgObj e) = a.
Proof.
  intros [-> | ->]; cbn [step]; unfold Workspace.handleMouseDown.
  - split; reflexivity.
  - destruct canvas; split; reflexivity.
Qed.

(** A click in calibration mode touches nothing but the calibration. *)
Lemma calibrate_click_frame (a : App) (rect : Workspace.DOMRect) (img : string)
    (e : Workspace.MouseEvent) :
  mode a = CALIBRATE ->
  let a' := step a (MouseDown (Some rect) (Some img) e) in
  mode a' = CALIBRATE /\
  wallMask (state a') = wallMask (state a) /\
  roomImage (state a') = roomImage (state a) /\
  swatchImage (state a') = swatchImage (state a) /\
  renderedResult (state a') = renderedResult (state a).
Proof.
  intro Hm. cbn [step]. unfold Workspace.handleMouseDown.
  cbn [workspaceProps Workspace.mode Workspace.calibration]. rewrite Hm.
  destruct (p1 (calibration (state a))), (p2 (calibration (state a)));
    cbn; rewrite ?Hm; repeat split.
Qed.

(** C7: in calibration mode a pointer-down at the point [q] starts a new
    segment ([p1] becomes [q], [p2] is cleared) when [p1] is null or when both
    points are set, and completes the segment ([p2] becomes [q], [p1] is
    kept) when only [p1] is set; the real-world length is unchanged in both
    cases, and the handler always ends in a call of the calibration
    callback. *)
Theorem calibrate_pointer_down (a : App) (rect : Workspace.DOMRect)
    (img : string) (e : Workspace.MouseEvent) :
  mode a = CALIBRATE ->
  let q := Workspace.pointer rect e in
  let cal := calibration (state a) in
  let cal' := calibration (state (step a (MouseDown (Some rect) (Some img) e))) in
  Workspace.handleMouseDown (Some rect) (Some img) (workspaceProps a) e =
    Some (Workspace.onCalibrationUpdate cal') /\
  realWorldValueCm cal' = realWorldValueCm cal /\
  (p1 cal = None \/ (p1 cal <> None /\ p2 cal <> None) ->
   p1 cal' = Some q /\ p2 cal' = None) /\
  (p1 cal <> None /\ p2 cal = None ->
   p1 cal' = p1 cal /\ p2 cal' = Some q).
Proof.
  intro Hm. cbn zeta. cbn [step]. unfold Workspace.handleMouseDown.
  cbn [workspaceProps Workspace.mode Workspace.calibration]. rewrite Hm.
  destruct (p1 (calibration (state a))) as [a1|] eqn:H1;
    destruct (p2 (calibration (state a))) as [a2|] eqn:H2; cbn;
    (split; [reflexivity|]); (split; [reflexivity|]); split; intro H.
  - split; reflexivity.
  - destruct H as [_ N]. discriminate.
  - destruct H as [N | [_ N]]; [discriminate | contradiction].
  - split; reflexivity.
  - split; reflexivity.
  - destruct H as [N _]. contradiction.
  - split; reflexivity.
  - destruct H as [N _]. contradiction.
Qed.

(** The state the application is in after a first calibration click followed
    by two clicks on the calibration button, and the three points clicked in
    the scenario below. *)
Lemma toggled_twice_half_segment (rect : Workspace.DOMRect) (img : string)
    (e1 : Workspace.MouseEvent) :
  let a := run initialApp
             [ClickCalibrate; MouseDown (Some rect) (Some img) e1;
              ClickCalibrate; ClickCalibrate] in
  mode a = CALIBRATE /\
  p1 (calibration (state a)) = Some (Workspace.pointer rect e1) /\
  p2 (calibration (state a)) = None.
Proof. repeat split. Qed.

(** After the toggling, a second click completes the segment begun before
    it, and a third click drops that segment and starts a new one. *)
Lemma toggled_twice_then_clicks (rect : Workspace.DOMRect) (img : string)
    (e1 e2 e3 : Workspace.MouseEvent) :
  let half := [ClickCalibrate; MouseDown (Some rect) (Some img) e1;
               ClickCalibrate; ClickCalibrate] in
  let second := run initialApp (half ++ [MouseDown (Some rect) (Some img) e2]) in
  let third := run second [MouseDown (Some rect) (Some img) e3] in
  calibration (state second) =
    {| p1 := Some (Workspace.pointer rect e1);
       p2 := Some (Workspace.pointer rect e2);
       realWorldValueCm := Fin 0 |} /\
  calibration (state third) =
    {| p1 := Some (Workspace.pointer rect e3);
       p2 := None;
       realWorldValueCm := Fin 0 |}.
Proof. split; reflexivity. Qed.

Lemma calibrate_pointer_down_sample :
  let rect := {| Workspace.left := Fin 0; Workspace.top := Fin 0;
                 Workspace.width := Fin 800; Workspace.height := Fin 600 |} in
  let e1 := {| Workspace.clientX := Fin 80; Workspace.clientY := Fin 60 |} in
  let e2 := {| Workspace.clientX := Fin 400; Workspace.clientY := Fin 300 |} in
  let a := run initialApp
             [ClickCalibrate; MouseDown (Some rect) (Some "room"%string) e1;
              ClickCalibrate; ClickCalibrate] in
  let q := Workspace.pointer rect e2 in
  let cal := calibration (state a) in
  let cal' :=
    calibration (state (step a (MouseDown (Some rect) (Some "room"%string) e2))) in
  Workspace.handleMouseDown (Some rect) (Some "room"%string) (workspaceProps a) e2 =
    Some (Workspace.onCalibrationUpdate cal') /\
  realWorldValueCm cal' = realWorldValueCm cal /\
  (p1 cal = None \/ (p1 cal <> None /\ p2 cal <> None) ->
   p1 cal' = Some q /\ p2 cal' = None) /\
  (p1 cal <> None /\ p2 cal = None ->
   p1 cal' = p1 cal /\ p2 cal' = Some q).
Proof.
  intros rect e1 e2 a.
  apply (calibrate_pointer_down a rect "room"%string e2).
  reflexivity.
Defined.

(** ** Results of the rendering service *)

Section RenderWallpaper.

Import GeminiService.

Lemma firstImage_none (ps : list Part) :
  firstImage ps = None <-> forall part, In part ps -> inlineData part = None.
Proof.
  induction ps as [|p ps IH]; simpl.
  - split; [intros _ part []|reflexivity].
  - destruct (inlineData p) as [i|] eqn:E.
    + split; [discriminate|]. intro H. specialize (H p (or_introl eq_refl)).
      congruence.
    + rewrite IH. split.
      * intros H part [<- | Hin]; [assumption | now apply H].
      * intros H part Hin. apply H. now right.
Qed.

Lemma firstImage_some (ps : list Part) (image : string) :
  firstImage ps = Some image ->
  exists part inline,
    In part ps /\ inlineData part = Some inline /\
    image = ("data:image/png;base64," ++ data inline)%string.
Proof.
  induction ps as [|p ps IH]; simpl; [discriminate|].
  destruct (inlineData p) as [i|] eqn:E.
  - intro H. injection H as <-. exists p, i. auto.
  - intro H. destruct (IH H) as (part & inline & Hin & Hi & Him).
    exists part, inline. auto.
Qed.

Lemma isEmpty_false (key : string) : key <> EmptyString -> isEmpty key = false.
Proof. destruct key; [contradiction | reflexivity]. Qed.

Example includes_entity_not_found :
  includes "404 NOT_FOUND. Requested entity was not found."
           "Requested entity was not found" = true /\
  includes "No image data returned from AI."
           "Requested entity was not found" = false /\
  includes "Requested entity was not" "Requested entity was not found" = false.
Proof. repeat split. Qed.

Example missing_key (generateContent : outcome Response) :
  renderWallpaper None generateContent = Throw (Error "API Key is missing.") /\
  renderWallpaper (Some EmptyString) generateContent =
    Throw (Error "API Key is missing.").
Proof. split; reflexivity. Qed.

End RenderWallpaper.

(** C8: [renderWallpaper] returns only an image taken from inline data of the
    response; a response without inline image data makes it throw (the error
    "No image data returned from AI." when there is a first candidate); an
    upstream error whose message includes "Requested entity was not found" is
    replaced by the error KEY_RESET_REQUIRED, which the caller's test
    recognises; every other upstream error is thrown again unchanged, and
    the caller's test rejects it unless it carries that very message. *)
Theorem renderWallpaper_results (key : string) :
  key <> EmptyString ->
  (forall apiKey generateContent image,
     GeminiService.renderWallpaper apiKey generateContent = Return image ->
     exists response first part inline,
       generateContent = Return response /\
       nth_error (GeminiService.candidates response) 0 = Some first /\
       In part (GeminiService.parts (GeminiService.content first)) /\
       GeminiService.inlineData part = Some inline /\
       image = ("data:image/png;base64," ++ GeminiService.data inline)%string) /\
  (forall response,
     (forall candidate part,
        In candidate (GeminiService.candidates response) ->
        In part (GeminiService.parts (GeminiService.content candidate)) ->
        GeminiService.inlineData part = None) ->
     exists error,
       GeminiService.renderWallpaper (Some key) (Return response) = Throw error /\
       GeminiService.keyResetRequired error = false /\
       (GeminiService.candidates response <> [] ->
        error = Error "No image data returned from AI.")) /\
  (forall error,
     GeminiService.messageIncludes error "Requested entity was not found" = true ->
     GeminiService.renderWallpaper (Some key) (Throw error) =
       Throw (Error "KEY_RESET_REQUIRED") /\
     GeminiService.keyResetRequired (Error "KEY_RESET_REQUIRED") = true) /\
  (forall error,
     GeminiService.messageIncludes error "Requested entity was not found" = false ->
     GeminiService.renderWallpaper (Some key) (Throw error) = Throw error /\
     (error <> Error "KEY_RESET_REQUIRED" ->
      error <> TypeError "KEY_RESET_REQUIRED" ->
      GeminiService.keyResetRequired error = false)).
Proof.
  intro Hkey. unfold GeminiService.renderWallpaper.
  rewrite (isEmpty_false key Hkey).
  split; [|split; [|split]].
  - intros [k|] generateContent image; [|discriminate].
    destruct (GeminiService.isEmpty k); [discriminate|].
    destruct generateContent as [response | error];
      cbn [bind GeminiService.tryCatch].
    + destruct (nth_error (GeminiService.candidates response) 0) as [first|] eqn:E;
        cbn [deref bind GeminiService.tryCatch].
      * destruct (GeminiService.firstImage
                    (GeminiService.parts (GeminiService.content first)))
          as [img|] eqn:F; cbn.
        -- intro H. injection H as <-.
           destruct (firstImage_some _ _ F) as (part & inline & Hin & Hi & Him).
           exists response, first, part, inline. auto.
        -- discriminate.
      * cbn. discriminate.
    + destruct (GeminiService.messageIncludes error _); discriminate.
  - intros response Hnone. cbn [bind].
    destruct (GeminiService.candidates response) as [|first rest] eqn:E;
      cbn [nth_error deref bind GeminiService.tryCatch].
    + exists nullAccess. cbn. repeat split. congruence.
    + assert (F : GeminiService.firstImage
                    (GeminiService.parts (GeminiService.content first)) = None).
      { apply firstImage_none. intros part Hin.
        apply (Hnone first part); [now left | assumption]. }
      rewrite F. exists (Error "No image data returned from AI.").
      cbn. repeat split.
  - intros error H. cbn [bind GeminiService.tryCatch]. rewrite H.
    split; reflexivity.
  - intros error H. cbn [bind GeminiService.tryCatch]. rewrite H.
    split; [reflexivity|]. intros N1 N2.
    destruct error as [m | m | t |]; cbn; [| |reflexivity|reflexivity];
      apply String.eqb_neq; congruence.
Qed.

Lemma renderWallpaper_results_sample :
  (forall apiKey generateContent image,
     GeminiService.renderWallpaper apiKey generateContent = Return image ->
     exists response first part inline,
       generateContent = Return response /\
       nth_error (GeminiService.candidates response) 0 = Some first /\
       In part (GeminiService.parts (GeminiService.content first)) /\
       GeminiService.inlineData part = Some inline /\
       image = ("data:image/png;base64," ++ GeminiService.data inline)%string) /\
  (forall response,
     (forall candidate part,
        In candidate (GeminiService.candidates response) ->
        In part (GeminiService.parts (GeminiService.content candidate)) ->
        GeminiService.inlineData part = None) ->
     exists error,
       GeminiService.renderWallpaper (Some "key"%string) (Return response) =
         Throw error /\
       GeminiService.keyResetRequired error = false /\
       (GeminiService.candidates response <> [] ->
        error = Error "No image data returned from AI.")) /\
  (forall error,
     GeminiService.messageIncludes error "Requested entity was not found" = true ->
     GeminiService.renderWallpaper (Some "key"%string) (Throw error) =
       Throw (Error "KEY_RESET_REQUIRED") /\
     GeminiService.keyResetRequired (Error "KEY_RESET_REQUIRED") = true) /\
  (forall error,
     GeminiService.messageIncludes error "Requested entity was not found" = false ->
     GeminiService.renderWallpaper (Some "key"%string) (Throw error) = Throw error /\
     (error <> Error "KEY_RESET_REQUIRED" ->
      error <> TypeError "KEY_RESET_REQUIRED" ->
      GeminiService.keyResetRequired error = false)).
Proof.
  apply (renderWallpaper_results "key"%string). discriminate.
Defined.

(** ** Uploads *)

(** C10: an upload with a file yields an update that sets the image field
    of the uploaded kind to what the reader produced, resets
    [renderedResult] to null, and leaves every other field of the state as
    it was. *)
Theorem upload_frame (file : string) (others : list string) (type : uploadType)
    (base64 : option string) (prev : AppState) :
  exists update,
    handleFileUpload (Some (file :: others)) type = Some update /\
    (match type with
     | room => roomImage (update base64 prev) = base64 /\
               swatchImage (update base64 prev) = swatchImage prev
     | swatch => swatchImage (update base64 prev) = base64 /\
                 roomImage (update base64 prev) = roomImage prev
     end) /\
    renderedResult (update base64 prev) = None /\
    calibration (update base64 prev) = calibration prev /\
    wallMask (update base64 prev) = wallMask prev /\
    swatchType (update base64 prev) = swatchType prev /\
    panoramaSpecs (update base64 prev) = panoramaSpecs prev /\
    individualRollSpecs (update base64 prev) = individualRollSpecs prev /\
    errorMessage (update base64 prev) = errorMessage prev /\
    isRendering (update base64 prev) = isRendering prev.
Proof.
  eexists. split; [reflexivity|].
  destruct type; cbn; repeat split.
Qed.

(** ** Pointer input in the other modes *)

(** X1: in wall-selection mode a pointer-down appends the point under the pointer
    to the end of the wall mask, whatever the mask holds, and changes nothing
    else. *)
Theorem select_wall_pointer_down (a : App) (rect : Workspace.DOMRect)
    (img : string) (e : Workspace.MouseEvent) :
  mode a = SELECT_WALL ->
  let a' := step a (MouseDown (Some rect) (Some img) e) in
  wallMask (state a') = wallMask (state a) ++ [Workspace.pointer rect e] /\
  calibration (state a') = calibration (state a) /\
  mode a' = SELECT_WALL /\
  onWorkspaceCall (Workspace.onMaskUpdate (wallMask (state a'))) (state a) =
    state a'.
Proof.
  intro Hm. cbn [step]. unfold Workspace.handleMouseDown.
  cbn [workspaceProps Workspace.mode Workspace.wallMask]. rewrite Hm.
  cbn. rewrite ?Hm. repeat split.
Qed.

Lemma select_wall_pointer_down_sample :
  let rect := {| Workspace.left := Fin 0; Workspace.top := Fin 0;
                 Workspace.width := Fin 800; Workspace.height := Fin 600 |} in
  let e := {| Workspace.clientX := Fin 80; Workspace.clientY := Fin 60 |} in
  let a := run initialApp [ClickSelectWall] in
  let a' := step a (MouseDown (Some rect) (Some "room"%string) e) in
  wallMask (state a') = wallMask (state a) ++ [Workspace.pointer rect e] /\
  calibration (state a') = calibration (state a) /\
  mode a' = SELECT_WALL /\
  onWorkspaceCall (Workspace.onMaskUpdate (wallMask (state a'))) (state a) =
    state a'.
Proof.
  intros rect e a.
  apply (select_wall_pointer_down a rect "room"%string e). reflexivity.
Defined.

(** X2: a pointer-down has no effect at all in idle mode, nor, in any mode, while
    the canvas is not mounted or the image is not loaded. *)
Theorem pointer_down_without_effect (a : App)
    (canvas : option Workspace.DOMRect) (imgObj : option string)
    (e : Workspace.MouseEvent) :
  mode a = IDLE \/ canvas = None \/ imgObj = None ->
  Workspace.handleMouseDown canvas imgObj (workspaceProps a) e = None /\
  step a (MouseDown canvas imgObj e) = a.
Proof.
  intros [Hm | H].
  - cbn [step]. unfold Workspace.handleMouseDown.
    cbn [workspaceProps Workspace.mode]. rewrite Hm.
    destruct canvas, imgObj; split; reflexivity.
  - now apply mouse_down_before_load.
Qed.

Lemma pointer_down_without_effect_sample :
  let rect := {| Workspace.left := Fin 0; Workspace.top := Fin 0;
                 Workspace.width := Fin 800; Workspace.height := Fin 600 |} in
  let e := {| Workspace.clientX := Fin 80; Workspace.clientY := Fin 60 |} in
  Workspace.handleMouseDown (Some rect) (Some "room"%string)
    (workspaceProps initialApp) e = None /\
  step initialApp (MouseDown (Some rect) (Some "room"%string) e) = initialApp.
Proof.
  intros rect e.
  apply (pointer_down_without_effect initialApp (Some rect) (Some "room"%string) e).
  left. reflexivity.
Defined.

(** ** Invariants of the application *)

Section Invariants.

Lemma play_app (s : Session) (events1 events2 : list event) :
  play s (events1 ++ events2) = play (play s events1) events2.
Proof. unfold play. apply fold_left_app. Qed.

(** A property that holds of the initial session and that every event keeps
    holds of every reachable session. *)
Lemma reachable_ind (P : Session -> Prop) :
  P initialSession ->
  (forall s ev, P s -> P (handle s ev)) ->
  forall s, reachable s -> P s.
Proof.
  intros H0 Hstep s [events ->].
  induction events as [|ev events IH] using rev_ind; [exact H0|].
  rewrite play_app. cbn. apply Hstep, IH.
Qed.

(** The effect of a tool action on the calibration points. *)
Lemma step_calibration_points (a : App) (act : action) :
  (p2 (calibration (state (step a act))) <> None ->
   p1 (calibration (state (step a act))) <> None) \/
  calibration (state (step a act)) = calibration (state a) \/
  (p1 (calibration (state (step a act))) = p1 (calibration (state a)) /\
   p2 (calibration (state (step a act))) = p2 (calibration (state a))).
Proof.
  destruct act as [| | canvas imgObj e | val]; cbn [step].
  - right; left; reflexivity.
  - right; left; reflexivity.
  - unfold Workspace.handleMouseDown.
    destruct canvas as [rect|]; [|right; left; reflexivity].
    destruct imgObj as [img|]; [|right; left; reflexivity].
    cbn [workspaceProps Workspace.mode Workspace.calibration Workspace.wallMask].
    destruct (mode a); [right; left; reflexivity| |right; left; reflexivity].
    destruct (p1 (calibration (state a))) as [a1|] eqn:H1;
      destruct (p2 (calibration (state a))) as [a2|] eqn:H2; cbn;
      left; intro H; try discriminate; congruence.
  - right; right. split; reflexivity.
Qed.

Lemma handle_calibration_points (s : Session) (ev : event) :
  (p2 (calibration (state (app (handle s ev)))) <> None ->
   p1 (calibration (state (app (handle s ev)))) <> None) \/
  (p1 (calibration (state (app (handle s ev)))) = p1 (calibration (state (app s))) /\
   p2 (calibration (state (app (handle s ev)))) = p2 (calibration (state (app s)))).
Proof.
  destruct ev; cbn [handle app withState state];
    try (right; split; reflexivity).
  - destruct (step_calibration_points (app s) act) as [H | [H | H]];
      [left; exact H | right; rewrite H; split; reflexivity | right; exact H].
  - destruct files as [[|file files]|]; cbn; right; split; reflexivity.
  - unfold handleRender.
    destruct (noImage _ || noImage _); [right; split; reflexivity|].
    destruct (GeminiService.renderWallpaper apiKey generateContent) as [result|error];
      [right; split; reflexivity|].
    destruct error as [m | m | t |];
      try destruct (GeminiService.keyResetRequired _); right; split; reflexivity.
Qed.

End Invariants.

(** X3: in every state the application can reach, from any sequence of pointer
    events, tool buttons, inputs, uploads and renderings, a second calibration
    point is never present without the first one. *)
Theorem first_point_before_second (s : Session) :
  reachable s ->
  p2 (calibration (state (app s))) <> None ->
  p1 (calibration (state (app s))) <> None.
Proof.
  revert s.
  apply (reachable_ind
           (fun s => p2 (calibration (state (app s))) <> None ->
                     p1 (calibration (state (app s))) <> None)).
  - intro H. exfalso. apply H. reflexivity.
  - intros s ev IH.
    destruct (handle_calibration_points s ev) as [H | [H1 H2]].
    + exact H.
    + rewrite H1, H2. exact IH.
Qed.

Lemma first_point_before_second_sample :
  let rect := {| Workspace.left := Fin 0; Workspace.top := Fin 0;
                 Workspace.width := Fin 800; Workspace.height := Fin 600 |} in
  let e1 := {| Workspace.clientX := Fin 80; Workspace.clientY := Fin 60 |} in
  let e2 := {| Workspace.clientX := Fin 400; Workspace.clientY := Fin 300 |} in
  let s := play initialSession
             [Tool ClickCalibrate;
              Tool (MouseDown (Some rect) (Some "room"%string) e1);
              ScaleInput (Fin 210);
              Tool (MouseDown (Some rect) (Some "room"%string) e2)] in
  p1 (calibration (state (app s))) <> None.
Proof.
  intros rect e1 e2 s.
  apply (first_point_before_second s).
  - eexists. reflexivity.
  - cbn. discriminate.
Defined.

Section Frames.

Lemma step_wallMask (a : App) (act : action) :
  exists added,
    wallMask (state (step a act)) = wallMask (state a) ++ added /\
    (length added <= 1)%nat.
Proof.
  destruct act as [| | canvas imgObj e | val]; cbn [step];
    try (exists []; rewrite app_nil_r; split; [reflexivity | cbn; lia]).
  unfold Workspace.handleMouseDown.
  destruct canvas as [rect|], imgObj as [img|];
    try (exists []; rewrite app_nil_r; split; [reflexivity | cbn; lia]).
  cbn [workspaceProps Workspace.mode Workspace.calibration Workspace.wallMask].
  destruct (mode a).
  - exists []. rewrite app_nil_r. split; [reflexivity | cbn; lia].
  - exists []. rewrite app_nil_r.
    destruct (negb _ || _); split; try reflexivity; cbn; lia.
  - eexists. split; [reflexivity | cbn; lia].
Qed.

Lemma handle_wallMask (s : Session) (ev : event) :
  exists added,
    wallMask (state (app (handle s ev))) = wallMask (state (app s)) ++ added /\
    (length added <= 1)%nat.
Proof.
  destruct ev; cbn [handle app withState state];
    try (exists []; rewrite app_nil_r; split; [reflexivity | cbn; lia]).
  - apply step_wallMask.
  - exists []. rewrite app_nil_r. split; [|cbn; lia].
    destruct files as [[|file files]|]; reflexivity.
  - exists []. rewrite app_nil_r. split; [|cbn; lia].
    unfold handleRender.
    destruct (noImage _ || noImage _); [reflexivity|].
    destruct (GeminiService.renderWallpaper apiKey generateContent) as [result|error];
      [reflexivity|].
    destruct error as [m | m | t |];
      try destruct (GeminiService.keyResetRequired _); reflexivity.
Qed.

Lemma handle_totalRolls (s : Session) (ev : event) :
  totalRolls (panoramaSpecs (state (app (handle s ev)))) =
  totalRolls (panoramaSpecs (state (app s))).
Proof.
  destruct ev; cbn [handle app withState state]; try reflexivity.
  - destruct act as [| | canvas imgObj e | val]; cbn [step]; try reflexivity.
    destruct (Workspace.handleMouseDown _ _ _ _) as [[data|pts]|]; reflexivity.
  - destruct files as [[|file files]|]; reflexivity.
  - unfold handleRender.
    destruct (noImage _ || noImage _); [reflexivity|].
    destruct (GeminiService.renderWallpaper apiKey generateContent) as [result|error];
      [reflexivity|].
    destruct error as [m | m | t |];
      try destruct (GeminiService.keyResetRequired _); reflexivity.
Qed.

End Frames.

(** X4: no sequence of events removes or reorders a point of the wall mask: the
    mask before is a prefix of the mask after, and each event adds one point
    at most. *)
Theorem mask_only_grows (s : Session) (events : list event) :
  exists added,
    wallMask (state (app (play s events))) = wallMask (state (app s)) ++ added /\
    (length added <= length events)%nat.
Proof.
  induction events as [|ev events IH] using rev_ind.
  - exists []. rewrite app_nil_r. split; [reflexivity | cbn; lia].
  - destruct IH as (added & E & L). rewrite play_app. cbn [play fold_left].
    destruct (handle_wallMask (play s events) ev) as (more & E' & L').
    exists (added ++ more). rewrite E', E, app_assoc. split; [reflexivity|].
    rewrite !length_app. cbn. lia.
Qed.

(** X5: only a pointer-down changes the calibration points or the wall mask: an
    upload of a new photo, a change of type or of a dimension, a preset, a
    rendering, failed or not, all leave them as they are. *)
Theorem only_pointer_moves_geometry (s : Session) (ev : event) :
  (forall canvas imgObj e, ev <> Tool (MouseDown canvas imgObj e)) ->
  p1 (calibration (state (app (handle s ev)))) = p1 (calibration (state (app s))) /\
  p2 (calibration (state (app (handle s ev)))) = p2 (calibration (state (app s))) /\
  wallMask (state (app (handle s ev))) = wallMask (state (app s)).
Proof.
  intro Hev.
  destruct ev; cbn [handle app withState state]; try (repeat split; reflexivity).
  - destruct act as [| | canvas imgObj e | val]; cbn [step];
      try (repeat split; reflexivity).
    exfalso. apply (Hev canvas imgObj e). reflexivity.
  - destruct files as [[|file files]|]; repeat split; reflexivity.
  - unfold handleRender.
    destruct (noImage _ || noImage _); [repeat split; reflexivity|].
    destruct (GeminiService.renderWallpaper apiKey generateContent) as [result|error];
      [repeat split; reflexivity|].
    destruct error as [m | m | t |];
      try destruct (GeminiService.keyResetRequired _); repeat split; reflexivity.
Qed.

Lemma only_pointer_moves_geometry_sample :
  let s := {| app := {| state := sampleState; mode := CALIBRATE |};
              hasApiKey := true |} in
  let ev := FileLoaded (Some ["room.png"%string]) room
              (Some "data:image/png;base64,AAAA"%string) in
  p1 (calibration (state (app (handle s ev)))) = p1 (calibration (state (app s))) /\
  p2 (calibration (state (app (handle s ev)))) = p2 (calibration (state (app s))) /\
  wallMask (state (app (handle s ev))) = wallMask (state (app s)).
Proof.
  intros s ev. apply (only_pointer_moves_geometry s ev).
  intros canvas imgObj e. discriminate.
Defined.

(** X6: the number of rolls of the panorama is never changed: it has no input,
    and every reachable state carries the initial 7. *)
Theorem totalRolls_constant (s : Session) :
  reachable s ->
  totalRolls (panoramaSpecs (state (app s))) = Fin 7.
Proof.
  revert s.
  apply (reachable_ind
           (fun s => totalRolls (panoramaSpecs (state (app s))) = Fin 7)).
  - reflexivity.
  - intros s ev IH. now rewrite handle_totalRolls.
Qed.

Lemma totalRolls_constant_sample :
  totalRolls (panoramaSpecs (state (app
    (play initialSession
       [SwatchTypeButton PANORAMA; RollWidthInput (Fin 90);
        DesignHeightInput (Fin 300)])))) = Fin 7.
Proof.
  apply totalRolls_constant. eexists. reflexivity.
Defined.

(** ** Rendering from the application *)

Section HandleRender.

Variable s : Session.
Variables roomData swatchData : string.
Hypothesis Hroom : roomImage (state (app s)) = Some roomData.
Hypothesis Hswatch : swatchImage (state (app s)) = Some swatchData.
Hypothesis Hroom_filled : roomData <> EmptyString.
Hypothesis Hswatch_filled : swatchData <> EmptyString.

Lemma images_present :
  noImage (roomImage (state (app s))) || noImage (swatchImage (state (app s))) = false.
Proof.
  rewrite Hroom, Hswatch. cbn [noImage].
  now rewrite !isEmpty_false.
Qed.

Lemma handleRender_returned (apiKey : option string)
    (generateContent : outcome GeminiService.Response) (result : string) :
  GeminiService.renderWallpaper apiKey generateContent = Return result ->
  handleRender apiKey generateContent s =
    withState s (renderSucceeded result (renderStarted (state (app s)))).
Proof.
  intro H. unfold handleRender. cbv zeta. now rewrite images_present, H.
Qed.

Lemma handleRender_thrown (apiKey : option string)
    (generateContent : outcome GeminiService.Response) (error : thrown) :
  GeminiService.renderWallpaper apiKey generateContent = Throw error ->
  error <> Nullish ->
  GeminiService.keyResetRequired error = false ->
  handleRender apiKey generateContent s =
    withState s (renderFailed (messageOf error) (renderStarted (state (app s)))).
Proof.
  intros H N K. unfold handleRender. cbv zeta. rewrite images_present, H.
  destruct error as [m | m | t |]; [| | |contradiction]; now rewrite K.
Qed.

End HandleRender.

(** X7: without a room image or without a swatch image, null or empty, a click
    on the render button changes nothing: no rendering starts, the error
    message and the key flag stay, whatever the service would answer. *)
Theorem render_needs_both_images (s : Session) (apiKey : option string)
    (generateContent : outcome GeminiService.Response) :
  noImage (roomImage (state (app s))) = true \/
  noImage (swatchImage (state (app s))) = true ->
  handleRender apiKey generateContent s = s.
Proof.
  intro H. unfold handleRender. cbv zeta.
  destruct H as [-> | ->]; [reflexivity | now rewrite orb_true_r].
Qed.

Lemma render_needs_both_images_sample :
  handleRender (Some "key"%string) (Throw (Error "unreachable"))
    initialSession = initialSession.
Proof.
  apply (render_needs_both_images initialSession). left. reflexivity.
Defined.

(** X8: with both images and a key, a response whose first candidate has a part
    with inline data ends the rendering with that image as the result, no
    error message, the rendering flag down and the key flag untouched; the
    images, the specifications, the calibration and the mask are kept. *)
Theorem render_success (s : Session) (roomData swatchData key : string)
    (response : GeminiService.Response) (first : GeminiService.Candidate)
    (image : string) :
  roomImage (state (app s)) = Some roomData ->
  swatchImage (state (app s)) = Some swatchData ->
  roomData <> EmptyString -> swatchData <> EmptyString -> key <> EmptyString ->
  nth_error (GeminiService.candidates response) 0 = Some first ->
  GeminiService.firstImage (GeminiService.parts (GeminiService.content first)) =
    Some image ->
  let s' := handleRender (Some key) (Return response) s in
  renderedResult (state (app s')) = Some image /\
  errorMessage (state (app s')) = None /\
  isRendering (state (app s')) = false /\
  hasApiKey s' = hasApiKey s /\
  mode (app s') = mode (app s) /\
  calibration (state (app s')) = calibration (state (app s)) /\
  wallMask (state (app s')) = wallMask (state (app s)) /\
  roomImage (state (app s')) = roomImage (state (app s)) /\
  swatchImage (state (app s')) = swatchImage (state (app s)).
Proof.
  intros Hr Hs Nr Ns Nk Hfirst Himage. cbv zeta.
  rewrite (handleRender_returned s roomData swatchData Hr Hs Nr Ns
             (Some key) (Return response) image).
  - repeat split.
  - unfold GeminiService.renderWallpaper. rewrite (isEmpty_false key Nk).
    cbn [bind]. rewrite Hfirst. cbn [deref bind]. rewrite Himage. reflexivity.
Qed.

(** X9: with both images and a key, an upstream error whose message includes
    "Requested entity was not found" ends the rendering with the key flag
    down and the fixed message about the key, not the upstream one; the
    previous result is kept. *)
Theorem render_entity_not_found (s : Session) (roomData swatchData key : string)
    (error : thrown) :
  roomImage (state (app s)) = Some roomData ->
  swatchImage (state (app s)) = Some swatchData ->
  roomData <> EmptyString -> swatchData <> EmptyString -> key <> EmptyString ->
  GeminiService.messageIncludes error "Requested entity was not found" = true ->
  let s' := handleRender (Some key) (Throw error) s in
  hasApiKey s' = false /\
  errorMessage (state (app s')) =
    Some "API Key reset required. Please select your key again."%string /\
  isRendering (state (app s')) = false /\
  renderedResult (state (app s')) = renderedResult (state (app s)) /\
  calibration (state (app s')) = calibration (state (app s)) /\
  wallMask (state (app s')) = wallMask (state (app s)).
Proof.
  intros Hr Hs Nr Ns Nk Hinc. cbv zeta. unfold handleRender. cbv zeta.
  rewrite (images_present s roomData swatchData Hr Hs Nr Ns).
  unfold GeminiService.renderWallpaper. rewrite (isEmpty_false key Nk).
  cbn [bind GeminiService.tryCatch]. rewrite Hinc.
  cbn. repeat split.
Qed.

(** X10: with both images, the other failures leave the key flag as it is and
    show the message of the error as it is: "API Key is missing." without a
    key in the environment, even when a key was selected; "No image data
    returned from AI." for a response whose first candidate has no inline
    data; and the message of any upstream error that neither includes
    "Requested entity was not found" nor is KEY_RESET_REQUIRED. *)
Theorem render_other_failures (s : Session) (roomData swatchData : string) :
  roomImage (state (app s)) = Some roomData ->
  swatchImage (state (app s)) = Some swatchData ->
  roomData <> EmptyString -> swatchData <> EmptyString ->
  (forall generateContent,
     let s' := handleRender None generateContent s in
     errorMessage (state (app s')) = Some "API Key is missing."%string /\
     hasApiKey s' = hasApiKey s /\
     isRendering (state (app s')) = false /\
     renderedResult (state (app s')) = renderedResult (state (app s))) /\
  (forall key response first,
     key <> EmptyString ->
     nth_error (GeminiService.candidates response) 0 = Some first ->
     GeminiService.firstImage
       (GeminiService.parts (GeminiService.content first)) = None ->
     let s' := handleRender (Some key) (Return response) s in
     errorMessage (state (app s')) =
       Some "No image data returned from AI."%string /\
     hasApiKey s' = hasApiKey s /\
     isRendering (state (app s')) = false /\
     renderedResult (state (app s')) = renderedResult (state (app s))) /\
  (forall key message,
     key <> EmptyString ->
     GeminiService.includes message "Requested entity was not found" = false ->
     message <> "KEY_RESET_REQUIRED"%string ->
     let s' := handleRender (Some key) (Throw (Error message)) s in
     errorMessage (state (app s')) = Some message /\
     hasApiKey s' = hasApiKey s /\
     isRendering (state (app s')) = false /\
     renderedResult (state (app s')) = renderedResult (state (app s))).
Proof.
  intros Hr Hs Nr Ns. split; [|split].
  - intro generateContent. cbv zeta.
    rewrite (handleRender_thrown s roomData swatchData Hr Hs Nr Ns
               None generateContent (Error "API Key is missing."));
      repeat split; discriminate.
  - intros key response first Nk Hfirst Hnone. cbv zeta.
    rewrite (handleRender_thrown s roomData swatchData Hr Hs Nr Ns
               (Some key) (Return response)
               (Error "No image data returned from AI."));
      [repeat split | | discriminate | reflexivity].
    unfold GeminiService.renderWallpaper. rewrite (isEmpty_false key Nk).
    cbn [bind]. rewrite Hfirst. cbn [deref bind]. rewrite Hnone. reflexivity.
  - intros key message Nk Hinc Hneq. cbv zeta.
    rewrite (handleRender_thrown s roomData swatchData Hr Hs Nr Ns
               (Some key) (Throw (Error message)) (Error message));
      [repeat split | | discriminate | ].
    + unfold GeminiService.renderWallpaper. rewrite (isEmpty_false key Nk).
      cbn [bind GeminiService.tryCatch GeminiService.messageIncludes].
      now rewrite Hinc.
    + cbn. now apply String.eqb_neq.
Qed.

Lemma render_success_sample :
  let s' := handleRender (Some "key"%string) (Return imageResponse) readySession in
  renderedResult (state (app s')) = Some "data:image/png;base64,CCCC"%string /\
  errorMessage (state (app s')) = None /\
  isRendering (state (app s')) = false /\
  hasApiKey s' = hasApiKey readySession /\
  mode (app s') = mode (app readySession) /\
  calibration (state (app s')) = calibration (state (app readySession)) /\
  wallMask (state (app s')) = wallMask (state (app readySession)) /\
  roomImage (state (app s')) = roomImage (state (app readySession)) /\
  swatchImage (state (app s')) = swatchImage (state (app readySession)).
Proof.
  apply (render_success readySession
           "data:image/png;base64,AAAA" "data:image/jpeg;base64,BBBB" "key"
           imageResponse imageCandidate).
  - reflexivity.
  - reflexivity.
  - discriminate.
  - discriminate.
  - discriminate.
  - reflexivity.
  - reflexivity.
Defined.

Lemma render_entity_not_found_sample :
  let s' := handleRender (Some "key"%string)
              (Throw (Error "404 Requested entity was not found.")) readySession in
  hasApiKey s' = false /\
  errorMessage (state (app s')) =
    Some "API Key reset required. Please select your key again."%string /\
  isRendering (state (app s')) = false /\
  renderedResult (state (app s')) = renderedResult (state (app readySession)) /\
  calibration (state (app s')) = calibration (state (app readySession)) /\
  wallMask (state (app s')) = wallMask (state (app readySession)).
Proof.
  apply (render_entity_not_found readySession
           "data:image/png;base64,AAAA" "data:image/jpeg;base64,BBBB" "key").
  - reflexivity.
  - reflexivity.
  - discriminate.
  - discriminate.
  - discriminate.
  - reflexivity.
Defined.

Lemma render_other_failures_sample :
  (forall generateContent,
     let s' := handleRender None generateContent readySession in
     errorMessage (state (app s')) = Some "API Key is missing."%string /\
     hasApiKey s' = hasApiKey readySession /\
     isRendering (state (app s')) = false /\
     renderedResult (state (app s')) = renderedResult (state (app readySession))) /\
  (forall key response first,
     key <> EmptyString ->
     nth_error (GeminiService.candidates response) 0 = Some first ->
     GeminiService.firstImage
       (GeminiService.parts (GeminiService.content first)) = None ->
     let s' := handleRender (Some key) (Return response) readySession in
     errorMessage (state (app s')) =
       Some "No image data returned from AI."%string /\
     hasApiKey s' = hasApiKey readySession /\
     isRendering (state (app s')) = false /\
     renderedResult (state (app s')) = renderedResult (state (app readySession))) /\
  (forall key message,
     key <> EmptyString ->
     GeminiService.includes message "Requested entity was not found" = false ->
     message <> "KEY_RESET_REQUIRED"%string ->
     let s' := handleRender (Some key) (Throw (Error message)) readySession in
     errorMessage (state (app s')) = Some message /\
     hasApiKey s' = hasApiKey readySession /\
     isRendering (state (app s')) = false /\
     renderedResult (state (app s')) = renderedResult (state (app readySession))).
Proof.
  apply (render_other_failures readySession
           "data:image/png;base64,AAAA" "data:image/jpeg;base64,BBBB").
  - reflexivity.
  - reflexivity.
  - discriminate.
  - discriminate.
Defined.

(** The text response of the samples ends a rendering with the message about
    the missing image data. *)
Example render_text_response :
  errorMessage (state (app
    (handleRender (Some "key"%string) (Return textResponse) readySession))) =
  Some "No image data returned from AI."%string.
Proof. reflexivity. Qed.

(** A call rejected with [null] leaves the rendering flag up, with no
    message. *)
Example render_rejected_with_null :
  let s' := handleRender (Some "key"%string) (Throw Nullish) readySession in
  isRendering (state (app s')) = true /\
  errorMessage (state (app s')) = None /\
  hasApiKey s' = true.
Proof. repeat split. Qed.

(** ** Masks of finite points *)

Section FiniteMask.

Lemma finitePoint_eq (p : Point) :
  finitePoint p -> p = point (re (x p)) (re (y p)).
Proof.
  destruct p as [px py]. intros [[a Ha] [b Hb]]. cbn in *. subst. reflexivity.
Qed.

Lemma cross_finite (p q : Point) :
  finitePoint p -> finitePoint q -> cross (p, q) = Fin (crossR (p, q)).
Proof.
  intros Hp Hq. rewrite (finitePoint_eq p Hp), (finitePoint_eq q Hq).
  reflexivity.
Qed.

Lemma total_Fin (rs : list R) : total (map Fin rs) = Fin (sumR rs).
Proof.
  induction rs as [|r rs IH]; [reflexivity|].
  cbn [map]. rewrite NumFacts.total_cons, IH. reflexivity.
Qed.

Lemma edges_In (l : list Point) (e : Point * Point) :
  In e (edges l) -> In (fst e) l /\ In (snd e) l.
Proof.
  induction l as [|a l IH]; [intros []|].
  destruct l as [|b l]; [intros []|].
  change (edges (a :: b :: l)) with ((a, b) :: edges (b :: l)).
  intros [<- | H].
  - split; [left | right; left]; reflexivity.
  - destruct (IH H) as [H1 H2]. split; right; assumption.
Qed.

Lemma closed_In (m : list Point) (p : Point) : In p (closed m) -> In p m.
Proof.
  unfold closed. intro H. apply in_app_or in H. destruct H as [H | H]; [exact H|].
  destruct m as [|a m]; [destruct H|].
  destruct H as [<- | []]. now left.
Qed.

Lemma signedArea_finite (m : list Point) :
  Forall finitePoint m -> signedArea m = Fin (signedAreaR m).
Proof.
  intro H. unfold signedArea, signedAreaR. rewrite <- total_Fin, map_map.
  f_equal. apply map_ext_in. intros [p q] He.
  destruct (edges_In _ _ He) as [Hp Hq]. cbn [fst snd] in Hp, Hq.
  rewrite Forall_forall in H.
  apply cross_finite; apply H, closed_In; assumption.
Qed.

Lemma fold_min2_Fin (rs : list R) (a : R) :
  fold_left Num.min2 (map Fin rs) (Fin a) = Fin (fold_left Rmin rs a).
Proof.
  revert a. induction rs as [|r rs IH]; intro a; [reflexivity|].
  cbn [map fold_left]. apply IH.
Qed.

Lemma fold_max2_Fin (rs : list R) (a : R) :
  fold_left Num.max2 (map Fin rs) (Fin a) = Fin (fold_left Rmax rs a).
Proof.
  revert a. induction rs as [|r rs IH]; intro a; [reflexivity|].
  cbn [map fold_left]. apply IH.
Qed.

Lemma min_Fin (rs : list R) :
  rs <> [] -> Num.min (map Fin rs) = Fin (lowest rs).
Proof.
  destruct rs as [|r rs]; [contradiction|]. intros _.
  unfold Num.min. cbn [map fold_left]. apply fold_min2_Fin.
Qed.

Lemma max_Fin (rs : list R) :
  rs <> [] -> Num.max (map Fin rs) = Fin (highest rs).
Proof.
  destruct rs as [|r rs]; [contradiction|]. intros _.
  unfold Num.max. cbn [map fold_left]. apply fold_max2_Fin.
Qed.

Lemma map_coordinate (f : Point -> number) (m : list Point) :
  Forall (fun p => Num.finite (f p)) m ->
  map f m = map Fin (map (fun p => re (f p)) m).
Proof.
  intro H. rewrite map_map. apply map_ext_in. intros p Hp.
  rewrite Forall_forall in H. destruct (H p Hp) as [r ->]. reflexivity.
Qed.

Lemma extentX_finite (m : list Point) :
  m <> [] -> Forall finitePoint m -> extentX m = Fin (spanX m).
Proof.
  intros Hne H. unfold extentX, spanX. cbv zeta.
  rewrite (map_coordinate x m)
    by (eapply Forall_impl; [|exact H]; intros p Hp; apply Hp).
  assert (N : map (fun p => re (x p)) m <> [])
    by (destruct m; [contradiction | discriminate]).
  rewrite (min_Fin _ N), (max_Fin _ N). reflexivity.
Qed.

Lemma extentY_finite (m : list Point) :
  m <> [] -> Forall finitePoint m -> extentY m = Fin (spanY m).
Proof.
  intros Hne H. unfold extentY, spanY. cbv zeta.
  rewrite (map_coordinate y m)
    by (eapply Forall_impl; [|exact H]; intros p Hp; apply Hp).
  assert (N : map (fun p => re (y p)) m <> [])
    by (destruct m; [contradiction | discriminate]).
  rewrite (min_Fin _ N), (max_Fin _ N). reflexivity.
Qed.

(** The estimate of a mask of finite points under a finite scale factor. *)
Lemma estimateWith_finite (s : AppState) (k : R) :
  wallMask s <> [] ->
  Forall finitePoint (wallMask s) ->
  estimateWith s (Fin k) =
  {| area := toFixed (Fin (areaM2R (wallMask s) k)) 2;
     width := toFixed (Fin (spanX (wallMask s) * k)) 1;
     height := toFixed (Fin (spanY (wallMask s) * k)) 1;
     rolls := requiredRolls s (Fin (spanX (wallMask s) * k))
                (Fin (areaM2R (wallMask s) k)) |}.
Proof.
  intros Hne H. unfold estimateWith. cbv zeta.
  rewrite (signedArea_finite _ H), (extentX_finite _ Hne H),
    (extentY_finite _ Hne H).
  cbn [Num.abs Num.mul]. rewrite !NumFacts.div_Fin by lra.
  cbn [Num.mul]. rewrite NumFacts.div_Fin by lra. reflexivity.
Qed.

(** The whole estimate for finite data. *)
Lemma estimateProject_finite (s : AppState) (ax ay bx by' v : R) :
  p1 (calibration s) = Some (point ax ay) ->
  p2 (calibration s) = Some (point bx by') ->
  realWorldValueCm (calibration s) = Fin v ->
  (ax, ay) <> (bx, by') ->
  v <> 0%R ->
  (3 <= length (wallMask s))%nat ->
  Forall finitePoint (wallMask s) ->
  let k := (v / euclideanDistance ax ay bx by')%R in
  estimateProject s =
  Return (Some
    {| area := toFixed (Fin (areaM2R (wallMask s) k)) 2;
       width := toFixed (Fin (spanX (wallMask s) * k)) 1;
       height := toFixed (Fin (spanY (wallMask s) * k)) 1;
       rolls := requiredRolls s (Fin (spanX (wallMask s) * k))
                  (Fin (areaM2R (wallMask s) k)) |}).
Proof.
  intros Ha Hb Hv Hd Hz Hl Hf. cbv zeta.
  pose proof (euclideanDistance_pos ax ay bx by' Hd) as P.
  rewrite (estimateProject_value s _ _ Ha Hb
             (guard_distinct _ ax ay bx by' v Ha Hb Hv Hd Hz) Hl).
  rewrite Hv, distCalNormalized_point, NumFacts.div_Fin by lra.
  rewrite estimateWith_finite; [reflexivity | | exact Hf].
  intro E. rewrite E in Hl. cbn in Hl. lia.
Qed.

End FiniteMask.

(** ** Further properties of the estimator *)

Lemma sqr_sub_swap (a b : number) : (a - b) * (a - b) = (b - a) * (b - a).
Proof.
  destruct a, b; cbn; try reflexivity. f_equal. ring.
Qed.

Lemma pixelsPerCm_exchanged (c : CalibrationData) :
  pixelsPerCm (exchanged c) = pixelsPerCm c.
Proof.
  unfold pixelsPerCm, exchanged. cbn [p1 p2 realWorldValueCm].
  destruct (p1 c) as [a|], (p2 c) as [b|]; try reflexivity.
  destruct (Num.truthy (realWorldValueCm c)); [|reflexivity].
  cbv zeta. now rewrite (sqr_sub_swap (x b) (x a)), (sqr_sub_swap (y b) (y a)).
Qed.

Lemma cmPerNormalizedUnit_exchanged (c : CalibrationData) :
  cmPerNormalizedUnit (exchanged c) = cmPerNormalizedUnit c.
Proof.
  unfold cmPerNormalizedUnit, exchanged. cbn [p1 p2 realWorldValueCm].
  destruct (p1 c) as [a|], (p2 c) as [b|]; try reflexivity.
  cbn [deref bind]. rewrite !distCalNormalized_pixelDist.
  now rewrite (sqr_sub_swap (x b) (x a)), (sqr_sub_swap (y b) (y a)).
Qed.

(** X11: the estimate does not depend on which end of the calibration segment was
    clicked first: with the two points exchanged the estimator returns the
    same result, for every state. *)
Theorem estimate_symmetric (s : AppState) :
  estimateProject (withCalibration (exchanged (calibration s)) s) =
  estimateProject s.
Proof.
  unfold estimateProject, withCalibration, requiredRolls.
  cbn [onWorkspaceCall calibration wallMask swatchType panoramaSpecs
       individualRollSpecs].
  now rewrite pixelsPerCm_exchanged, cmPerNormalizedUnit_exchanged.
Qed.

Lemma sample_mask_finite : Forall finitePoint (wallMask sampleState).
Proof. repeat constructor; eexists; reflexivity. Qed.

Lemma sample_distinct : (0%R, 0%R) <> ((1 / 10)%R, 0%R).
Proof. intro E. injection E as E. lra. Qed.



(** ** The request of the rendering *)

(** X20: the prompt and the estimator do not use the same threshold: with one or
    two points in the mask the estimator has no result, while the prompt of
    the rendering already asks to stay within the polygon guide. *)
Theorem prompt_before_polygon (s : AppState) :
  (0 < length (wallMask s) < 3)%nat ->
  estimateProject s = Return None /\
  maskPrompt s =
    "The wallpaper must be applied strictly within the polygon guide provided by the user (rough guide). This might be a partial wall, for example stopping at a duo rail or skirting."%string.
Proof.
  intros [H0 H3]. split.
  - apply estimateProject_null. now right.
  - unfold maskPrompt. apply Nat.ltb_lt in H0. now rewrite H0.
Qed.

Lemma prompt_before_polygon_sample :
  estimateProject (withMask [point 0 0] sampleState) = Return None /\
  maskPrompt (withMask [point 0 0] sampleState) =
    "The wallpaper must be applied strictly within the polygon guide provided by the user (rough guide). This might be a partial wall, for example stopping at a duo rail or skirting."%string.
Proof.
  apply (prompt_before_polygon (withMask [point 0 0] sampleState)).
  simpl. lia.
Defined.

Section Payload.

Import GeminiRequest.

Lemma split_nonempty (sep : ascii) (s : string) : split sep s <> [].
Proof.
  destruct s as [|c s]; cbn; [discriminate|].
  destruct (Ascii.eqb c sep); [discriminate|].
  destruct (split sep s); discriminate.
Qed.

Lemma split_without (sep : ascii) (s : string) :
  occurs sep s = false -> split sep s = [s].
Proof.
  induction s as [|c s IH]; [reflexivity|].
  cbn. destruct (Ascii.eqb c sep); [discriminate|].
  cbn. intro H. now rewrite (IH H).
Qed.

Lemma split_at_first (sep : ascii) (header body : string) :
  occurs sep header = false ->
  split sep (header ++ String sep body) = header :: split sep body.
Proof.
  induction header as [|c header IH]; intro H.
  - cbn. now rewrite Ascii.eqb_refl.
  - cbn in H |- *. destruct (Ascii.eqb c sep); [discriminate|].
    cbn in H. now rewrite (IH H).
Qed.

End Payload.

(** X21: what the service receives for an image is the base64 payload of its
    data URL: when neither the header nor the body holds a comma, the data
    of the part built from [header,body] is the body; a string without any
    comma gives a part without data; and a data URL built the way
    [renderWallpaper] builds its result gives back the data it was built
    from. *)
Theorem payload_of_data_url (header body : string) :
  GeminiRequest.occurs "," header = false ->
  GeminiRequest.occurs "," body = false ->
  GeminiRequest.payload (header ++ String "," body) = Some body /\
  GeminiRequest.payload header = None /\
  GeminiRequest.payload ("data:image/png;base64," ++ body) = Some body /\
  map GeminiRequest.data
    (GeminiRequest.imageParts (header ++ String "," body) header) =
    [Some body; None].
Proof.
  intros Hh Hb.
  assert (E1 : GeminiRequest.payload (header ++ String "," body) = Some body).
  { unfold GeminiRequest.payload.
    now rewrite (split_at_first _ _ _ Hh), (split_without _ _ Hb). }
  assert (E2 : GeminiRequest.payload header = None).
  { unfold GeminiRequest.payload. now rewrite (split_without _ _ Hh). }
  split; [exact E1|]. split; [exact E2|]. split.
  - unfold GeminiRequest.payload.
    change ("data:image/png;base64," ++ body)%string
      with ("data:image/png;base64" ++ String "," body)%string.
    rewrite split_at_first by reflexivity. now rewrite (split_without _ _ Hb).
  - unfold GeminiRequest.imageParts. cbn [map GeminiRequest.data].
    now rewrite E1, E2.
Qed.

Lemma payload_of_data_url_sample :
  GeminiRequest.payload ("data:image/jpeg;base64" ++ String "," "BBBB") =
    Some "BBBB"%string /\
  GeminiRequest.payload "data:image/jpeg;base64" = None /\
  GeminiRequest.payload ("data:image/png;base64," ++ "BBBB") = Some "BBBB"%string /\
  map GeminiRequest.data
    (GeminiRequest.imageParts ("data:image/jpeg;base64" ++ String "," "BBBB")
       "data:image/jpeg;base64") =
    [Some "BBBB"%string; None].
Proof.
  apply (payload_of_data_url "data:image/jpeg;base64" "BBBB"); reflexivity.
Defined.

(** The separator itself is the limit of the payload: a second comma cuts
    it. *)
Example payload_stops_at_comma :
  GeminiRequest.payload "data:text/plain,a,b" = Some "a"%string /\
  GeminiRequest.split ","%char EmptyString = [EmptyString] /\
  GeminiRequest.split ","%char "a," = ["a"%string; EmptyString].
Proof. repeat split. Qed.

(** ** The drawing of the workspace *)

Section Drawing.

Import Canvas.

Variable unsignedLong : number -> number.
Variable img : Image.
Variable clientWidth : option number.

Let w := canvasWidth unsignedLong img clientWidth.
Let h := canvasHeight unsignedLong img clientWidth.

Lemma render_mounted (cal : CalibrationData) (mask : list Point) :
  render unsignedLong true true (Some img) clientWidth cal mask =
  [ clearRect (Fin 0) (Fin 0) w h; drawImage (Fin 0) (Fin 0) w h ]
  ++ drawCalibration w h cal ++ drawMask w h mask.
Proof. reflexivity. Qed.

Lemma drawCalibration_open (cal : CalibrationData) :
  ~ In closePath (drawCalibration w h cal).
Proof.
  unfold drawCalibration. destruct (p1 cal) as [a|]; [|intros []].
  intro H. apply in_app_or in H. destruct H as [H | H].
  - cbn in H. repeat (destruct H as [H | H]; [discriminate|]). exact H.
  - destruct (p2 cal); cbn in H;
      repeat (destruct H as [H | H]; [discriminate|]); exact H.
Qed.

Lemma dots_open (mask : list Point) : ~ In closePath (flat_map (dot w h) mask).
Proof.
  intro H. apply in_flat_map in H. destruct H as (p & _ & H).
  cbn in H. repeat (destruct H as [H | H]; [discriminate|]). exact H.
Qed.

Lemma drawMask_closePath (mask : list Point) :
  In closePath (drawMask w h mask) <-> (3 <= length mask)%nat.
Proof.
  unfold drawMask. destruct mask as [|first others]; [cbn; split; [intros [] | lia]|].
  destruct (Nat.ltb_spec 2 (length (first :: others))) as [Hl | Hl].
  - split; [lia|]. intros _.
    apply in_or_app. right. apply in_or_app. right.
    apply in_or_app. left. now left.
  - split; [|lia]. intro H.
    apply in_app_or in H. destruct H as [H | H].
    { cbn in H. repeat (destruct H as [H | H]; [discriminate|]). destruct H. }
    apply in_app_or in H. destruct H as [H | H].
    { apply in_map_iff in H. destruct H as (p & E & _). discriminate. }
    apply in_app_or in H. destruct H as [[] | H].
    apply in_app_or in H. destruct H as [H | H].
    { cbn in H. repeat (destruct H as [H | H]; [discriminate|]). destruct H. }
    now apply dots_open in H.
Qed.

Lemma render_closePath (cal : CalibrationData) (mask : list Point) :
  In closePath (render unsignedLong true true (Some img) clientWidth cal mask)
  <-> (3 <= length mask)%nat.
Proof.
  rewrite render_mounted, <- drawMask_closePath. split.
  - intro H. apply in_app_or in H. destruct H as [H | H].
    { cbn in H. repeat (destruct H as [H | H]; [discriminate|]). destruct H. }
    apply in_app_or in H. destruct H as [H | H]; [|exact H].
    now apply drawCalibration_open in H.
  - intro H. apply in_or_app. right. apply in_or_app. now right.
Qed.

End Drawing.

(** X22: the polygon is drawn closed exactly when the mask has three points or
    more, which is when the estimator can accept it: whenever the estimator
    returns an estimate, the drawing of that state closes the path. *)
Theorem closed_path_when_estimated (unsignedLong : number -> number)
    (img : Canvas.Image) (clientWidth : option number) (s : AppState) :
  (In Canvas.closePath
      (Canvas.render unsignedLong true true (Some img) clientWidth
         (calibration s) (wallMask s))
   <-> (3 <= length (wallMask s))%nat) /\
  (forall r,
     estimateProject s = Return (Some r) ->
     In Canvas.closePath
       (Canvas.render unsignedLong true true (Some img) clientWidth
          (calibration s) (wallMask s))).
Proof.
  split; [apply render_closePath|].
  intros r Hr. apply render_closePath.
  destruct (Nat.ltb_spec (length (wallMask s)) 3) as [Hlt | Hge]; [|exact Hge].
  assert (E : estimateProject s = Return None)
    by (apply estimateProject_null; now right).
  congruence.
Qed.

(** ** Pointer input and the estimate *)

(** X24: a click inside the rectangle of the canvas gives a point of the unit
    square: for a finite rectangle of positive size and a pointer position
    within it, both normalized coordinates are finite and lie between 0
    and 1. *)
Theorem pointer_in_unit_square (left top w h cx cy : R) :
  (0 < w)%R -> (0 < h)%R ->
  (left <= cx <= left + w)%R ->
  (top <= cy <= top + h)%R ->
  let rect := {| Workspace.left := Fin left; Workspace.top := Fin top;
                 Workspace.width := Fin w; Workspace.height := Fin h |} in
  let e := {| Workspace.clientX := Fin cx; Workspace.clientY := Fin cy |} in
  exists px py,
    Workspace.pointer rect e = point px py /\
    (0 <= px <= 1)%R /\ (0 <= py <= 1)%R.
Proof.
  intros Hw Hh Hx Hy rect e.
  exists ((cx - left) / w)%R, ((cy - top) / h)%R. split; [|split].
  - unfold Workspace.pointer, rect, e, point.
    cbn [Workspace.clientX Workspace.clientY Workspace.left Workspace.top
         Workspace.width Workspace.height Num.sub Num.opp Num.add].
    rewrite !NumFacts.div_Fin by lra. reflexivity.
  - split.
    + apply Rmult_le_pos; [lra|]. left. now apply Rinv_0_lt_compat.
    + apply Rmult_le_reg_r with w; [lra|]. unfold Rdiv.
      rewrite Rmult_assoc, Rinv_l by lra. lra.
  - split.
    + apply Rmult_le_pos; [lra|]. left. now apply Rinv_0_lt_compat.
    + apply Rmult_le_reg_r with h; [lra|]. unfold Rdiv.
      rewrite Rmult_assoc, Rinv_l by lra. lra.
Qed.

Lemma pointer_in_unit_square_sample :
  exists px py,
    Workspace.pointer
      {| Workspace.left := Fin 20; Workspace.top := Fin 100;
         Workspace.width := Fin 800; Workspace.height := Fin 600 |}
      {| Workspace.clientX := Fin 420; Workspace.clientY := Fin 250 |} =
      point px py /\
    (0 <= px <= 1)%R /\ (0 <= py <= 1)%R.
Proof.
  apply (pointer_in_unit_square 20 100 800 600 420 250); lra.
Defined.

(** X25: starting a calibration segment takes the estimate away: after a click in
    calibration mode on a state without a first point, or with both points,
    the estimator returns null, whatever it returned before; the estimate
    comes back with the second click at the earliest. *)
Theorem new_segment_hides_estimate (a : App) (rect : Workspace.DOMRect)
    (img : string) (e : Workspace.MouseEvent) :
  mode a = CALIBRATE ->
  p1 (calibration (state a)) = None \/ p2 (calibration (state a)) <> None ->
  estimateProject (state (step a (MouseDown (Some rect) (Some img) e))) =
    Return None.
Proof.
  intros Hm H. apply estimateProject_null. left.
  cbn [step]. unfold Workspace.handleMouseDown.
  cbn [workspaceProps Workspace.mode Workspace.calibration]. rewrite Hm.
  destruct (p1 (calibration (state a))) as [a1|] eqn:H1;
    destruct (p2 (calibration (state a))) as [a2|] eqn:H2; cbn;
    try reflexivity.
  destruct H as [H | H]; [discriminate | contradiction].
Qed.

Lemma new_segment_hides_estimate_sample :
  estimateProject
    (state (step {| state := sampleState; mode := CALIBRATE |}
              (MouseDown
                 (Some {| Workspace.left := Fin 20; Workspace.top := Fin 100;
                          Workspace.width := Fin 800;
                          Workspace.height := Fin 600 |})
                 (Some "room"%string)
                 {| Workspace.clientX := Fin 420;
                    Workspace.clientY := Fin 250 |}))) =
    Return None.
Proof.
  apply new_segment_hides_estimate.
  - reflexivity.
  - right. discriminate.
Defined.

(** X26: the estimate is a function of the calibration, the mask, the type, the
    panorama roll width and the individual roll specification: two states
    that agree on them get the same result, whatever their images, design
    height, number of rolls, rendering flag, result and message.  In
    particular an upload, which keeps all of them, keeps the estimate. *)
Theorem estimate_dependencies (s1 s2 : AppState) :
  calibration s1 = calibration s2 ->
  wallMask s1 = wallMask s2 ->
  swatchType s1 = swatchType s2 ->
  rollWidthCm (panoramaSpecs s1) = rollWidthCm (panoramaSpecs s2) ->
  individualRollSpecs s1 = individualRollSpecs s2 ->
  estimateProject s1 = estimateProject s2 /\
  (forall files type base64 update,
     handleFileUpload files type = Some update ->
     estimateProject (update base64 s1) = estimateProject s2).
Proof.
  intros Hc Hm Ht Hw Hi.
  assert (E : forall s, calibration s = calibration s2 ->
                        wallMask s = wallMask s2 ->
                        swatchType s = swatchType s2 ->
                        rollWidthCm (panoramaSpecs s) = rollWidthCm (panoramaSpecs s2) ->
                        individualRollSpecs s = individualRollSpecs s2 ->
                        estimateProject s = estimateProject s2).
  { intros s Ec Em Et Ew Ei. unfold estimateProject, requiredRolls.
    now rewrite Ec, Em, Et, Ew, Ei. }
  split; [now apply E|].
  intros files type base64 update Hu.
  destruct files as [[|file files]|]; try discriminate.
  injection Hu as <-. apply E; assumption.
Qed.

Lemma estimate_dependencies_sample :
  estimateProject (state (app readySession)) = estimateProject sampleState /\
  (forall files type base64 update,
     handleFileUpload files type = Some update ->
     estimateProject (update base64 (state (app readySession))) =
     estimateProject sampleState).
Proof.
  apply (estimate_dependencies (state (app readySession)) sampleState);
    reflexivity.
Defined.

(** ** The estimator in binary64 arithmetic: bounding box and signs *)

(** The comparison of two doubles is the comparison of their ranks. *)
Section Order.

Local Open Scope Z_scope.

Lemma valid_bounds (s : bool) (m : positive) (e : Z) :
  valid_binary (S754_finite s m e) = true ->
  emin <= e <= emax - prec /\ Z.pos m < 2 ^ prec.
Proof.
  cbn [SpecFloat.valid_binary]. unfold bounded, canonical_mantissa, fexp.
  intro H. apply andb_true_iff in H as [C B].
  apply Z.eqb_eq in C. apply Z.leb_le in B.
  pose proof (digits2_bounds m) as [_ U].
  assert (D : Z.pos (digits2_pos m) <= prec) by lia.
  split; [lia|].
  eapply Z.lt_le_trans; [exact U|]. apply Z.pow_le_mono_r; lia.
Qed.

Lemma belowSF_rank (f g : spec_float) :
  valid_binary f = true -> valid_binary g = true ->
  f <> S754_nan -> g <> S754_nan ->
  belowSF f g = true <-> rankSF f < rankSF g.
Proof.
  intros Vf Vg Nf Ng.
  destruct f as [s | s | | s m e]; [| |contradiction|];
    (destruct g as [s' | s' | | s' m' e']; [| |contradiction|]);
    try (pose proof (valid_bounds _ _ _ Vf) as [Be Bm]);
    try (pose proof (valid_bounds _ _ _ Vg) as [Be' Bm']);
    unfold belowSF, SFltb, SFcompare, rankSF, negative, magnitude,
      isNegZeroSF, isPosZeroSF;
    try destruct s; try destruct s'; cbn [orb andb];
    try (literals; split; [intro H; try discriminate; lia | intro H; try reflexivity; lia]).
  all: change (Pos.compare_cont Eq ?a ?b) with (Pos.compare a b).
  all: destruct (Z.compare_spec e e') as [E | E | E];
       destruct (Pos.compare_spec m m') as [M | M | M]; cbn [CompOpp orb];
       literals; split; intro H; try discriminate; try reflexivity; try lia.
Qed.

Lemma rankSF_inj (f g : spec_float) :
  valid_binary f = true -> valid_binary g = true ->
  f <> S754_nan -> g <> S754_nan ->
  rankSF f = rankSF g -> f = g.
Proof.
  intros Vf Vg Nf Ng.
  destruct f as [s | s | | s m e]; [| |contradiction|];
    (destruct g as [s' | s' | | s' m' e']; [| |contradiction|]);
    try (pose proof (valid_bounds _ _ _ Vf) as [Be Bm]);
    try (pose proof (valid_bounds _ _ _ Vg) as [Be' Bm']);
    unfold rankSF, negative, magnitude;
    destruct s, s'; literals; intro H; try reflexivity; try lia.
  all: assert (e = e') by lia; subst e'; assert (Z.pos m = Z.pos m') by lia;
       congruence.
Qed.

(** [NaN] is one value. *)
Lemma is_nan_SF (a : float) : is_nan a = true <-> Prim2SF a = S754_nan.
Proof.
  unfold is_nan. rewrite FloatAxioms.eqb_spec.
  unfold SFeqb, SFcompare.
  destruct (Prim2SF a) as [s | s | | s m e];
    try destruct s; cbn [negb]; try (split; [discriminate | discriminate]);
    try (split; reflexivity).
  all: rewrite Z.compare_refl;
       change (Pos.compare_cont Eq m m) with (Pos.compare m m);
       rewrite Pos.compare_refl; cbn; split; discriminate.
Qed.

Lemma nan_unique (a : float) : is_nan a = true -> a = nan.
Proof.
  intro H. apply is_nan_SF in H. apply Prim2SF_inj. now rewrite H.
Qed.

Lemma not_nan_SF (a : float) : is_nan a = false -> Prim2SF a <> S754_nan.
Proof.
  intros H E. apply is_nan_SF in E. congruence.
Qed.

(** The test of [Math.min], and of [Math.max], is the order of the ranks. *)
Lemma below_rank (a b : float) :
  is_nan a = false -> is_nan b = false ->
  ((a <? b)%float || (Double.isNegZero a && Double.isPosZero b) = true <->
   rank a < rank b).
Proof.
  intros Na Nb. rewrite FloatAxioms.ltb_spec.
  apply (belowSF_rank (Prim2SF a) (Prim2SF b));
    auto using Prim2SF_valid, not_nan_SF.
Qed.

Lemma rank_inj (a b : float) :
  is_nan a = false -> is_nan b = false -> rank a = rank b -> a = b.
Proof.
  intros Na Nb H. apply Prim2SF_inj.
  apply rankSF_inj; auto using Prim2SF_valid, not_nan_SF.
Qed.

End Order.

(** [Math.min] and [Math.max] of two doubles are commutative, associative and
    idempotent, with the units [Infinity] and [-Infinity]. *)
Section MinMaxDouble.

Local Open Scope Z_scope.

Lemma is_nan_nan : is_nan nan = true.
Proof. reflexivity. Qed.

Lemma min2_nan (a b : float) :
  is_nan a || is_nan b = true -> Double.min2 a b = nan.
Proof. intro H. unfold Double.min2. now rewrite H. Qed.

Lemma max2_nan (a b : float) :
  is_nan a || is_nan b = true -> Double.max2 a b = nan.
Proof. intro H. unfold Double.max2. now rewrite H. Qed.

(** Without [NaN], [Math.min] keeps the argument of lower rank and [Math.max]
    the one of higher rank. *)
Lemma min2_rank (a b : float) :
  is_nan a = false -> is_nan b = false ->
  Double.min2 a b = if rank b <? rank a then b else a.
Proof.
  intros Na Nb. unfold Double.min2. rewrite Na, Nb. cbn [orb].
  pose proof (below_rank b a Nb Na) as H.
  destruct ((b <? a)%float || (Double.isNegZero b && Double.isPosZero a)).
  - assert (L : rank b < rank a) by now apply H.
    apply Z.ltb_lt in L. now rewrite L.
  - destruct (Z.ltb_spec (rank b) (rank a)) as [L | L]; [|reflexivity].
    apply H in L. discriminate.
Qed.

Lemma max2_rank (a b : float) :
  is_nan a = false -> is_nan b = false ->
  Double.max2 a b = if rank a <? rank b then b else a.
Proof.
  intros Na Nb. unfold Double.max2. rewrite Na, Nb. cbn [orb].
  pose proof (below_rank a b Na Nb) as H.
  assert (C : Double.isPosZero b && Double.isNegZero a =
              Double.isNegZero a && Double.isPosZero b) by apply andb_comm.
  rewrite C.
  destruct ((a <? b)%float || (Double.isNegZero a && Double.isPosZero b)).
  - assert (L : rank a < rank b) by now apply H.
    apply Z.ltb_lt in L. now rewrite L.
  - destruct (Z.ltb_spec (rank a) (rank b)) as [L | L]; [|reflexivity].
    apply H in L. discriminate.
Qed.

Lemma min2_not_nan (a b : float) :
  is_nan a = false -> is_nan b = false -> is_nan (Double.min2 a b) = false.
Proof.
  intros Na Nb. rewrite min2_rank by assumption.
  now destruct (rank b <? rank a).
Qed.

Lemma max2_not_nan (a b : float) :
  is_nan a = false -> is_nan b = false -> is_nan (Double.max2 a b) = false.
Proof.
  intros Na Nb. rewrite max2_rank by assumption.
  now destruct (rank a <? rank b).
Qed.

Lemma min2_comm (a b : float) : Double.min2 a b = Double.min2 b a.
Proof.
  destruct (is_nan a) eqn:Na;
    [now rewrite (min2_nan a b), (min2_nan b a) by (rewrite Na; auto using orb_true_r)|].
  destruct (is_nan b) eqn:Nb;
    [now rewrite (min2_nan a b), (min2_nan b a) by (rewrite Nb; auto using orb_true_r)|].
  rewrite !min2_rank by assumption.
  destruct (Z.ltb_spec (rank b) (rank a)), (Z.ltb_spec (rank a) (rank b));
    try reflexivity; try lia.
  apply rank_inj; try assumption. lia.
Qed.

Lemma max2_comm (a b : float) : Double.max2 a b = Double.max2 b a.
Proof.
  destruct (is_nan a) eqn:Na;
    [now rewrite (max2_nan a b), (max2_nan b a) by (rewrite Na; auto using orb_true_r)|].
  destruct (is_nan b) eqn:Nb;
    [now rewrite (max2_nan a b), (max2_nan b a) by (rewrite Nb; auto using orb_true_r)|].
  rewrite !max2_rank by assumption.
  destruct (Z.ltb_spec (rank b) (rank a)), (Z.ltb_spec (rank a) (rank b));
    try reflexivity; try lia.
  apply rank_inj; try assumption. lia.
Qed.

Lemma min2_idem (a : float) : Double.min2 a a = a.
Proof.
  destruct (is_nan a) eqn:Na.
  - rewrite min2_nan by (now rewrite Na). symmetry. now apply nan_unique.
  - rewrite min2_rank by assumption. now rewrite Z.ltb_irrefl.
Qed.

Lemma max2_idem (a : float) : Double.max2 a a = a.
Proof.
  destruct (is_nan a) eqn:Na.
  - rewrite max2_nan by (now rewrite Na). symmetry. now apply nan_unique.
  - rewrite max2_rank by assumption. now rewrite Z.ltb_irrefl.
Qed.

Lemma min2_assoc (a b c : float) :
  Double.min2 a (Double.min2 b c) = Double.min2 (Double.min2 a b) c.
Proof.
  destruct (is_nan a) eqn:Na.
  { rewrite (min2_nan a b) by (now rewrite Na).
    rewrite !min2_nan; try reflexivity; now rewrite ?Na, ?is_nan_nan. }
  destruct (is_nan b) eqn:Nb.
  { rewrite (min2_nan a b), (min2_nan b c) by (now rewrite ?Na, Nb).
    rewrite !min2_nan; try reflexivity;
      rewrite ?Na, ?is_nan_nan; auto using orb_true_r. }
  destruct (is_nan c) eqn:Nc.
  { rewrite (min2_nan b c) by (now rewrite Nb, Nc).
    rewrite !min2_nan; try reflexivity;
      rewrite ?Nc, ?is_nan_nan; auto using orb_true_r. }
  rewrite (min2_rank b c), (min2_rank a b) by assumption.
  destruct (Z.ltb_spec (rank c) (rank b)), (Z.ltb_spec (rank b) (rank a));
    rewrite !min2_rank by assumption;
    repeat match goal with
           | |- context [Z.ltb ?u ?v] => destruct (Z.ltb_spec u v)
           end; try reflexivity; try lia.
Qed.

Lemma max2_assoc (a b c : float) :
  Double.max2 a (Double.max2 b c) = Double.max2 (Double.max2 a b) c.
Proof.
  destruct (is_nan a) eqn:Na.
  { rewrite (max2_nan a b) by (now rewrite Na).
    rewrite !max2_nan; try reflexivity; now rewrite ?Na, ?is_nan_nan. }
  destruct (is_nan b) eqn:Nb.
  { rewrite (max2_nan a b), (max2_nan b c) by (now rewrite ?Na, Nb).
    rewrite !max2_nan; try reflexivity;
      rewrite ?Na, ?is_nan_nan; auto using orb_true_r. }
  destruct (is_nan c) eqn:Nc.
  { rewrite (max2_nan b c) by (now rewrite Nb, Nc).
    rewrite !max2_nan; try reflexivity;
      rewrite ?Nc, ?is_nan_nan; auto using orb_true_r. }
  rewrite (max2_rank b c), (max2_rank a b) by assumption.
  destruct (Z.ltb_spec (rank b) (rank c)), (Z.ltb_spec (rank a) (rank b));
    rewrite !max2_rank by assumption;
    repeat match goal with
           | |- context [Z.ltb ?u ?v] => destruct (Z.ltb_spec u v)
           end; try reflexivity; try lia.
Qed.

Lemma rank_bounds (a : float) :
  is_nan a = false -> rank neg_infinity <= rank a <= rank infinity.
Proof.
  intro Na. apply not_nan_SF in Na.
  pose proof (Prim2SF_valid a) as V.
  change (rank neg_infinity) with (- ((emax - emin) * 2 ^ prec + 1)).
  change (rank infinity) with ((emax - emin) * 2 ^ prec + 1).
  unfold rank, rankSF, negative, magnitude.
  destruct (Prim2SF a) as [s | s | | s m e]; [| |contradiction|];
    try (pose proof (valid_bounds _ _ _ V) as [Be Bm]);
    destruct s; literals; lia.
Qed.

Lemma min2_unit (a : float) : Double.min2 infinity a = a.
Proof.
  destruct (is_nan a) eqn:Na.
  - rewrite min2_nan by (rewrite Na; apply orb_true_r).
    symmetry. now apply nan_unique.
  - rewrite min2_rank by (assumption || reflexivity).
    destruct (Z.ltb_spec (rank a) (rank infinity)) as [L | L]; [reflexivity|].
    apply rank_inj; try (assumption || reflexivity).
    pose proof (rank_bounds a Na). lia.
Qed.

Lemma max2_unit (a : float) : Double.max2 neg_infinity a = a.
Proof.
  destruct (is_nan a) eqn:Na.
  - rewrite max2_nan by (rewrite Na; apply orb_true_r).
    symmetry. now apply nan_unique.
  - rewrite max2_rank by (assumption || reflexivity).
    destruct (Z.ltb_spec (rank neg_infinity) (rank a)) as [L | L]; [reflexivity|].
    apply rank_inj; try (assumption || reflexivity).
    pose proof (rank_bounds a Na). lia.
Qed.

End MinMaxDouble.

(** Folds of an idempotent commutative operation with a unit. *)
Section Extremum.

Variable A : Type.
Variable op : A -> A -> A.
Variable unit : A.
Hypothesis op_comm : forall a b, op a b = op b a.
Hypothesis op_assoc : forall a b c, op a (op b c) = op (op a b) c.
Hypothesis op_idem : forall a, op a a = a.
Hypothesis op_unit : forall a, op unit a = a.

Lemma fold_op (l : list A) (i : A) :
  fold_left op l i = op i (fold_left op l unit).
Proof.
  revert i. induction l as [|h t IH]; intro i; cbn [fold_left].
  - now rewrite op_comm, op_unit.
  - rewrite (IH (op i h)), (IH (op unit h)), op_unit. symmetry. apply op_assoc.
Qed.

Lemma fold_op_app (l1 l2 : list A) :
  fold_left op (l1 ++ l2) unit =
  op (fold_left op l1 unit) (fold_left op l2 unit).
Proof. rewrite fold_left_app. apply fold_op. Qed.

Lemma fold_op_In (l : list A) (e : A) :
  In e l -> op (fold_left op l unit) e = fold_left op l unit.
Proof.
  induction l as [|h t IH]; [intros []|].
  cbn [fold_left]. rewrite op_unit, (fold_op t h).
  intros [<- | H].
  - now rewrite (op_comm h), <- op_assoc, op_idem.
  - now rewrite <- op_assoc, IH.
Qed.

Lemma fold_op_twice (l : list A) :
  fold_left op (l ++ l) unit = fold_left op l unit.
Proof. rewrite fold_op_app. apply op_idem. Qed.

Lemma fold_op_repeat (l : list A) (e : A) :
  In e l -> fold_left op (l ++ [e]) unit = fold_left op l unit.
Proof.
  intro H. rewrite fold_op_app. cbn [fold_left]. rewrite op_unit.
  now apply fold_op_In.
Qed.

Lemma fold_op_perm (l1 l2 : list A) :
  Permutation l1 l2 -> fold_left op l1 unit = fold_left op l2 unit.
Proof.
  induction 1 as [| a l1 l2 _ IH | a b l | l1 l2 l3 _ IH1 _ IH2].
  - reflexivity.
  - cbn [fold_left]. now rewrite (fold_op l1), (fold_op l2), IH.
  - cbn [fold_left]. rewrite !op_unit. f_equal. apply op_comm.
  - now rewrite IH1.
Qed.

End Extremum.

(** The extrema of the coordinates under repetition and reordering. *)
Section Box.

Lemma extent_twice (f : Double.Point -> float) (m : list Double.Point) :
  Double.min (map f (m ++ m)) = Double.min (map f m) /\
  Double.max (map f (m ++ m)) = Double.max (map f m).
Proof.
  rewrite map_app. split.
  - apply (fold_op_twice _ Double.min2 infinity
             min2_comm min2_assoc min2_idem min2_unit).
  - apply (fold_op_twice _ Double.max2 neg_infinity
             max2_comm max2_assoc max2_idem max2_unit).
Qed.

Lemma extent_repeat (f : Double.Point -> float) (m : list Double.Point)
    (a : Double.Point) :
  In a m ->
  Double.min (map f (m ++ [a])) = Double.min (map f m) /\
  Double.max (map f (m ++ [a])) = Double.max (map f m).
Proof.
  intro H. rewrite map_app. cbn [map].
  assert (Hin : In (f a) (map f m)) by now apply in_map.
  split.
  - now apply (fold_op_repeat _ Double.min2 infinity
                 min2_comm min2_assoc min2_idem min2_unit).
  - now apply (fold_op_repeat _ Double.max2 neg_infinity
                 max2_comm max2_assoc max2_idem max2_unit).
Qed.

Lemma extent_perm (f : Double.Point -> float) (m m' : list Double.Point) :
  Permutation m m' ->
  Double.min (map f m') = Double.min (map f m) /\
  Double.max (map f m') = Double.max (map f m).
Proof.
  intro H. apply (Permutation_map f) in H. symmetry in H. split.
  - now apply (fold_op_perm _ Double.min2 infinity
                 min2_comm min2_assoc min2_unit).
  - now apply (fold_op_perm _ Double.max2 neg_infinity
                 max2_comm max2_assoc max2_unit).
Qed.

End Box.

(** The parts of an estimate on doubles. *)
Section DoubleEstimate.

Lemma double_fold_returns (mask : list Double.Point) (indices : list nat)
    (acc : float) :
  Forall (fun i => (i < length mask)%nat) indices ->
  exists r, fold_left (Double.shoelaceStep mask) indices (Return acc) = Return r.
Proof.
  intro H. revert acc.
  induction H as [|i indices Hi _ IH]; intro acc; cbn [fold_left].
  - now exists acc.
  - assert (Hj : ((i + 1) mod length mask < length mask)%nat)
      by (apply Nat.mod_upper_bound; lia).
    destruct (nth_error mask i) as [mi|] eqn:Ei;
      [|apply nth_error_None in Ei; lia].
    destruct (nth_error mask ((i + 1) mod length mask)) as [mj|] eqn:Ej;
      [|apply nth_error_None in Ej; lia].
    unfold Double.shoelaceStep at 2. cbn [bind]. rewrite Ei, Ej.
    cbn [deref bind]. apply IH.
Qed.

(** The loop on doubles never reads outside the mask. *)
Lemma double_area_returns (mask : list Double.Point) :
  exists areaN, Double.areaNormalized mask = Return areaN.
Proof.
  destruct (double_fold_returns mask (seq 0 (length mask)) 0%float) as [r Hr].
  - apply Forall_forall. intros i Hi. apply in_seq in Hi. lia.
  - exists (abs r / 2)%float. unfold Double.areaNormalized, Double.signedSum.
    now rewrite Hr.
Qed.

(** What an estimate is made of. *)
Lemma double_estimate_inv (s : Double.AppState) (r : Double.Estimate) :
  Double.estimateProject s = Return (Some r) ->
  exists areaN cm,
    Double.falsy (Double.pixelsPerCm (Double.calibration s)) = false /\
    (3 <= length (Double.wallMask s))%nat /\
    Double.areaNormalized (Double.wallMask s) = Return areaN /\
    Double.cmPerNormalizedUnit (Double.calibration s) = Return cm /\
    let areaM2 := (areaN * (cm * cm) / 10000)%float in
    let wallWidthCm := (Double.extentX (Double.wallMask s) * cm)%float in
    Double.area r = Double.toFixed areaM2 2 /\
    Double.width r = Double.toFixed wallWidthCm 1 /\
    Double.height r =
      Double.toFixed (Double.extentY (Double.wallMask s) * cm)%float 1 /\
    Double.rolls r = Double.requiredRolls s wallWidthCm areaM2.
Proof.
  unfold Double.estimateProject.
  destruct (Double.falsy _) eqn:G; [discriminate|].
  destruct (Nat.ltb_spec (length (Double.wallMask s)) 3) as [L | L];
    [discriminate|]. cbn [orb].
  destruct (Double.areaNormalized (Double.wallMask s)) as [areaN | e];
    [|discriminate].
  destruct (Double.cmPerNormalizedUnit (Double.calibration s)) as [cm | e];
    [|discriminate].
  cbn [bind]. intro H. injection H as <-.
  exists areaN, cm. cbn. repeat split. exact L.
Qed.

(** Past the guard the scale factor is there. *)
Lemma double_scale_returns (c : Double.CalibrationData) :
  Double.falsy (Double.pixelsPerCm c) = false ->
  exists cm, Double.cmPerNormalizedUnit c = Return cm.
Proof.
  unfold Double.pixelsPerCm, Double.cmPerNormalizedUnit.
  destruct (Double.p1 c) as [a|]; [|discriminate].
  destruct (Double.p2 c) as [b|]; [|discriminate].
  intros _. cbn [deref bind]. eexists. reflexivity.
Qed.

(** A mask with the same bounding box gets the same width and height, and
    the same number of panorama rolls. *)
Lemma same_box (s : Double.AppState) (m' : list Double.Point)
    (r : Double.Estimate) :
  (length (Double.wallMask s) <= length m')%nat ->
  Double.extentX m' = Double.extentX (Double.wallMask s) ->
  Double.extentY m' = Double.extentY (Double.wallMask s) ->
  Double.estimateProject s = Return (Some r) ->
  exists r',
    Double.estimateProject (Double.withMask m' s) = Return (Some r') /\
    Double.width r' = Double.width r /\
    Double.height r' = Double.height r /\
    (Double.swatchType s = PANORAMA -> Double.rolls r' = Double.rolls r).
Proof.
  intros Hl Hx Hy H.
  destruct (double_estimate_inv s r H)
    as (areaN & cm & G & L & Ha & Hc & Harea & Hw & Hh & Hr).
  destruct (double_area_returns m') as [areaN' Ha'].
  unfold Double.estimateProject, Double.withMask.
  cbn [Double.calibration Double.wallMask].
  rewrite G. destruct (Nat.ltb_spec (length m') 3) as [L' | _]; [lia|].
  cbn [orb]. rewrite Ha', Hc. cbn [bind]. eexists. split; [reflexivity|].
  cbn [Double.width Double.height Double.rolls].
  rewrite Hx, Hy, Hw, Hh, Hr. repeat split.
  intro P. unfold Double.requiredRolls.
  cbn [Double.swatchType Double.panoramaSpecs]. now rewrite P.
Qed.

End DoubleEstimate.

(** X27: the order of the points has no influence on the bounding box, also
    with rounding: for any reordering of the mask (a rotation or the reversal
    among them) the estimator returns an estimate with the same width and the
    same height and, for a panorama, the same number of rolls. *)
Theorem point_order_keeps_box (s : Double.AppState) (m' : list Double.Point)
    (r : Double.Estimate) :
  Permutation (Double.wallMask s) m' ->
  Double.estimateProject s = Return (Some r) ->
  exists r',
    Double.estimateProject (Double.withMask m' s) = Return (Some r') /\
    Double.width r' = Double.width r /\
    Double.height r' = Double.height r /\
    (Double.swatchType s = PANORAMA -> Double.rolls r' = Double.rolls r).
Proof.
  intros P H. apply same_box; try assumption.
  - rewrite (Permutation_length P). lia.
  - unfold Double.extentX. cbv zeta.
    destruct (extent_perm Double.x _ _ P) as [-> ->]. reflexivity.
  - unfold Double.extentY. cbv zeta.
    destruct (extent_perm Double.y _ _ P) as [-> ->]. reflexivity.
Qed.

Lemma point_order_keeps_box_sample :
  exists r',
    Double.estimateProject
      (Double.withMask (rev Double.roundedMask) (Double.mural Double.roundedMask)) =
      Return (Some r') /\
    Double.width r' = Double.Text "1600.0" /\
    Double.height r' = Double.Text "700.0" /\
    Double.rolls r' = 23%float.
Proof.
  destruct (point_order_keeps_box
              (Double.mural Double.roundedMask) (rev Double.roundedMask)
              {| Double.area := Double.Text "53.00";
                 Double.width := Double.Text "1600.0";
                 Double.height := Double.Text "700.0";
                 Double.rolls := 23%float |})
    as (r' & H & Hw & Hh & Hr).
  - apply Permutation_rev.
  - vm_compute. reflexivity.
  - exists r'. repeat split; try assumption. now apply Hr.
Defined.

(** X16: clicking the first vertex again at the end, to close the polygon by
    hand, leaves the bounding box as it is: the estimator returns an estimate
    with the same width and the same height and, for a panorama, the same
    number of rolls.  The area and the number of individual rolls can change
    by rounding, see [closing_click_changes_rolls]. *)
Theorem closing_click_keeps_box (s : Double.AppState) (a : Double.Point)
    (rest : list Double.Point) (r : Double.Estimate) :
  Double.wallMask s = a :: rest ->
  Double.estimateProject s = Return (Some r) ->
  exists r',
    Double.estimateProject (Double.withMask (Double.wallMask s ++ [a]) s) =
      Return (Some r') /\
    Double.width r' = Double.width r /\
    Double.height r' = Double.height r /\
    (Double.swatchType s = PANORAMA -> Double.rolls r' = Double.rolls r).
Proof.
  intros Hm H.
  assert (Hin : In a (Double.wallMask s)) by (rewrite Hm; now left).
  apply same_box; try assumption.
  - rewrite length_app. lia.
  - unfold Double.extentX. cbv zeta.
    destruct (extent_repeat Double.x _ a Hin) as [-> ->]. reflexivity.
  - unfold Double.extentY. cbv zeta.
    destruct (extent_repeat Double.y _ a Hin) as [-> ->]. reflexivity.
Qed.

Lemma closing_click_keeps_box_sample :
  exists r',
    Double.estimateProject
      (Double.withMask (Double.tallMask ++ [Double.point 0.7 0.45])
         (Double.mural Double.tallMask)) = Return (Some r') /\
    Double.width r' = Double.Text "1400.0" /\
    Double.height r' = Double.Text "1100.0" /\
    Double.rolls r' = 21%float.
Proof.
  destruct (closing_click_keeps_box
              (Double.mural Double.tallMask) (Double.point 0.7 0.45)
              [Double.point 0.8 0.8; Double.point 0.1 1]
              {| Double.area := Double.Text "53.00";
                 Double.width := Double.Text "1400.0";
                 Double.height := Double.Text "1100.0";
                 Double.rolls := 21%float |})
    as (r' & H & Hw & Hh & Hr).
  - reflexivity.
  - vm_compute. reflexivity.
  - exists r'. repeat split; try assumption. now apply Hr.
Defined.

(** With the individual roll the closing click turns 11 rolls into 12. *)
Example closing_click_changes_rolls :
  Double.estimateProject (Double.wall Double.tallMask) =
    Return (Some {| Double.area := Double.Text "53.00";
                    Double.width := Double.Text "1400.0";
                    Double.height := Double.Text "1100.0";
                    Double.rolls := 11%float |}) /\
  Double.estimateProject
    (Double.wall (Double.tallMask ++ [Double.point 0.7 0.45])) =
    Return (Some {| Double.area := Double.Text "53.00";
                    Double.width := Double.Text "1400.0";
                    Double.height := Double.Text "1100.0";
                    Double.rolls := 12%float |}).
Proof. split; vm_compute; reflexivity. Qed.

(** X17: nothing detects a polygon that is walked twice, and its bounding box
    is the one of the polygon: the estimator returns an estimate with the same
    width and the same height and, for a panorama, the same number of
    rolls. *)
Theorem walked_twice_keeps_box (s : Double.AppState) (r : Double.Estimate) :
  Double.estimateProject s = Return (Some r) ->
  exists r',
    Double.estimateProject (Double.withMask (Double.wallMask s ++ Double.wallMask s) s) =
      Return (Some r') /\
    Double.width r' = Double.width r /\
    Double.height r' = Double.height r /\
    (Double.swatchType s = PANORAMA -> Double.rolls r' = Double.rolls r).
Proof.
  intro H. apply same_box; try assumption.
  - rewrite length_app. lia.
  - unfold Double.extentX. cbv zeta.
    destruct (extent_twice Double.x (Double.wallMask s)) as [-> ->]. reflexivity.
  - unfold Double.extentY. cbv zeta.
    destruct (extent_twice Double.y (Double.wallMask s)) as [-> ->]. reflexivity.
Qed.

Lemma walked_twice_keeps_box_sample :
  exists r',
    Double.estimateProject
      (Double.withMask (Double.roundedMask ++ Double.roundedMask)
         (Double.mural Double.roundedMask)) = Return (Some r') /\
    Double.width r' = Double.Text "1600.0" /\
    Double.height r' = Double.Text "700.0" /\
    Double.rolls r' = 23%float.
Proof.
  destruct (walked_twice_keeps_box
              (Double.mural Double.roundedMask)
              {| Double.area := Double.Text "53.00";
                 Double.width := Double.Text "1600.0";
                 Double.height := Double.Text "700.0";
                 Double.rolls := 23%float |})
    as (r' & H & Hw & Hh & Hr).
  - vm_compute. reflexivity.
  - exists r'. repeat split; try assumption. now apply Hr.
Defined.

(** Operations that do not round. *)
Section Arithmetic.

Local Open Scope float_scope.

(** The square of the absolute value is the square, bit for bit. *)
Lemma abs_sqr_double (a : float) : abs a * abs a = a * a.
Proof.
  apply Prim2SF_inj. rewrite !FloatAxioms.mul_spec, abs_spec.
  destruct (Prim2SF a) as [s | s | | s m e]; cbn [SFabs]; unfold SF64mul, SFmul;
    try reflexivity; destruct s; reflexivity.
Qed.

Lemma sub_self (a : float) : Double.isFinite a = true -> a - a = 0.
Proof.
  unfold Double.isFinite. intro H. apply Prim2SF_inj.
  rewrite FloatAxioms.sub_spec.
  change (Prim2SF 0) with (S754_zero false).
  destruct (Prim2SF a) as [s | s | | s m e]; try discriminate;
    unfold SF64sub, SFsub.
  - now destruct s.
  - cbv zeta. now rewrite Z.sub_diag.
Qed.

Lemma zero_mul (cm : float) :
  Double.isFinite cm = true ->
  exists s, Prim2SF (0 * cm) = S754_zero s.
Proof.
  unfold Double.isFinite. intro H. rewrite FloatAxioms.mul_spec.
  change (Prim2SF 0) with (S754_zero false).
  destruct (Prim2SF cm) as [s | s | | s m e]; try discriminate;
    unfold SF64mul, SFmul; eexists; reflexivity.
Qed.

Lemma toFixed_zero (a : float) (s : bool) (d : nat) :
  Prim2SF a = S754_zero s -> Double.toFixed a d = Double.Text (Double.decimal 0 d).
Proof. intro H. unfold Double.toFixed. now rewrite H. Qed.

End Arithmetic.

(** The extrema of equal coordinates. *)
Section FlatD.

Variable c : float.

Lemma fold_min2_const (n : nat) :
  fold_left Double.min2 (repeat c n) c = c.
Proof.
  induction n as [|n IH]; [reflexivity|].
  cbn [repeat fold_left]. now rewrite min2_idem.
Qed.

Lemma fold_max2_const (n : nat) :
  fold_left Double.max2 (repeat c n) c = c.
Proof.
  induction n as [|n IH]; [reflexivity|].
  cbn [repeat fold_left]. now rewrite max2_idem.
Qed.

Lemma map_const (f : Double.Point -> float) (m : list Double.Point) :
  Forall (fun p => f p = c) m -> map f m = repeat c (length m).
Proof.
  induction 1 as [|p m Hp _ IH]; [reflexivity|].
  cbn [map length repeat]. now rewrite Hp, IH.
Qed.

Lemma extent_flat (f : Double.Point -> float) (m : list Double.Point) :
  m <> [] ->
  Forall (fun p => f p = c) m ->
  Double.min (map f m) = c /\ Double.max (map f m) = c.
Proof.
  intros Hne H. rewrite (map_const f m H).
  destruct m as [|p m]; [contradiction|].
  cbn [length repeat]. unfold Double.min, Double.max. cbn [fold_left].
  rewrite min2_unit, max2_unit, fold_min2_const, fold_max2_const. now split.
Qed.

End FlatD.



(** The flat wall of the samples has a rounded area that is not zero, and
    gets one roll. *)
Example flat_wall_one_roll :
  Double.areaNormalized Double.flatMask = Return 8.6736173798840355e-19%float /\
  Double.estimateProject (Double.wall Double.flatMask) =
    Return (Some {| Double.area := Double.Text "0.00";
                    Double.width := Double.Text "1600.0";
                    Double.height := Double.Text "0.0";
                    Double.rolls := 1%float |}).
Proof. split; vm_compute; reflexivity. Qed.

(** X12: [pixelsPerCm] and the scale factor of [estimateProject] are the two
    quotients of the same two doubles: the distance computed from the
    absolute differences is, bit for bit, the distance computed from the
    differences.  Their product is 1 up to rounding only. *)
Theorem scale_factors_share_distance (c : Double.CalibrationData)
    (a b : Double.Point) :
  Double.p1 c = Some a ->
  Double.p2 c = Some b ->
  Double.truthy (Double.realWorldValueCm c) = true ->
  let d := Double.distCalNormalized a b in
  Double.pixelsPerCm c = Some (d / Double.realWorldValueCm c)%float /\
  Double.cmPerNormalizedUnit c = Return (Double.realWorldValueCm c / d)%float.
Proof.
  intros Ha Hb Hv. cbv zeta.
  unfold Double.pixelsPerCm, Double.cmPerNormalizedUnit, Double.distCalNormalized.
  rewrite Ha, Hb, Hv. cbv zeta. cbn [deref bind].
  now rewrite !abs_sqr_double.
Qed.

Lemma scale_factors_share_distance_sample :
  Double.pixelsPerCm (Double.calibration (Double.wall Double.roundedMask)) =
    Some (0.1 / 200)%float /\
  Double.cmPerNormalizedUnit (Double.calibration (Double.wall Double.roundedMask)) =
    Return (200 / 0.1)%float.
Proof.
  apply (scale_factors_share_distance
           (Double.calibration (Double.wall Double.roundedMask))
           (Double.point 0 0) (Double.point 0.1 0)); reflexivity.
Defined.

(** The product of the two factors of the sample is 1, and it is not 1 for a
    segment of length 0.3 standing for 29.7 cm. *)
Example scale_factors_product :
  ((0.1 / 200) * (200 / 0.1) =? 1)%float = true /\
  ((0.3 / 29.7) * (29.7 / 0.3) =? 1)%float = false.
Proof. split; reflexivity. Qed.

(** The sign of the results of the operations. *)
Section Signs.

Lemma round_aux_nonneg (m e : Z) (l : location) :
  negative (binary_round_aux prec emax false m e l) = false.
Proof.
  unfold binary_round_aux.
  destruct (shr_fexp prec emax m e l) as [mrs' e'].
  destruct (shr_fexp prec emax _ e' loc_Exact) as [mrs'' e''].
  destruct (shr_m mrs''); [reflexivity | | reflexivity].
  now destruct (Z.leb _ _).
Qed.

Lemma SFmul_nonneg (f g : spec_float) :
  negative f = false -> negative g = false ->
  negative (SFmul prec emax f g) = false.
Proof.
  destruct f as [s | s | | s m e], g as [s' | s' | | s' m' e'];
    cbn [negative]; intros Hf Hg; subst; unfold SFmul; try reflexivity.
  apply round_aux_nonneg.
Qed.

Lemma SFmul_self_nonneg (f : spec_float) :
  negative (SFmul prec emax f f) = false.
Proof.
  destruct f as [s | s | | s m e]; unfold SFmul; try reflexivity;
    try (now destruct s).
  replace (xorb s s) with false by now destruct s.
  apply round_aux_nonneg.
Qed.

Lemma SFdiv_nonneg (f g : spec_float) :
  negative f = false -> negative g = false ->
  negative (SFdiv prec emax f g) = false.
Proof.
  destruct f as [s | s | | s m e], g as [s' | s' | | s' m' e'];
    cbn [negative]; intros Hf Hg; subst; unfold SFdiv; try reflexivity.
  destruct (SFdiv_core_binary prec emax (Z.pos m) e (Z.pos m') e')
    as [[mz ez] lz].
  apply round_aux_nonneg.
Qed.

Lemma ofZ_nonneg (z : Z) : negative (Prim2SF (Double.ofZ z)) = false.
Proof.
  unfold Double.ofZ. rewrite of_uint63_spec.
  pose proof (Uint63.to_Z_bounded (Uint63Axioms.of_Z z)) as [B _].
  destruct (Uint63Axioms.to_Z (Uint63Axioms.of_Z z)) as [|p|p];
    [reflexivity| |lia].
  unfold binary_normalize, binary_round.
  destruct (shl_align _ _ _) as [mz ez]. apply round_aux_nonneg.
Qed.

Lemma ceil_nonneg (a : float) :
  negative (Prim2SF a) = false -> negative (Prim2SF (Double.ceil a)) = false.
Proof.
  intro H. unfold Double.ceil.
  destruct (Prim2SF a) as [s | s | | s m e] eqn:E; try (now rewrite E).
  cbn [negative] in H. subst s.
  destruct (0 <=? e)%Z; [now rewrite E|].
  cbv zeta. destruct (_ =? 0)%Z; apply ofZ_nonneg.
Qed.

Lemma nonneg_not_below_zero (a : float) :
  negative (Prim2SF a) = false -> (a <? 0)%float = false.
Proof.
  intro H. rewrite FloatAxioms.ltb_spec.
  change (Prim2SF 0) with (S754_zero false).
  destruct (Prim2SF a) as [s | s | | s m e]; cbn [negative] in H;
    try subst s; reflexivity.
Qed.

Lemma above_zero_nonneg (a : float) :
  (0 <? a)%float = true -> negative (Prim2SF a) = false.
Proof.
  rewrite FloatAxioms.ltb_spec.
  change (Prim2SF 0) with (S754_zero false).
  destruct (Prim2SF a) as [s | s | | s m e]; cbn [negative];
    try reflexivity; destruct s; try reflexivity; discriminate.
Qed.

Lemma mul_nonneg (a b : float) :
  negative (Prim2SF a) = false -> negative (Prim2SF b) = false ->
  negative (Prim2SF (a * b)) = false.
Proof. rewrite FloatAxioms.mul_spec. apply SFmul_nonneg. Qed.

Lemma div_nonneg (a b : float) :
  negative (Prim2SF a) = false -> negative (Prim2SF b) = false ->
  negative (Prim2SF (a / b)) = false.
Proof. rewrite FloatAxioms.div_spec. apply SFdiv_nonneg. Qed.

Lemma sqr_nonneg (a : float) : negative (Prim2SF (a * a)) = false.
Proof. rewrite FloatAxioms.mul_spec. apply SFmul_self_nonneg. Qed.

Lemma abs_nonneg (a : float) : negative (Prim2SF (abs a)) = false.
Proof. rewrite abs_spec. now destruct (Prim2SF a). Qed.

End Signs.

(** X13: with an individual roll of positive width and length, no estimate has
    a negative area or a negative number of rolls, whatever the calibration
    and the mask (the two can be infinite or [NaN] when the arithmetic
    overflows). *)
Theorem estimate_never_negative (s : Double.AppState) (r : Double.Estimate) :
  Double.swatchType s = INDIVIDUAL ->
  (0 <? Double.widthCm (Double.individualRollSpecs s))%float = true ->
  (0 <? Double.lengthM (Double.individualRollSpecs s))%float = true ->
  Double.estimateProject s = Return (Some r) ->
  exists areaM2,
    Double.area r = Double.toFixed areaM2 2 /\
    (areaM2 <? 0)%float = false /\
    (Double.rolls r <? 0)%float = false.
Proof.
  intros Ht Hw Hl H.
  destruct (double_estimate_inv s r H)
    as (areaN & cm & G & L & Ha & Hc & Harea & _ & _ & Hr).
  cbv zeta in Harea, Hr.
  unfold Double.areaNormalized in Ha.
  destruct (Double.signedSum (Double.wallMask s)) as [signed | e];
    [|discriminate].
  cbn [bind] in Ha. injection Ha as <-.
  assert (A : negative (Prim2SF (abs signed / 2 * (cm * cm) / 10000)%float) = false).
  { apply div_nonneg; [|reflexivity].
    apply mul_nonneg; [|apply sqr_nonneg].
    apply div_nonneg; [apply abs_nonneg | reflexivity]. }
  eexists. split; [exact Harea|]. split.
  - now apply nonneg_not_below_zero.
  - rewrite Hr. unfold Double.requiredRolls, Double.rollAreaM2. rewrite Ht.
    apply nonneg_not_below_zero, ceil_nonneg, div_nonneg.
    + apply mul_nonneg; [exact A | reflexivity].
    + apply mul_nonneg; [|now apply above_zero_nonneg].
      apply div_nonneg; [now apply above_zero_nonneg | reflexivity].
Qed.

Lemma estimate_never_negative_sample :
  exists areaM2,
    Double.Text "53.00" = Double.toFixed areaM2 2 /\
    (areaM2 <? 0)%float = false /\
    (11 <? 0)%float = false.
Proof.
  apply (estimate_never_negative (Double.wall Double.roundedMask)
           {| Double.area := Double.Text "53.00";
              Double.width := Double.Text "1600.0";
              Double.height := Double.Text "700.0";
              Double.rolls := 11%float |}).
  - reflexivity.
  - reflexivity.
  - reflexivity.
  - vm_compute. reflexivity.
Defined.

(** A calibration length of 1e308 cm makes every field of the estimate
    infinite. *)
Example estimate_overflows :
  Double.estimateProject
    (Double.withMask Double.roundedMask
       {| Double.roomImage := None;
          Double.swatchImage := None;
          Double.swatchType := INDIVIDUAL;
          Double.panoramaSpecs := Double.panoramaSpecs (Double.wall []);
          Double.individualRollSpecs := Double.individualRollSpecs (Double.wall []);
          Double.calibration :=
            {| Double.p1 := Some (Double.point 0 0);
               Double.p2 := Some (Double.point 0.1 0);
               Double.realWorldValueCm := 1e308%float |};
          Double.wallMask := [];
          Double.isRendering := false;
          Double.renderedResult := None;
          Double.errorMessage := None |}) =
  Return (Some {| Double.area := Double.Text "Infinity";
                  Double.width := Double.Text "Infinity";
                  Double.height := Double.Text "Infinity";
                  Double.rolls := infinity |}).
Proof. vm_compute. reflexivity. Qed.
